(** * hf_eolus_sar_ingestion: the STAC catalog builder and the resilient writer

    A shallow embedding of [scripts/parquet_stac_utils.py] and
    [scripts/build_sar_catalog.py], followed by the properties proved
    about them.  Python exceptions are values of [exn] carried by the
    [result] type; side effects (writes, sleeps, prints) are recorded
    in explicit event lists. *)

From Stdlib Require Import ZArith QArith List String Ascii Bool Lia Lqa.
From Stdlib Require Import Permutation Sorted OrderedTypeEx.
From stdpp Require Import base gmap strings.

Import ListNotations.
Local Open Scope string_scope.
Local Open Scope list_scope.
Local Open Scope Z_scope.

(* ================================================================== *)
(** * Python values shared by both scripts *)
(* ================================================================== *)

Module Py.

(** The exception classes that the two scripts and the library calls
    they make can raise.  The named classes are built from a single
    message.  [Custom] stands for any other class that does not derive
    from [OSError], by its name; [init_error] is the message of the
    [TypeError] raised when the class is called with one string, for a
    class whose constructor has other required arguments (PySTAC's
    [GetSchemaError(href, error)] is one), and [None] for a class that
    accepts such a call. *)
Inductive pyclass :=
| OSError | FileNotFoundError | PermissionError
| ValueError | TypeError | RuntimeError | OverflowError
| WKBReadingError | STACValidationError
| Custom (name : string) (init_error : option string).

(** [issubclass(c, OSError)], as tested by [except OSError]. *)
Definition is_OSError (c : pyclass) : bool :=
  match c with
  | OSError | FileNotFoundError | PermissionError => true
  | _ => false
  end.

(** An exception instance: its class, [str(e)], and the optional
    [errors] attribute that validation errors expose. *)
Record exn := Exn {
  exn_class : pyclass;
  exn_msg : string;
  exn_errors : option (list string)
}.

(** A call either returns a value or raises. *)
Inductive result (A : Type) :=
| Ok (a : A)
| Raise (e : exn).
Arguments Ok {A} a.
Arguments Raise {A} e.

Definition bind {A B} (r : result A) (k : A -> result B) : result B :=
  match r with
  | Ok a => k a
  | Raise e => Raise e
  end.

Notation "'let*' x := c 'in' k" := (bind c (fun x => k))
  (at level 10, x name, c at level 100, k at level 200).
Notation "'let*' ' p := c 'in' k" :=
  (bind c (fun x => match x with p => k end))
  (at level 10, p pattern, c at level 100, k at level 200).

(** [needle in hay] on [str]. *)
Fixpoint contains (needle hay : string) : bool :=
  String.prefix needle hay ||
  match hay with
  | EmptyString => false
  | String _ hay' => contains needle hay'
  end.

(** [range(lo, hi)]. *)
Definition py_range (lo hi : Z) : list Z :=
  List.map (fun i => lo + Z.of_nat i) (seq 0 (Z.to_nat (hi - lo))).

(** [cls(msg)]: the instance built from one string, or the
    [TypeError] of a constructor that cannot be called with it. *)
Definition instantiate (cls : pyclass) (msg : string) : result exn :=
  match cls with
  | Custom _ (Some err) => Raise (Exn TypeError err None)
  | _ => Ok (Exn cls msg None)
  end.

(** The largest whole number of seconds that fits the interpreter's
    signed 64-bit count of nanoseconds, [(2^63 - 1) // 10^9]. *)
Definition SLEEP_MAX : Z := 9223372036.

(** [time.sleep(secs)] for an [int]: the length is first converted to
    nanoseconds, [OverflowError] when it does not fit, whatever its
    sign; a negative length is then refused with [ValueError]; the
    system call that waits comes last, and [os_outcome] is what it
    does ([None]: it returns after the wait, [Some e]: it is refused or
    interrupted and [e] is raised). *)
Definition time_sleep (os_outcome : option exn) (secs : Z) : result unit :=
  if (secs <? - SLEEP_MAX) || (SLEEP_MAX <? secs)
  then Raise (Exn OverflowError
                "timestamp too large to convert to C _PyTime_t" None)
  else if secs <? 0
  then Raise (Exn ValueError "sleep length must be non-negative" None)
  else match os_outcome with
       | Some e => Raise e
       | None => Ok tt
       end.

End Py.
Import Py.

(* ================================================================== *)
(** * scripts/parquet_stac_utils.py *)
(* ================================================================== *)

Module ParquetStacUtils.

Section Writer.

(** The table and the filesystem handle are passed through to
    [pyarrow] untouched. *)
Variables (Table FileSystem : Type).

(** The keyword arguments assembled for [pq.write_to_dataset]. *)
Record write_kwargs := WriteKwargs {
  kw_root_path : string;
  kw_partition_cols : list string;
  kw_filesystem : FileSystem;
  kw_basename_template : option string
}.

(** What the function does to the outside world, in order. *)
Inductive event :=
| EvWrite (attempt : Z) (table : Table) (kw : write_kwargs)
| EvSleep (secs : Z).

(** The outside world as seen by the caller: the outcome of the
    [attempt]-th call of [pq.write_to_dataset] ([None]: it returns,
    [Some e]: it raises [e]), and what the system call does for the
    sleep that follows that attempt. *)
Record backend := Backend {
  write_to_dataset : Z -> option exn;
  sleep_outcome : Z -> option exn
}.

(** [if basename_template: write_kwargs["basename_template"] = ...]:
    [None] and the empty string are both falsy. *)
Definition build_kwargs (root_path : string) (partition_cols : list string)
    (filesystem : FileSystem) (basename_template : option string) : write_kwargs :=
  WriteKwargs root_path partition_cols filesystem
    (match basename_template with
     | Some EmptyString => None
     | t => t
     end).

(** The throttling test of the [except OSError] handler. *)
Definition is_throttling (e : exn) : bool :=
  is_OSError (exn_class e) && contains "SLOW_DOWN" (exn_msg e).

(** The body of [for attempt in range(1, retries + 1)], over the
    attempt numbers that remain. *)
Fixpoint retry_loop (store : backend) (table : Table) (kw : write_kwargs)
    (retries backoff : Z) (attempts : list Z) : list event * result unit :=
  match attempts with
  | [] => ([], Ok tt)
  | attempt :: rest =>
      match write_to_dataset store attempt with
      | None => ([EvWrite attempt table kw], Ok tt)
      | Some e =>
          if is_OSError (exn_class e) then
            if contains "SLOW_DOWN" (exn_msg e) && (attempt <? retries) then
              let wait := backoff * 2 ^ (attempt - 1) in
              match time_sleep (sleep_outcome store attempt) wait with
              | Raise e' => ([EvWrite attempt table kw], Raise e')
              | Ok _ =>
                  let '(tr, r) := retry_loop store table kw retries backoff rest in
                  (EvWrite attempt table kw :: EvSleep wait :: tr, r)
              end
            else ([EvWrite attempt table kw], Raise e)
          else ([EvWrite attempt table kw], Raise e)
      end
  end.

Definition default_retries : Z := 5.
Definition default_backoff : Z := 5.

Definition write_dataset_with_retry (store : backend) (table : Table)
    (root_path : string) (partition_cols : list string)
    (filesystem : FileSystem) (retries backoff : option Z)
    (basename_template : option string) : list event * result unit :=
  let retries := default default_retries retries in
  let backoff := default default_backoff backoff in
  retry_loop store table
    (build_kwargs root_path partition_cols filesystem basename_template)
    retries backoff (py_range 1 (retries + 1)).

(** The loop as it stands on entering attempt [n]. *)
Definition run_from (store : backend) (table : Table) (kw : write_kwargs)
    (retries backoff : Z) (n : Z) : list event * result unit :=
  retry_loop store table kw retries backoff (py_range n (retries + 1)).

(** Observations on a trace. *)
Definition is_write (ev : event) : bool :=
  match ev with EvWrite _ _ _ => true | EvSleep _ => false end.

Definition attempts_made (tr : list event) : nat :=
  List.length (List.filter is_write tr).

Definition sleeps (tr : list event) : list Z :=
  flat_map (fun ev => match ev with EvSleep s => [s] | _ => [] end) tr.

Definition seconds_slept (tr : list event) : Z :=
  fold_right Z.add 0 (sleeps tr).

End Writer.

Arguments EvWrite {Table FileSystem} attempt table kw.
Arguments EvSleep {Table FileSystem} secs.
Arguments WriteKwargs {FileSystem} _ _ _ _.
Arguments build_kwargs {FileSystem} _ _ _ _.
Arguments retry_loop {Table FileSystem} _ _ _ _ _ _.
Arguments run_from {Table FileSystem} _ _ _ _ _ _.
Arguments write_dataset_with_retry {Table FileSystem} _ _ _ _ _ _ _ _.
Arguments attempts_made {Table FileSystem} _.
Arguments sleeps {Table FileSystem} _.
Arguments seconds_slept {Table FileSystem} _.

End ParquetStacUtils.

(* ================================================================== *)
(** * Python [float] and [datetime] values *)
(* ================================================================== *)

Module Float.

(** A [float] as the scripts use it: a number, one of the two
    infinities that seed the reduction, or a NaN.  Only comparisons are
    performed on coordinates, so a finite value is kept as the rational
    it denotes; [==] on floats is [Qeq] there, which is coarser than
    identity just as [0.0 == -0.0]. *)
Inductive float :=
| NaN
| NegInf
| Finite (q : Q)
| PosInf.

(** [a < b]; any comparison with a NaN is false. *)
Definition ltb (a b : float) : bool :=
  match a, b with
  | NaN, _ | _, NaN => false
  | _, NegInf => false
  | NegInf, _ => true
  | PosInf, _ => false
  | Finite _, PosInf => true
  | Finite p, Finite q => negb (Qle_bool q p)
  end.

(** [a == b]. *)
Definition eqb (a b : float) : bool :=
  match a, b with
  | NegInf, NegInf | PosInf, PosInf => true
  | Finite p, Finite q => Qeq_bool p q
  | _, _ => false
  end.

Definition is_nan (a : float) : bool :=
  match a with NaN => true | _ => false end.

(** The builtin two-argument [min(a, b)]: the second argument replaces
    the first only when it is strictly smaller. *)
Definition py_min (a b : float) : float := if ltb b a then b else a.

(** The builtin two-argument [max(a, b)]: the second argument replaces
    the first only when it is strictly greater. *)
Definition py_max (a b : float) : float := if ltb a b then b else a.

(** Propositional readings of the comparisons. *)
Definition eq (a b : float) : Prop := eqb a b = true.
Definition le (a b : float) : Prop := ltb a b = true \/ eqb a b = true.

Definition of_Z (z : Z) : float := Finite (inject_Z z).

End Float.

Module Datetime.

Definition US_PER_SECOND : Z := 1000000.
Definition US_PER_MINUTE : Z := 60 * US_PER_SECOND.
Definition US_PER_HOUR : Z := 60 * US_PER_MINUTE.
Definition US_PER_DAY : Z := 24 * US_PER_HOUR.

(** [date.max.toordinal()], the ordinal of 9999-12-31. *)
Definition MAX_ORDINAL : Z := 3652059.

(** A [datetime]: the wall-clock reading (year .. microsecond) counted
    in microseconds from 0001-01-01T00:00:00, and [tzinfo], absent for
    a naive value and otherwise a fixed UTC offset in microseconds. *)
Record datetime := Datetime {
  wall : Z;
  tzinfo : option Z
}.

(** [timezone.utc]. *)
Definition utc : Z := 0.

Definition in_range (w : Z) : bool :=
  (0 <=? w) && (w <? MAX_ORDINAL * US_PER_DAY).

(** ** Calendar arithmetic of the [datetime] module *)

Definition is_leap (y : Z) : bool :=
  (y mod 4 =? 0) && (negb (y mod 100 =? 0) || (y mod 400 =? 0)).

Definition days_before_year (y : Z) : Z :=
  let p := y - 1 in p * 365 + p / 4 - p / 100 + p / 400.

Definition days_in_month (y m : Z) : Z :=
  if m =? 2 then (if is_leap y then 29 else 28)
  else if (m =? 4) || (m =? 6) || (m =? 9) || (m =? 11) then 30
  else 31.

Definition days_before_month (y m : Z) : Z :=
  fold_right Z.add 0 (List.map (days_in_month y) (py_range 1 m)).

Definition ymd2ord (y m d : Z) : Z :=
  days_before_year y + days_before_month y m + d.

Definition DI400Y : Z := days_before_year 401.
Definition DI100Y : Z := days_before_year 101.
Definition DI4Y : Z := days_before_year 5.

(** [_ord2ymd]: ordinal to (year, month, day). *)
Definition ord2ymd (n : Z) : Z * Z * Z :=
  let n := n - 1 in
  let n400 := n / DI400Y in let n := n mod DI400Y in
  let n100 := n / DI100Y in let n := n mod DI100Y in
  let n4 := n / DI4Y in let n := n mod DI4Y in
  let n1 := n / 365 in let n := n mod 365 in
  let year := n400 * 400 + 1 + n100 * 100 + n4 * 4 + n1 in
  if (n1 =? 4) || (n100 =? 4) then (year - 1, 12, 31)
  else
    let leapyear := (n1 =? 3) && (negb (n4 =? 24) || (n100 =? 3)) in
    let month := Z.shiftr (n + 50) 5 in
    let preceding :=
      days_before_month 1 month +
      (if (2 <? month) && leapyear then 1 else 0) in
    if n <? preceding then
      let month := month - 1 in
      let preceding :=
        preceding -
        (days_in_month 1 month + (if (month =? 2) && leapyear then 1 else 0)) in
      (year, month, n - preceding + 1)
    else (year, month, n - preceding + 1).

(** The constructor [datetime(y, m, d, hh, mm, ss, us, tzinfo=tz)]. *)
Definition mk (y m d hh mm ss us : Z) (tz : option Z) : datetime :=
  Datetime ((ymd2ord y m d - 1) * US_PER_DAY + hh * US_PER_HOUR +
            mm * US_PER_MINUTE + ss * US_PER_SECOND + us) tz.

(** ** [replace], [astimezone], comparison *)

(** [dt.replace(tzinfo=timezone.utc)]: the clock reading is kept. *)
Definition replace_tzinfo_utc (d : datetime) : datetime :=
  Datetime (wall d) (Some utc).

(** [dt.astimezone(timezone.utc)] for an aware [dt] with offset [off]:
    the same instant read on the UTC clock; [OverflowError] when that
    reading leaves year 1 .. 9999. *)
Definition astimezone_utc (d : datetime) (off : Z) : result datetime :=
  let w := wall d - off in
  if in_range w then Ok (Datetime w (Some utc))
  else Raise (Exn OverflowError "date value out of range" None).

(** The instant an aware value denotes, on the UTC clock. *)
Definition instant (d : datetime) (off : Z) : Z := wall d - off.

(** [a < b]: naive with naive by clock reading, aware with aware by
    instant, and [TypeError] across the two kinds. *)
Definition ltb (a b : datetime) : result bool :=
  match tzinfo a, tzinfo b with
  | None, None => Ok (wall a <? wall b)
  | Some oa, Some ob => Ok (instant a oa <? instant b ob)
  | _, _ =>
      Raise (Exn TypeError
               "can't compare offset-naive and offset-aware datetimes" None)
  end.

(** ** [isoformat] *)

Definition digit (n : Z) : ascii := ascii_of_nat (48 + Z.to_nat (n mod 10)).

(** ["%02d" % n], ["%04d" % n] and ["%06d" % n] for values that fit. *)
Definition pad2 (n : Z) : string :=
  String (digit (n / 10)) (String (digit n) "").
Definition pad4 (n : Z) : string :=
  String (digit (n / 1000)) (String (digit (n / 100)) (pad2 n)).
Definition pad6 (n : Z) : string :=
  String (digit (n / 100000)) (String (digit (n / 10000)) (pad4 n)).

(** The naive part: [YYYY-MM-DDTHH:MM:SS], then [.ffffff] when the
    microsecond is not zero. *)
Definition isoformat_clock (w : Z) : string :=
  let '(y, m, d) := ord2ymd (w / US_PER_DAY + 1) in
  let r := w mod US_PER_DAY in
  let hh := r / US_PER_HOUR in
  let mm := (r mod US_PER_HOUR) / US_PER_MINUTE in
  let ss := (r mod US_PER_MINUTE) / US_PER_SECOND in
  let us := r mod US_PER_SECOND in
  pad4 y +:+ "-" +:+ pad2 m +:+ "-" +:+ pad2 d +:+ "T" +:+
  pad2 hh +:+ ":" +:+ pad2 mm +:+ ":" +:+ pad2 ss +:+
  (if us =? 0 then "" else "." +:+ pad6 us).

(** [_format_offset]: [+HH:MM], then [:SS] and [.ffffff] when needed. *)
Definition format_offset (tz : option Z) : string :=
  match tz with
  | None => ""
  | Some off =>
      let sign := if off <? 0 then "-" else "+" in
      let off := Z.abs off in
      let hh := off / US_PER_HOUR in
      let mm := (off mod US_PER_HOUR) / US_PER_MINUTE in
      let ss := (off mod US_PER_MINUTE) / US_PER_SECOND in
      let us := off mod US_PER_SECOND in
      sign +:+ pad2 hh +:+ ":" +:+ pad2 mm +:+
      (if (ss =? 0) && (us =? 0) then ""
       else ":" +:+ pad2 ss +:+ (if us =? 0 then "" else "." +:+ pad6 us))
  end.

Definition isoformat (d : datetime) : string :=
  isoformat_clock (wall d) +:+ format_offset (tzinfo d).

End Datetime.

(* ================================================================== *)
(** * scripts/build_sar_catalog.py *)
(* ================================================================== *)

Module BuildSarCatalog.

Import Float.
Abbreviation datetime := Datetime.datetime.

(** ** Strings and paths *)

(** [s.endswith(suffix)]. *)
Definition endswith (s suffix : string) : bool :=
  let n := String.length s in
  let m := String.length suffix in
  (m <=? n)%nat && String.eqb (substring (n - m) m s) suffix.

(** [s[:-k]] for [k > 0]. *)
Definition drop_last (k : nat) (s : string) : string :=
  substring 0 (String.length s - k) s.

(** [s.rfind(".")], [None] standing for [-1]. *)
Fixpoint rfind_dot (s : string) : option nat :=
  match s with
  | EmptyString => None
  | String c s' =>
      match rfind_dot s' with
      | Some i => Some (S i)
      | None => if Ascii.eqb c "."%char then Some O else None
      end
  end.

(** A path as its components.  Paths under the assets directory are
    kept relative to it. *)
Definition Path := list string.

Definition path_str (p : Path) : string := String.concat "/" p.

(** [PurePath.name] and [PurePath.stem]: the stem drops the last
    suffix unless the dot is the first or the last character. *)
Definition name (p : Path) : string := List.last p "".

Definition stem_of_name (nm : string) : string :=
  match rfind_dot nm with
  | Some i =>
      if (0 <? i)%nat && (i <? String.length nm - 1)%nat
      then substring 0 i nm
      else nm
  | None => nm
  end.

Definition stem (p : Path) : string := stem_of_name (name p).

(** [a < b] on paths: the component lists compared lexicographically,
    each component by code units. *)
Fixpoint path_ltb (a b : Path) : bool :=
  match a, b with
  | [], [] => false
  | [], _ :: _ => true
  | _ :: _, [] => false
  | x :: a', y :: b' =>
      match String.compare x y with
      | Lt => true
      | Gt => false
      | Eq => path_ltb a' b'
      end
  end.

(** ** Table contents *)

(** A cell of a timestamp column: a [datetime], or [None] for a null. *)
Inductive tsval :=
| TsNone
| TsDatetime (d : datetime).

(** A decoded geometry and its [bounds]. *)
Inductive geometry :=
| Point (x y : float).

Definition bounds (g : geometry) : float * float * float * float :=
  match g with Point x y => (x, y, x, y) end.

(** A cell of the geometry column: well-formed WKB, given by the
    geometry it encodes, or bytes that [wkb.loads] rejects. *)
Inductive wkb_bytes :=
| Wkb (g : geometry)
| Malformed.

Definition wkb_loads (g : wkb_bytes) : result geometry :=
  match g with
  | Wkb geom => Ok geom
  | Malformed => Raise (Exn WKBReadingError "Could not create geometry" None)
  end.

Record row := Row {
  geometry_cell : wkb_bytes;
  firstMeasurementTime : tsval;
  lastMeasurementTime : tsval
}.

(** A file found under [assets]: a Parquet file with the three columns
    read by the summarizer and the row count of its footer, or a file
    that [pq.read_table] cannot read. *)
Inductive file :=
| ParquetFile (rows : list row) (num_rows : Z)
| Unreadable.

Definition read_table (f : file) : result (list row) :=
  match f with
  | ParquetFile rows _ => Ok rows
  | Unreadable =>
      Raise (Exn ValueError "Parquet magic bytes not found in footer" None)
  end.

Definition metadata_num_rows (f : file) : result Z :=
  match f with
  | ParquetFile _ n => Ok n
  | Unreadable =>
      Raise (Exn ValueError "Parquet magic bytes not found in footer" None)
  end.

Record BBox := mkBBox { minx : float; miny : float; maxx : float; maxy : float }.

(** ** Comparison and reduction of timestamp cells *)

Definition ts_ltb (a b : tsval) : result bool :=
  match a, b with
  | TsDatetime x, TsDatetime y => Datetime.ltb x y
  | _, _ =>
      Raise (Exn TypeError "'<' not supported between instances" None)
  end.

(** [a > b] is decided by the same three-way comparison. *)
Definition ts_gtb (a b : tsval) : result bool := ts_ltb b a.

Fixpoint min_loop (m : tsval) (l : list tsval) : result tsval :=
  match l with
  | [] => Ok m
  | x :: l' => let* b := ts_ltb x m in min_loop (if b then x else m) l'
  end.

Fixpoint max_loop (m : tsval) (l : list tsval) : result tsval :=
  match l with
  | [] => Ok m
  | x :: l' => let* b := ts_gtb x m in max_loop (if b then x else m) l'
  end.

(** The builtins [min(iterable)] and [max(iterable)]. *)
Definition py_min_list (l : list tsval) : result tsval :=
  match l with
  | [] => Raise (Exn ValueError "min() iterable argument is empty" None)
  | x :: l' => min_loop x l'
  end.

Definition py_max_list (l : list tsval) : result tsval :=
  match l with
  | [] => Raise (Exn ValueError "max() iterable argument is empty" None)
  | x :: l' => max_loop x l'
  end.

(** ** [_to_rfc3339_z] and [_bbox_and_times] *)

(** [dt.replace(tzinfo=timezone.utc) if dt.tzinfo is None
     else dt.astimezone(timezone.utc)]. *)
Definition to_utc (d : datetime) : result datetime :=
  match Datetime.tzinfo d with
  | None => Ok (Datetime.replace_tzinfo_utc d)
  | Some off => Datetime.astimezone_utc d off
  end.

Definition _to_rfc3339_z (dt : tsval) : result string :=
  match dt with
  | TsDatetime d =>
      let* d := to_utc d in
      let s := Datetime.isoformat d in
      Ok (if endswith s "+00:00" then drop_last 6 s +:+ "Z"
          else if endswith s "Z" then s else s +:+ "Z")
  | TsNone => Raise (Exn TypeError "_to_rfc3339_z expects a datetime instance" None)
  end.

(** The [for g in geoms] loop, from the running four bounds. *)
Fixpoint bbox_loop (geoms : list wkb_bytes) (acc : BBox) : result BBox :=
  match geoms with
  | [] => Ok acc
  | g :: rest =>
      let* geom := wkb_loads g in
      let '(b0, b1, b2, b3) := bounds geom in
      bbox_loop rest
        (mkBBox (py_min (minx acc) b0) (py_min (miny acc) b1)
                (py_max (maxx acc) b2) (py_max (maxy acc) b3))
  end.

(** [if isinstance(t, datetime): t = ... UTC ...]. *)
Definition normalize (t : tsval) : result tsval :=
  match t with
  | TsDatetime d => let* d := to_utc d in Ok (TsDatetime d)
  | TsNone => Ok TsNone
  end.

Definition _bbox_and_times (parquet_path : string) (f : file)
  : result (BBox * tsval * tsval * Z) :=
  let* table := read_table f in
  let geoms := List.map geometry_cell table in
  let first_times := List.map firstMeasurementTime table in
  let last_times := List.map lastMeasurementTime table in
  match geoms with
  | [] => Raise (Exn ValueError ("No geometry column in " +:+ parquet_path) None)
  | _ :: _ =>
      let* bb := bbox_loop geoms (mkBBox PosInf PosInf NegInf NegInf) in
      let* start := py_min_list first_times in
      let* end_ := py_max_list last_times in
      let* start := normalize start in
      let* end_ := normalize end_ in
      let* row_count := metadata_num_rows f in
      Ok (bb, start, end_, row_count)
  end.

(** ** Metadata records *)

#[warnings="-register-all"]
Inductive json :=
| JNull
| JBool (b : bool)
| JInt (z : Z)
| JStr (s : string)
| JList (l : list json)
| JObj (fields : list (string * json)).

Record Column := mkColumn {
  col_name : string;
  col_description : string;
  col_type : string
}.

Definition COLUMN_DEFS : list Column :=
  [
    mkColumn "rowid"
      "Unique row identifier" "integer";
    mkColumn "firstMeasurementTime"
      "Time of the first measurement (UTC)" "datetime";
    mkColumn "lastMeasurementTime"
      "Time of the last measurement (UTC)" "datetime";
    mkColumn "owiLon"
      "Longitude of the pixel center (degrees East)" "number";
    mkColumn "owiLat"
      "Latitude of the pixel center (degrees North)" "number";
    mkColumn "owiWindSpeed"
      "Surface wind speed (m/s)" "number";
    mkColumn "owiWindDirection"
      "Direction of the surface wind vector (degrees clockwise from North)" "number";
    mkColumn "owiMask"
      "Wind field mask" "number";
    mkColumn "owiInversionQuality"
      "Wind inversion quality index" "number";
    mkColumn "owiHeading"
      "Satellite heading (degrees clockwise from North)" "number";
    mkColumn "owiWindQuality"
      "Wind quality flag" "number";
    mkColumn "owiRadVel"
      "Radial wind velocity (m/s)" "number";
    mkColumn "date"
      "Date of the observation (UTC)" "date";
    mkColumn "geometry"
      "Point geometry of the observation in WGS84 encoded as WKB" "binary"
  ].

Record Asset := mkAsset {
  asset_href : string;
  asset_media_type : string;
  asset_roles : list string
}.

Record Item := mkItem {
  item_id : string;
  item_geometry : list (float * float);
  item_bbox : BBox;
  item_datetime : tsval;
  item_properties : gmap string json;
  item_assets : gmap string Asset;
  item_columns : list Column;
  item_primary_geometry : string;
  item_row_count : Z;
  item_collection : option string;
  item_self_href : option string
}.

Record Table := mkTable {
  table_name : string;
  table_description : string;
  table_columns : list Column;
  table_row_count : Z
}.

Record Collection := mkCollection {
  coll_id : string;
  coll_description : string;
  coll_spatial_extent : list BBox;
  coll_temporal_extent : list (tsval * tsval);
  coll_extra_fields : gmap string json;
  coll_tables : list Table;
  coll_items : list Item;
  coll_self_href : option string
}.

(** A column definition as the dict it is in [COLUMN_DEFS]. *)
Definition column_json (c : Column) : json :=
  JObj [ ("name", JStr (col_name c));
         ("description", JStr (col_description c));
         ("type", JStr (col_type c)) ].

Definition DESCRIPTION : string :=
  "Synthetic Aperture Radar wind vectors for HF-EOLUS Project area of interest (NW Iberian Peninsula and S Bay of Biscay) derived from Copernicus Sentinel-1 Level-2 OCN OWI products, processed into a GeoParquet dataset. The dataset contains wind speed, direction, and quality flag at approximately 10 m above sea level, along with satellite metadata. Data is provided in daily files covering the period from November 2020 to February 2023. Each file contains point geometries in WGS84 (EPSG:4326) with associated attributes.".

(** The exterior ring of [box(minx, miny, maxx, maxy)]. *)
Definition box (b : BBox) : list (float * float) :=
  [ (maxx b, miny b); (maxx b, maxy b); (minx b, maxy b);
    (minx b, miny b); (maxx b, miny b) ].

(** ** Hrefs *)

(** [s.rfind("/")], [None] standing for [-1]. *)
Fixpoint rfind_slash (s : string) : option nat :=
  match s with
  | EmptyString => None
  | String c s' =>
      match rfind_slash s' with
      | Some i => Some (S i)
      | None => if Ascii.eqb c "/"%char then Some O else None
      end
  end.

(** [s == "/" * len(s)]. *)
Fixpoint all_slashes (s : string) : bool :=
  match s with
  | EmptyString => true
  | String c s' => Ascii.eqb c "/"%char && all_slashes s'
  end.

(** [s.rstrip("/")]. *)
Fixpoint rstrip_slashes (s : string) : string :=
  match s with
  | EmptyString => EmptyString
  | String c s' =>
      match rstrip_slashes s' with
      | EmptyString => if Ascii.eqb c "/"%char then EmptyString
                       else String c EmptyString
      | t => String c t
      end
  end.

(** [posixpath.join(a, b)]. *)
Definition posix_join (a b : string) : string :=
  if String.prefix "/" b then b
  else if String.eqb a "" || endswith a "/" then a +:+ b
  else a +:+ "/" +:+ b.

(** [posixpath.dirname(p)]. *)
Definition posix_dirname (p : string) : string :=
  let head := match rfind_slash p with
              | Some i => substring 0 (S i) p
              | None => EmptyString
              end in
  if all_slashes head then head else rstrip_slashes head.

(** [str(path)]: the empty path prints as a dot. *)
Definition str_of_path (p : Path) : string :=
  match p with
  | [] => "."
  | _ => path_str p
  end.

(** The layout of [build_catalog]: the collection at
    [collection.json] under the root href, and an item at
    [items/<id>.json] under the directory of the collection. *)
Definition collection_href (root_href : string) : string :=
  posix_join root_href "collection.json".

Definition item_href (root_href id : string) : string :=
  posix_join (posix_dirname (collection_href root_href))
    ("items/" +:+ id +:+ ".json").

(** ** Effects of a run *)

Inductive document :=
| DocCollection (c : Collection)
| DocItem (i : Item).

Inductive event :=
| EvMkdir (dir : string)
| EvSetDefaultStacIO
| EvPrint (line : string)
| EvWriteText (href : string) (doc : document).

(** A computation that performs effects and then returns or raises. *)
Definition io (A : Type) : Type := list event * result A.

Definition io_ret {A} (a : A) : io A := ([], Ok a).
Definition io_raise {A} (e : exn) : io A := ([], Raise e).
Definition io_emit (ev : event) : io unit := ([ev], Ok tt).
Definition io_lift {A} (r : result A) : io A := ([], r).

Definition io_bind {A B} (m : io A) (k : A -> io B) : io B :=
  match m with
  | (tr, Ok a) => let '(tr', r) := k a in (tr ++ tr', r)
  | (tr, Raise e) => (tr, Raise e)
  end.

Notation "'do*' x := c 'in' k" := (io_bind c (fun x => k))
  (at level 10, x name, c at level 100, k at level 200).
Notation "c ;;; k" := (io_bind c (fun _ => k))
  (at level 100, k at level 200, right associativity).

Definition is_write (ev : event) : bool :=
  match ev with EvWriteText _ _ => true | _ => false end.

(** The documents a run has written. *)
Definition writes (tr : list event) : list (string * document) :=
  flat_map (fun ev => match ev with
                      | EvWriteText h d => [(h, d)]
                      | _ => []
                      end) tr.

(** The collection document a run has written, if any. *)
Definition written_collection (tr : list event) : option Collection :=
  List.fold_right (fun hd acc => match snd hd with
                            | DocCollection c => Some c
                            | DocItem _ => acc
                            end) None (writes tr).

(** ** [build_catalog] *)

(** The accumulators of the loop over the Parquet files. *)
Record loop_state := mkState {
  items : list Item;
  overall_bbox : option BBox;
  start_times : list tsval;
  end_times : list tsval;
  total_rows : Z
}.

Definition init_state : loop_state := mkState [] None [] [] 0.

(** [sorted(...)]: a stable insertion by [<] on the paths. *)
Fixpoint insert_sorted (x : Path * file) (l : list (Path * file))
  : list (Path * file) :=
  match l with
  | [] => [x]
  | y :: l' =>
      if path_ltb (fst y) (fst x) then y :: insert_sorted x l'
      else x :: y :: l'
  end.

Definition sorted (l : list (Path * file)) : list (Path * file) :=
  List.fold_right insert_sorted [] l.

(** [assets_dir.rglob("*.parquet")] over the files below the assets
    directory, each path paired with the file it names, in the order
    the directory scan yields them. *)
Definition rglob_parquet (tree : list (Path * file)) : list (Path * file) :=
  List.filter (fun pf => endswith (name (fst pf)) ".parquet") tree.

(** [json.load(open(path)) if path else {}]: the argument is what
    loading the given path yields, [None] when no path is given. *)
Definition load_props (src : option (result (gmap string json)))
  : result (gmap string json) :=
  match src with
  | None => Ok ∅
  | Some r => r
  end.

Definition join_parts (parts : list string) : string :=
  String.concat " | " parts.

(** The documents of a collection in the order [save] writes them:
    every item at its href, then the collection. *)
Definition documents (c : Collection) : list (string * document) :=
  List.map (fun it => (default "" (item_self_href it), DocItem it))
    (coll_items c)
  ++ [(default "" (coll_self_href c), DocCollection c)].

Section Builder.

(** The validation engine and the traceback formatter are external. *)
Variable validate_item : Item -> option exn.
Variable validate_collection : Collection -> option exn.
Variable format_exc : exn -> list string.

(** So are the resolution of the root href and the storage.
    [normalize_hrefs] keeps a root href that is absolute and resolves
    any other against the working directory of the process:
    [make_absolute_href] is that step.  [stac_io k] is the outcome of
    the [k]-th call of [write_text] made by the run, counted from 0
    ([None]: it returns, [Some e]: it raises [e]). *)
Variable make_absolute_href : string -> string.
Variable stac_io : nat -> option exn.

Definition error_lines (e : exn) : list string :=
  match exn_errors e with
  | Some errs => errs
  | None => []
  end.

Definition merge_bbox (overall : option BBox) (bbox : BBox) : BBox :=
  match overall with
  | None => bbox
  | Some o =>
      mkBBox (py_min (minx o) (minx bbox)) (py_min (miny o) (miny bbox))
             (py_max (maxx o) (maxx bbox)) (py_max (maxy o) (maxy bbox))
  end.

(** The summary of one file and the item built from it.  The table
    extension keeps its three fields in the properties of the item,
    under the [table:] keys; the record also carries their typed
    reading. *)
Definition item_of_file (root : Path) (item_props : gmap string json)
    (pf : Path * file) : result (Item * (BBox * tsval * tsval * Z)) :=
  let '(rel, f) := pf in
  let* summary := _bbox_and_times (path_str (root ++ "assets" :: rel)) f in
  let '(bbox, start, end_, row_count) := summary in
  let rel_href := "assets" :: rel in
  let* start_s := _to_rfc3339_z start in
  let* end_s := _to_rfc3339_z end_ in
  Ok (mkItem (stem rel) (box bbox) bbox start
        (<["table:row_count" := JInt row_count]>
           (<["table:primary_geometry" := JStr "geometry"]>
              (<["table:columns" := JList (List.map column_json COLUMN_DEFS)]>
                 (<["end_datetime" := JStr end_s]>
                    (<["start_datetime" := JStr start_s]> item_props)))))
        {[ "data" := mkAsset (path_str rel_href) "application/x-parquet" ["data"] ]}
        COLUMN_DEFS "geometry" row_count None None,
      summary).

(** The updates of the accumulators at the end of an iteration. *)
Definition accumulate (st : loop_state)
    (r : Item * (BBox * tsval * tsval * Z)) : loop_state :=
  let '(item, (bbox, start, end_, row_count)) := r in
  mkState (items st ++ [item])
    (Some (merge_bbox (overall_bbox st) bbox))
    (start_times st ++ [start])
    (end_times st ++ [end_])
    (total_rows st + row_count).

(** [raise e.__class__(msg) from e]: the class of [e] is called with
    the new message, and a class that cannot be called so raises its
    [TypeError] instead. *)
Definition reraise (e : exn) (msg : string) : exn :=
  match instantiate (exn_class e) msg with
  | Ok e' => e'
  | Raise t => t
  end.

(** One iteration of the loop over the sorted Parquet files: build the
    item, validate it, then accumulate. *)
Definition process_file (root : Path) (item_props : gmap string json)
    (st : loop_state) (pf : Path * file) : io loop_state :=
  do* r := io_lift (item_of_file root item_props pf) in
  let item := fst r in
  match validate_item item with
  | Some e =>
      io_emit (EvPrint (join_parts
        (("ERROR: Item validation failed for item ID " +:+ item_id item
            +:+ ": " +:+ exn_msg e)
         :: error_lines e ++ format_exc e))) ;;;
      io_raise (reraise e
        ("Validation failed for STAC item '" +:+ item_id item +:+ "': "
           +:+ exn_msg e))
  | None => io_ret (accumulate st r)
  end.

Fixpoint loop (root : Path) (item_props : gmap string json)
    (files : list (Path * file)) (st : loop_state) : io loop_state :=
  match files with
  | [] => io_ret st
  | pf :: rest =>
      do* st' := process_file root item_props st pf in
      loop root item_props rest st'
  end.

(** The root href that [normalize_hrefs(str(root), ...)] starts from. *)
Definition root_href (root : Path) : string :=
  make_absolute_href (str_of_path root).

(** [collection.add_item(item)] followed by [normalize_hrefs] under
    the layout [items/${id}.json]. *)
Definition link_item (root : Path) (collection_id : string) (it : Item) : Item :=
  mkItem (item_id it) (item_geometry it) (item_bbox it) (item_datetime it)
    (item_properties it) (item_assets it) (item_columns it)
    (item_primary_geometry it) (item_row_count it)
    (Some collection_id)
    (Some (item_href (root_href root) (item_id it))).

(** The calls of [write_text] for [docs], the first being the [k]-th
    of the run: a call that raises ends the save. *)
Fixpoint write_all (k : nat) (docs : list (string * document)) : io unit :=
  match docs with
  | [] => io_ret tt
  | (href, doc) :: rest =>
      match stac_io k with
      | Some e => ([EvWriteText href doc], Raise e)
      | None => io_emit (EvWriteText href doc) ;;; write_all (S k) rest
      end
  end.

(** [collection.save(...)]: every item document, then the collection,
    one call of [write_text] each. *)
Definition save (c : Collection) : io unit := write_all 0 (documents c).

(** The first failure of [collection.validate()] and then of
    [it.validate()] over the items. *)
Definition post_save_failure (c : Collection) : option exn :=
  match validate_collection c with
  | Some e => Some e
  | None =>
      List.fold_right (fun it acc => match validate_item it with
                                | Some e => Some e
                                | None => acc
                                end) None (coll_items c)
  end.

(** The collection record built after the loop, with its items linked
    and its hrefs normalized. *)
Definition make_collection (root : Path) (collection_id : string)
    (collection_props : gmap string json) (st : loop_state) (bb : BBox)
  : result Collection :=
  let* tmin := py_min_list (start_times st) in
  let* tmax := py_max_list (end_times st) in
  Ok (mkCollection collection_id DESCRIPTION [bb] [(tmin, tmax)]
        collection_props
        [mkTable "owi" "Sentinel-1 Ocean Wind Field measurements"
           COLUMN_DEFS (total_rows st)]
        (List.map (link_item root collection_id) (items st))
        (Some (collection_href (root_href root)))).

Definition build_catalog (root : Path) (collection_id : string)
    (item_props_src collection_props_src : option (result (gmap string json)))
    (tree : list (Path * file)) : io unit :=
  io_emit (EvMkdir (path_str (root ++ ["items"]))) ;;;
  io_emit EvSetDefaultStacIO ;;;
  do* item_props := io_lift (load_props item_props_src) in
  do* collection_props := io_lift (load_props collection_props_src) in
  do* st := loop root item_props (sorted (rglob_parquet tree)) init_state in
  match overall_bbox st with
  | None =>
      io_raise (Exn RuntimeError
                  "No Parquet files found under assets directory" None)
  | Some bb =>
      do* collection :=
        io_lift (make_collection root collection_id collection_props st bb) in
      save collection ;;;
      match post_save_failure collection with
      | Some e =>
          io_emit (EvPrint (join_parts
            (("ERROR: Post-save validation failed for collection '"
                +:+ coll_id collection +:+ "': " +:+ exn_msg e)
             :: error_lines e ++ format_exc e))) ;;;
          io_raise (reraise e
            ("Validation failed after saving STAC catalog for '"
               +:+ coll_id collection +:+ "': " +:+ exn_msg e))
      | None => io_ret tt
      end
  end.

End Builder.

End BuildSarCatalog.

(* ================================================================== *)
(** * A catalog of two daily files *)
(* ================================================================== *)

Module Example.

Import Float BuildSarCatalog.

Definition pt (x y : Q) : wkb_bytes := Wkb (Point (Finite x) (Finite y)).

(** An instant of January 2021, tagged with UTC. *)
Definition dt (day hour minute : Z) : datetime :=
  Datetime.mk 2021 1 day hour minute 0 0 (Some Datetime.utc).

Definition at_ (day hour minute : Z) : tsval := TsDatetime (dt day hour minute).

(** [assets/a.parquet]: three rows over [-10, 40, -9, 41] on
    2021-01-01 between 00:00 and 01:00. *)
Definition a_points : list (float * float) :=
  [ (Finite (-10), Finite 40);
    (Finite (-19 # 2), Finite (81 # 2));
    (Finite (-9), Finite 41) ].

Definition a_firsts : list datetime := [dt 1 0 0; dt 1 0 20; dt 1 0 40].
Definition a_lasts : list datetime := [dt 1 0 20; dt 1 0 40; dt 1 1 0].

Definition a_rows : list row :=
  [ Row (pt (-10) 40) (at_ 1 0 0) (at_ 1 0 20);
    Row (pt (-19 # 2) (81 # 2)) (at_ 1 0 20) (at_ 1 0 40);
    Row (pt (-9) 41) (at_ 1 0 40) (at_ 1 1 0) ].

Definition a_parquet : file := ParquetFile a_rows 3.

(** [assets/b.parquet]: five rows over [-9, 41, -8, 42] on
    2021-01-02 between 00:00 and 01:00. *)
Definition b_rows : list row :=
  [ Row (pt (-8) 42) (at_ 2 0 45) (at_ 2 1 0);
    Row (pt (-9) 41) (at_ 2 0 0) (at_ 2 0 15);
    Row (pt (-17 # 2) (83 # 2)) (at_ 2 0 15) (at_ 2 0 30);
    Row (pt (-9) 42) (at_ 2 0 30) (at_ 2 0 45);
    Row (pt (-8) 41) (at_ 2 0 10) (at_ 2 0 50) ].

Definition b_parquet : file := ParquetFile b_rows 5.

(** The assets directory as a scan may list it. *)
Definition assets : list (Path * file) :=
  [ (["b.parquet"], b_parquet); (["a.parquet"], a_parquet) ].

Definition root : Path := ["catalog"].

(** A validation engine that accepts every record. *)
Definition valid_item (_ : Item) : option exn := None.
Definition valid_collection (_ : Collection) : option exn := None.
Definition no_traceback (_ : exn) : list string := [].

(** A process whose working directory is [/work], and a storage that
    accepts every write. *)
Definition make_absolute_href (href : string) : string :=
  if String.prefix "/" href then href else "/work/" +:+ href.

Definition stac_io (_ : nat) : option exn := None.

Definition run : io unit :=
  build_catalog valid_item valid_collection no_traceback
    make_absolute_href stac_io root "sar-owi" None None assets.

(** Two files of the same name in two daily directories. *)
Definition nested_assets : list (Path * file) :=
  [ (["2021-01-01"; "part-0.parquet"], a_parquet);
    (["2021-01-02"; "part-0.parquet"], b_parquet) ].

Definition nested_run : io unit :=
  build_catalog valid_item valid_collection no_traceback
    make_absolute_href stac_io root "sar-owi" None None nested_assets.

(** A directory whose second file has no row. *)
Definition broken_assets : list (Path * file) :=
  [ (["b.parquet"], ParquetFile [] 0); (["a.parquet"], a_parquet) ].

(** A directory without any Parquet file. *)
Definition other_assets : list (Path * file) :=
  [ (["README.txt"], Unreadable) ].

(** Rows with naive first timestamps and last timestamps at +02:00. *)
Definition local_firsts : list datetime :=
  [ Datetime.mk 2022 6 1 12 30 0 0 None; Datetime.mk 2022 6 1 12 0 0 0 None ].

Definition local_lasts : list datetime :=
  [ Datetime.mk 2022 6 1 14 45 0 0 (Some (2 * Datetime.US_PER_HOUR));
    Datetime.mk 2022 6 1 15 15 0 0 (Some (2 * Datetime.US_PER_HOUR)) ].

Definition local_rows : list row :=
  [ Row (pt (-9) 43) (TsDatetime (Datetime.mk 2022 6 1 12 30 0 0 None))
      (TsDatetime (Datetime.mk 2022 6 1 14 45 0 0
                     (Some (2 * Datetime.US_PER_HOUR))));
    Row (pt (-8) 44) (TsDatetime (Datetime.mk 2022 6 1 12 0 0 0 None))
      (TsDatetime (Datetime.mk 2022 6 1 15 15 0 0
                     (Some (2 * Datetime.US_PER_HOUR)))) ].

End Example.

(* ================================================================== *)
(** * Vocabulary of the statements *)
(* ================================================================== *)

Module Spec.

Import Float BuildSarCatalog.

Definition is_digit (c : ascii) : bool :=
  let n := nat_of_ascii c in (48 <=? n)%nat && (n <=? 57)%nat.

Fixpoint all_digits (s : string) : bool :=
  match s with
  | EmptyString => true
  | String c s' => is_digit c && all_digits s'
  end.

(** The text after the seconds of an RFC 3339 timestamp in UTC: an
    optional fraction of at least one digit, then the letter Z. *)
Definition fraction_then_Z (s : string) : bool :=
  match s with
  | String "Z" EmptyString => true
  | String "." frac =>
      match String.length frac with
      | S (S _) =>
          all_digits (substring 0 (String.length frac - 1) frac) &&
          String.eqb (substring (String.length frac - 1) 1 frac) "Z"
      | _ => false
      end
  | _ => false
  end.

(** The lexical shape [YYYY-MM-DDTHH:MM:SS[.f+]Z] of RFC 3339. *)
Definition rfc3339_z_shape (s : string) : bool :=
  match s with
  | String y1 (String y2 (String y3 (String y4 (String "-"
    (String m1 (String m2 (String "-" (String d1 (String d2 (String "T"
    (String h1 (String h2 (String ":" (String n1 (String n2 (String ":"
    (String s1 (String s2 rest)))))))))))))))))) =>
      forallb is_digit [y1; y2; y3; y4; m1; m2; d1; d2; h1; h2; n1; n2; s1; s2]
      && fraction_then_Z rest
  | _ => false
  end.

(** [m] is the least (resp. greatest) element of [l], for the order
    of float comparison. *)
Definition is_min (m : float) (l : list float) : Prop :=
  In m l /\ forall x, In x l -> Float.le m x.
Definition is_max (m : float) (l : list float) : Prop :=
  In m l /\ forall x, In x l -> Float.le x m.

(** Bounding boxes equal under float [==], bound by bound. *)
Definition bbox_eq (a b : BBox) : Prop :=
  Float.eq (minx a) (minx b) /\ Float.eq (miny a) (miny b) /\
  Float.eq (maxx a) (maxx b) /\ Float.eq (maxy a) (maxy b).

(** A point whose two coordinates are numbers. *)
Definition numeric_point (p : float * float) : Prop :=
  is_nan (fst p) = false /\ is_nan (snd p) = false.

Definition point_cell (p : float * float) : wkb_bytes :=
  Wkb (Point (fst p) (snd p)).

(** The seed of the bounding-box reduction. *)
Definition bbox_seed : BBox := mkBBox PosInf PosInf NegInf NegInf.

(** A timestamp column holds values of one kind: all naive or all
    offset-aware. *)
Definition aware (d : datetime) : bool :=
  match Datetime.tzinfo d with Some _ => true | None => false end.

Definition uniform (ds : list datetime) : Prop :=
  exists k, Forall (fun d => aware d = k) ds.

(** The position of a value in the order of its kind: the clock
    reading of a naive value, the instant of an aware one. *)
Definition ts_key (d : datetime) : Z :=
  match Datetime.tzinfo d with
  | None => Datetime.wall d
  | Some off => Datetime.instant d off
  end.

(** The instant of an aware value can be read on the UTC clock. *)
Definition utc_representable (d : datetime) : Prop :=
  match Datetime.tzinfo d with
  | None => True
  | Some off => Datetime.in_range (Datetime.instant d off) = true
  end.

(** [u] is [d] normalized to UTC: tagged as UTC with the same clock
    reading when [d] is naive, the same instant read on the UTC clock
    when [d] is aware. *)
Definition utc_normal_form (d u : datetime) : Prop :=
  Datetime.tzinfo u = Some Datetime.utc /\
  match Datetime.tzinfo d with
  | None => Datetime.wall u = Datetime.wall d
  | Some off => Datetime.instant u Datetime.utc = Datetime.instant d off
  end.

(** The components of a file summary. *)
Definition summary_bbox (s : BBox * tsval * tsval * Z) : BBox :=
  fst (fst (fst s)).
Definition summary_start (s : BBox * tsval * tsval * Z) : tsval :=
  snd (fst (fst s)).
Definition summary_end (s : BBox * tsval * tsval * Z) : tsval :=
  snd (fst s).
Definition summary_rows (s : BBox * tsval * tsval * Z) : Z := snd s.

(** A file is accepted when its item can be built and passes the
    validation that follows its construction. *)
Definition accepted (validate_item : Item -> option exn) (root : Path)
    (item_props : gmap string json) (pf : Path * file)
    (r : Item * (BBox * tsval * tsval * Z)) : Prop :=
  item_of_file root item_props pf = Ok r /\ validate_item (fst r) = None.

(** The bounds of a box are numbers or infinities. *)
Definition bbox_numeric (b : BBox) : Prop :=
  is_nan (minx b) = false /\ is_nan (miny b) = false /\
  is_nan (maxx b) = false /\ is_nan (maxy b) = false.

(** A timestamp cell holding a datetime tagged with UTC. *)
Definition utc_cell (t : tsval) : Prop :=
  exists d, t = TsDatetime d /\ Datetime.tzinfo d = Some Datetime.utc.

(** [t] is an earliest (resp. latest) cell of [l]. *)
Definition earliest (t : tsval) (l : list tsval) : Prop :=
  exists m, t = TsDatetime m /\ In t l /\
    forall d, In (TsDatetime d) l -> ts_key m <= ts_key d.
Definition latest (t : tsval) (l : list tsval) : Prop :=
  exists m, t = TsDatetime m /\ In t l /\
    forall d, In (TsDatetime d) l -> ts_key d <= ts_key m.

Definition sum_Z (l : list Z) : Z := fold_right Z.add 0 l.

(** The aggregates two runs of the loop are compared on. *)
Definition same_aggregates (a b : loop_state) : Prop :=
  match overall_bbox a, overall_bbox b with
  | Some ba, Some bb => bbox_eq ba bb
  | None, None => True
  | _, _ => False
  end /\
  py_min_list (start_times a) = py_min_list (start_times b) /\
  py_max_list (end_times a) = py_max_list (end_times b) /\
  total_rows a = total_rows b.

Definition path_lt (a b : Path * file) : Prop :=
  path_ltb (fst a) (fst b) = true.

(** The results of the files of a run when all are accepted. *)
Fixpoint accepted_results (validate_item : Item -> option exn) (root : Path)
    (item_props : gmap string json) (files : list (Path * file))
  : option (list (Item * (BBox * tsval * tsval * Z))) :=
  match files with
  | [] => Some []
  | pf :: rest =>
      match item_of_file root item_props pf with
      | Ok r =>
          match validate_item (fst r) with
          | None =>
              option_map (cons r)
                (accepted_results validate_item root item_props rest)
          | Some _ => None
          end
      | Raise _ => None
      end
  end.

(** The sleeps that follow the attempts [lo] .. [hi - 1] all return:
    each wait is a length that [time.sleep] accepts and the system
    call is neither refused nor interrupted. *)
Definition waits_return (store : ParquetStacUtils.backend)
    (backoff lo hi : Z) : Prop :=
  forall m, lo <= m < hi ->
    time_sleep (ParquetStacUtils.sleep_outcome store m)
      (backoff * 2 ^ (m - 1)) = Ok tt.

(** The attempts [lo] .. [hi - 1] all fail with a throttled
    [OSError]. *)
Definition throttled_through (store : ParquetStacUtils.backend)
    (lo hi : Z) : Prop :=
  forall m, lo <= m < hi ->
    exists e, ParquetStacUtils.write_to_dataset store m = Some e /\
              ParquetStacUtils.is_throttling e = true.

(** The trace of [n] attempts with a wait after each but the last. *)
Definition attempts_trace {Table FileSystem : Type} (table : Table)
    (kw : ParquetStacUtils.write_kwargs FileSystem) (backoff n : Z)
  : list (ParquetStacUtils.event Table FileSystem) :=
  flat_map (fun m => [ParquetStacUtils.EvWrite m table kw;
                      ParquetStacUtils.EvSleep (backoff * 2 ^ (m - 1))])
    (py_range 1 n)
  ++ [ParquetStacUtils.EvWrite n table kw].

(** A class whose instances can be built from a single message. *)
Definition takes_message (cls : pyclass) : bool :=
  match cls with
  | Custom _ (Some _) => false
  | _ => true
  end.

(** The first [n] calls of [write_text] of a run return. *)
Definition writes_return (stac_io : nat -> option exn) (n : nat) : Prop :=
  forall k, (k < n)%nat -> stac_io k = None.


End Spec.

(* ================================================================== *)
(** * Observations on runs *)
(* ================================================================== *)

Module Observations.

Import Float BuildSarCatalog Spec.

(** The attempt numbers of the calls made by the resilient writer. *)
Definition write_numbers {Table FileSystem : Type}
    (tr : list (ParquetStacUtils.event Table FileSystem)) : list Z :=
  flat_map (fun ev => match ev with
                      | ParquetStacUtils.EvWrite n _ _ => [n]
                      | ParquetStacUtils.EvSleep _ => []
                      end) tr.

(** The arguments of the calls made by the resilient writer. *)
Definition write_arguments {Table FileSystem : Type}
    (tr : list (ParquetStacUtils.event Table FileSystem))
  : list (Table * ParquetStacUtils.write_kwargs FileSystem) :=
  flat_map (fun ev => match ev with
                      | ParquetStacUtils.EvWrite _ t kw => [(t, kw)]
                      | ParquetStacUtils.EvSleep _ => []
                      end) tr.

(** The calls of [write_text] for a list of documents. *)
Definition write_events (docs : list (string * document))
  : list BuildSarCatalog.event :=
  List.map (fun hd => EvWriteText (fst hd) (snd hd)) docs.

(** The lines a run has printed. *)
Definition prints (tr : list BuildSarCatalog.event) : list string :=
  flat_map (fun ev => match ev with
                      | EvPrint line => [line]
                      | _ => []
                      end) tr.

(** Every row holds two datetimes of the kind [k], the first not
    after the last. *)
Definition ordered_row (k : bool) (r : row) : Prop :=
  exists f l,
    firstMeasurementTime r = TsDatetime f /\
    lastMeasurementTime r = TsDatetime l /\
    aware f = k /\ aware l = k /\ ts_key f <= ts_key l.

(** A box whose lower bounds do not exceed its upper bounds. *)
Definition bbox_ordered (b : BBox) : Prop :=
  Float.le (minx b) (maxx b) /\ Float.le (miny b) (maxy b).

(** The point lies within the box. *)
Definition in_bbox (b : BBox) (p : float * float) : Prop :=
  Float.le (minx b) (fst p) /\ Float.le (fst p) (maxx b) /\
  Float.le (miny b) (snd p) /\ Float.le (snd p) (maxy b).

Definition nan_point : wkb_bytes := Wkb (Point NaN NaN).

End Observations.

(* ================================================================== *)
(** * Properties *)
(* ================================================================== *)

Import Float BuildSarCatalog ParquetStacUtils Spec Observations.

(** ** Sanity checks of the calendar model *)

Example isoformat_example_1 :
  Datetime.isoformat (Datetime.mk 2021 1 2 1 0 0 0 (Some 0))
  = "2021-01-02T01:00:00+00:00".
Proof. vm_compute. reflexivity. Qed.

Example isoformat_example_2 :
  Datetime.isoformat (Datetime.mk 2024 2 29 23 59 58 120 (Some (-12600000000)))
  = "2024-02-29T23:59:58.000120-03:30".
Proof. vm_compute. reflexivity. Qed.

Example isoformat_example_3 :
  Datetime.isoformat (Datetime.mk 1 12 31 0 0 0 0 None) = "0001-12-31T00:00:00"
  /\ Datetime.isoformat (Datetime.mk 9999 12 31 23 59 59 999999 None) = "9999-12-31T23:59:59.999999"
  /\ Datetime.isoformat (Datetime.mk 2000 3 1 0 0 0 0 None) = "2000-03-01T00:00:00"
  /\ Datetime.isoformat (Datetime.mk 1900 2 28 0 0 0 0 None) = "1900-02-28T00:00:00"
  /\ Datetime.isoformat (Datetime.mk 2020 12 31 0 0 0 0 None) = "2020-12-31T00:00:00".
Proof. vm_compute. repeat split. Qed.

(** ** The resilient writer *)

Lemma py_range_cons (lo hi : Z) :
  lo < hi -> py_range lo hi = lo :: py_range (lo + 1) hi.
Proof.
  intros Hlt. unfold py_range.
  replace (Z.to_nat (hi - lo)) with (S (Z.to_nat (hi - (lo + 1)))) by lia.
  cbn [seq List.map]. f_equal; [lia |].
  rewrite <- seq_shift, List.map_map.
  apply List.map_ext. intros i. lia.
Qed.

Lemma py_range_nil (lo hi : Z) : hi <= lo -> py_range lo hi = [].
Proof.
  intros Hle. unfold py_range.
  replace (Z.to_nat (hi - lo)) with O by lia. reflexivity.
Qed.

(** A sleep returns exactly when its length lies between 0 and
    [SLEEP_MAX] and the system call goes through. *)
Lemma time_sleep_returns (os_outcome : option exn) (secs : Z) :
  time_sleep os_outcome secs = Ok tt <->
  0 <= secs <= SLEEP_MAX /\ os_outcome = None.
Proof.
  unfold time_sleep.
  assert (Hmax : 0 <= SLEEP_MAX) by (unfold SLEEP_MAX; lia).
  destruct (Z.ltb_spec secs (- SLEEP_MAX));
    destruct (Z.ltb_spec SLEEP_MAX secs); cbn [orb];
    try (split; [discriminate | intros [? _]; lia]).
  destruct (Z.ltb_spec secs 0).
  - split; [discriminate | intros [? _]; lia].
  - destruct os_outcome as [e |].
    + split; [discriminate | intros [_ ?]; discriminate].
    + split; [intros _; split; [lia | reflexivity] | reflexivity].
Qed.

Lemma time_sleep_accepts (secs : Z) :
  0 <= secs <= SLEEP_MAX -> time_sleep None secs = Ok tt.
Proof. intros H. apply time_sleep_returns. split; [exact H | reflexivity]. Qed.

Section WriterFacts.

Context {Table FileSystem : Type}.
Variables (store : backend) (table : Table) (kw : write_kwargs FileSystem).
Variables (retries backoff : Z).

Local Abbreviation run := (run_from store table kw retries backoff).

(** Entering attempt [n] within the budget unfolds one iteration. *)
Lemma run_from_unfold (n : Z) :
  n <= retries ->
  run n = retry_loop store table kw retries backoff
            (n :: py_range (n + 1) (retries + 1)).
Proof.
  intros Hn. unfold run_from. rewrite py_range_cons by lia. reflexivity.
Qed.

Lemma run_success (n : Z) :
  n <= retries -> write_to_dataset store n = None ->
  run n = ([EvWrite n table kw], Ok tt).
Proof.
  intros Hn Hs. rewrite run_from_unfold by assumption.
  cbn [retry_loop]. rewrite Hs. reflexivity.
Qed.

Lemma run_throttled (n : Z) (e : exn) :
  1 <= n < retries ->
  time_sleep (sleep_outcome store n) (backoff * 2 ^ (n - 1)) = Ok tt ->
  write_to_dataset store n = Some e -> is_throttling e = true ->
  run n = (EvWrite n table kw :: EvSleep (backoff * 2 ^ (n - 1))
             :: fst (run (n + 1)),
           snd (run (n + 1))).
Proof.
  intros Hn Hw Hs Ht. rewrite run_from_unfold by lia.
  cbn [retry_loop]. rewrite Hs.
  unfold is_throttling in Ht. apply andb_true_iff in Ht as [Hos Hmsg].
  rewrite Hos, Hmsg. cbn [andb].
  destruct (Z.ltb_spec n retries); [| lia].
  rewrite Hw.
  fold (run (n + 1)). destruct (run (n + 1)); reflexivity.
Qed.

(** A throttled attempt whose sleep raises ends the call with the
    exception of the sleep. *)
Lemma run_sleep_raises (n : Z) (e e' : exn) :
  1 <= n < retries ->
  time_sleep (sleep_outcome store n) (backoff * 2 ^ (n - 1)) = Raise e' ->
  write_to_dataset store n = Some e -> is_throttling e = true ->
  run n = ([EvWrite n table kw], Raise e').
Proof.
  intros Hn Hw Hs Ht. rewrite run_from_unfold by lia.
  cbn [retry_loop]. rewrite Hs.
  unfold is_throttling in Ht. apply andb_true_iff in Ht as [Hos Hmsg].
  rewrite Hos, Hmsg. cbn [andb].
  destruct (Z.ltb_spec n retries); [| lia].
  rewrite Hw. reflexivity.
Qed.

Lemma run_not_throttling (n : Z) (e : exn) :
  n <= retries -> write_to_dataset store n = Some e ->
  is_throttling e = false ->
  run n = ([EvWrite n table kw], Raise e).
Proof.
  intros Hn Hs Ht. rewrite run_from_unfold by assumption.
  cbn [retry_loop]. rewrite Hs.
  unfold is_throttling in Ht.
  destruct (is_OSError (exn_class e)); [| reflexivity].
  cbn [andb] in Ht. rewrite Ht. reflexivity.
Qed.

Lemma run_last_attempt (e : exn) :
  write_to_dataset store retries = Some e ->
  run retries = ([EvWrite retries table kw], Raise e).
Proof.
  intros Hs. rewrite run_from_unfold by lia.
  cbn [retry_loop]. rewrite Hs, Z.ltb_irrefl, andb_false_r.
  destruct (is_OSError (exn_class e)); reflexivity.
Qed.

Lemma run_not_OSError (n : Z) (e : exn) :
  n <= retries -> write_to_dataset store n = Some e ->
  is_OSError (exn_class e) = false ->
  run n = ([EvWrite n table kw], Raise e).
Proof.
  intros Hn Hs Hc. apply run_not_throttling; try assumption.
  unfold is_throttling. rewrite Hc. reflexivity.
Qed.



(** While the attempts are throttled and the sleeps return, the loop
    goes from attempt [s] to attempt [n], a wait after each attempt. *)
Lemma run_reaches (j : nat) (s n : Z) :
  1 <= s -> n = s + Z.of_nat j -> n <= retries ->
  throttled_through store s n -> waits_return store backoff s n ->
  run s =
    (flat_map (fun m => [EvWrite m table kw; EvSleep (backoff * 2 ^ (m - 1))])
       (py_range s n) ++ fst (run n),
     snd (run n)).
Proof.
  revert s. induction j as [| j IH]; intros s Hs Hn Hle Hall Hw.
  - assert (s = n) as -> by lia. rewrite py_range_nil by lia.
    cbn [flat_map app]. destruct (run n); reflexivity.
  - destruct (Hall s ltac:(lia)) as (e & Hst & Ht).
    rewrite (run_throttled s e ltac:(lia) (Hw s ltac:(lia)) Hst Ht).
    rewrite (IH (s + 1));
      [| lia | lia | lia | intros m Hm; apply Hall; lia
       | intros m Hm; apply Hw; lia].
    cbn [fst snd]. rewrite (py_range_cons s n) by lia. reflexivity.
Qed.

(** The attempt that settles the call: every earlier attempt was
    throttled and followed by its wait, and this one succeeds, fails
    otherwise, or is the last. *)
Lemma run_until_decisive (n : Z) :
  1 <= n <= retries ->
  throttled_through store 1 n -> waits_return store backoff 1 n ->
  match write_to_dataset store n with
  | None => True
  | Some e => is_throttling e = false \/ n = retries
  end ->
  run 1 =
    (attempts_trace table kw backoff n,
     match write_to_dataset store n with None => Ok tt | Some e => Raise e end).
Proof.
  intros Hn Hall Hw Hdec.
  rewrite (run_reaches (Z.to_nat (n - 1)) 1 n) by (assumption || lia).
  unfold attempts_trace.
  destruct (write_to_dataset store n) as [e |] eqn:Hst.
  - destruct Hdec as [Hnt | ->].
    + rewrite (run_not_throttling n e) by (assumption || lia). reflexivity.
    + rewrite (run_last_attempt e Hst). reflexivity.
  - rewrite (run_success n) by (assumption || lia). reflexivity.
Qed.


(** An attempt within the budget always starts with a call. *)
Lemma run_first_event (n : Z) :
  n <= retries -> exists tr, fst (run n) = EvWrite n table kw :: tr.
Proof.
  intros Hn. rewrite run_from_unfold by assumption. cbn [retry_loop].
  destruct (write_to_dataset store n) as [e |]; [| eexists; reflexivity].
  destruct (is_OSError (exn_class e)); [| eexists; reflexivity].
  destruct (contains "SLOW_DOWN" (exn_msg e) && (n <? retries));
    [| eexists; reflexivity].
  destruct (time_sleep _ _); [| eexists; reflexivity].
  destruct (retry_loop _ _ _ _ _ _). eexists; reflexivity.
Qed.

End WriterFacts.

(** A backend that throttles the first two calls and then accepts, and
    whose sleeps are never cut short. *)
Definition throttled_twice : backend :=
  Backend
    (fun n => if n <=? 2
              then Some (Exn OSError "AWS Error SLOW_DOWN during PutObject" None)
              else None)
    (fun _ => None).

(** The waits of a few attempts with a backoff of some seconds. *)
Lemma short_waits_return (write : Z -> option exn) (backoff hi : Z) :
  0 <= backoff <= 1000 -> hi <= 11 ->
  waits_return (Backend write (fun _ => None)) backoff 1 hi.
Proof.
  intros Hb Hhi m Hm. cbn [sleep_outcome]. apply time_sleep_accepts.
  unfold SLEEP_MAX.
  assert (H2 : 0 < 2 ^ (m - 1) <= 2 ^ 9).
  { split; [apply Z.pow_pos_nonneg; lia | apply Z.pow_le_mono_r; lia]. }
  change (2 ^ 9) with 512 in H2. nia.
Qed.




(** C10, as the code has it.  Take a call in which attempts 1 .. n-1
    were throttled, so that attempt [n] is made, and in which the
    sleeps asked for up to attempt [n] return.  When attempt [n]
    raises [e], the function sleeps and makes attempt [n+1] exactly
    when [e] is an [OSError] whose message contains [SLOW_DOWN] and
    [n < retries]; in every other case, and in particular for any
    exception that is not an [OSError] whatever its message, the call
    ends with attempt [n] and raises [e] unchanged, with no further
    sleep. *)
Theorem retry_only_on_throttled_OSError
    {Table FileSystem : Type} (store : backend) (table : Table)
    (root_path : string) (partition_cols : list string)
    (filesystem : FileSystem) (retries backoff n : Z)
    (basename_template : option string) (e : exn) :
  1 <= n <= retries ->
  throttled_through store 1 n ->
  waits_return store backoff 1 (Z.min (n + 1) retries) ->
  write_to_dataset store n = Some e ->
  let kw := build_kwargs root_path partition_cols filesystem basename_template in
  let call :=
    write_dataset_with_retry store table root_path partition_cols filesystem
      (Some retries) (Some backoff) basename_template in
  let retried :=
    exists tr, fst call =
      attempts_trace table kw backoff n
        ++ EvSleep (backoff * 2 ^ (n - 1)) :: EvWrite (n + 1) table kw :: tr in
  let eligible :=
    is_OSError (exn_class e) = true /\
    contains "SLOW_DOWN" (exn_msg e) = true /\ n < retries in
  (retried <-> eligible) /\
  (~ eligible -> call = (attempts_trace table kw backoff n, Raise e)) /\
  (is_OSError (exn_class e) = false ->
   call = (attempts_trace table kw backoff n, Raise e)).
Proof.
  intros Hn Hall Hw Hs kw call. cbv zeta.
  set (eligible := is_OSError (exn_class e) = true /\
                   contains "SLOW_DOWN" (exn_msg e) = true /\ n < retries).
  assert (Hcall : call = run_from store table kw retries backoff 1)
    by reflexivity.
  assert (Hwn : waits_return store backoff 1 n)
    by (intros m Hm; apply Hw; lia).
  assert (Hreach :
    call = (flat_map (fun m => [EvWrite m table kw;
                                EvSleep (backoff * 2 ^ (m - 1))])
              (py_range 1 n)
            ++ fst (run_from store table kw retries backoff n),
            snd (run_from store table kw retries backoff n))).
  { rewrite Hcall.
    apply (run_reaches store table kw retries backoff (Z.to_nat (n - 1)));
      (assumption || lia). }
  assert (Hdec : eligible \/ ~ eligible).
  { subst eligible.
    destruct (is_OSError (exn_class e));
      destruct (contains "SLOW_DOWN" (exn_msg e));
      destruct (Z.lt_ge_cases n retries);
      first [left; repeat split; assumption
            | right; intros (H1 & H2 & H3); (discriminate || lia)]. }
  assert (Hno : ~ eligible ->
            call = (attempts_trace table kw backoff n, Raise e)).
  { intros Hne. rewrite Hreach. unfold attempts_trace.
    destruct (Z.eq_dec n retries) as [Heq | Hlt].
    - subst n.
      rewrite (run_last_attempt store table kw retries backoff e Hs).
      reflexivity.
    - rewrite (run_not_throttling store table kw retries backoff n e);
        [reflexivity | lia | assumption |].
      unfold is_throttling.
      destruct (is_OSError (exn_class e)) eqn:Hos; [| reflexivity].
      destruct (contains "SLOW_DOWN" (exn_msg e)) eqn:Hc; [| reflexivity].
      exfalso. apply Hne. subst eligible. repeat split; lia. }
  assert (Hyes : eligible ->
            exists tr, fst call =
              attempts_trace table kw backoff n
                ++ EvSleep (backoff * 2 ^ (n - 1))
                     :: EvWrite (n + 1) table kw :: tr).
  { intros (Hos & Hc & Hlt). rewrite Hreach. cbn [fst].
    rewrite (run_throttled store table kw retries backoff n e);
      [| lia | apply Hw; lia | assumption
       | unfold is_throttling; rewrite Hos, Hc; reflexivity].
    destruct (run_first_event store table kw retries backoff (n + 1))
      as [tr Htr]; [lia |].
    exists tr. cbn [fst]. rewrite Htr. unfold attempts_trace.
    rewrite <- app_assoc. reflexivity. }
  split; [split; [| exact Hyes] |].
  - intros [tr Htr].
    destruct Hdec as [Hy | Hn']; [exact Hy |].
    rewrite (Hno Hn') in Htr. cbn [fst] in Htr.
    rewrite <- (app_nil_r (attempts_trace table kw backoff n)) in Htr at 1.
    apply app_inv_head in Htr. discriminate.
  - split; [exact Hno |].
    intros Hos. apply Hno. subst eligible. rewrite Hos.
    intros (Hf & _). discriminate.
Qed.

Lemma retry_only_on_throttled_OSError_witness :
  let store : backend :=
    Backend
      (fun _ => Some (Exn RuntimeError "SLOW_DOWN: please reduce request rate" None))
      (fun _ => None) in
  (1 <= 1 <= 5 /\ throttled_through store 1 1 /\
   waits_return store 5 1 (Z.min (1 + 1) 5)) /\
  contains "SLOW_DOWN" "SLOW_DOWN: please reduce request rate" = true /\
  write_dataset_with_retry store tt "bucket/prefix" ["date"] tt
    (Some 5) (Some 5) None
  = ([EvWrite 1 tt (WriteKwargs "bucket/prefix" ["date"] tt None)],
     Raise (Exn RuntimeError "SLOW_DOWN: please reduce request rate" None)).
Proof.
  intros store.
  assert (H15 : 1 <= 1 <= 5) by lia.
  assert (Hall : throttled_through store 1 1) by (intros m Hm; lia).
  assert (Hw : waits_return store 5 1 (Z.min (1 + 1) 5))
    by (apply short_waits_return; lia).
  split; [split; [exact H15 | split; [exact Hall | exact Hw]] |].
  split; [reflexivity |].
  destruct (retry_only_on_throttled_OSError store tt "bucket/prefix" ["date"]
              tt 5 5 1 None
              (Exn RuntimeError "SLOW_DOWN: please reduce request rate" None)
              H15 Hall Hw eq_refl)
    as (_ & _ & Hprop).
  apply Hprop. reflexivity.
Defined.

(** C10, as stated, fails: an [OSError] that carries the throttling
    mark, raised on the first of five attempts, is not retried when
    the wait is not a length that [time.sleep] accepts.  With a
    backoff of 10^10 seconds the sleep raises [OverflowError], and the
    call ends after one attempt with that error. *)
Lemma throttled_OSError_not_retried_on_overflow :
  let e := Exn OSError "AWS Error SLOW_DOWN during PutObject" None in
  let call :=
    write_dataset_with_retry throttled_twice tt "bucket/prefix" ["date"] tt
      (Some 5) (Some (10 ^ 10)) None in
  write_to_dataset throttled_twice 1 = Some e /\
  is_OSError (exn_class e) = true /\
  contains "SLOW_DOWN" (exn_msg e) = true /\ 1 < 5 /\
  call = ([EvWrite 1 tt (WriteKwargs "bucket/prefix" ["date"] tt None)],
          Raise (Exn OverflowError
                   "timestamp too large to convert to C _PyTime_t" None)) /\
  attempts_made (fst call) = 1%nat.
Proof.
  cbv zeta. repeat split; try reflexivity; try lia; vm_compute; reflexivity.
Qed.

(** ** Strings *)

Lemma string_app_cons (c : ascii) (a b : string) :
  String c a +:+ b = String c (a +:+ b).
Proof. reflexivity. Qed.

Lemma string_app_nil (b : string) : "" +:+ b = b.
Proof. reflexivity. Qed.

Lemma string_length_app (a b : string) :
  String.length (a +:+ b) = (String.length a + String.length b)%nat.
Proof. induction a as [| c a IH]; simpl; [reflexivity | f_equal; exact IH]. Qed.

Lemma substring_0_app (a b : string) :
  substring 0 (String.length a) (a +:+ b) = a.
Proof.
  induction a as [| c a IH]; simpl.
  - destruct b; reflexivity.
  - f_equal. exact IH.
Qed.

Lemma substring_full (b : string) : substring 0 (String.length b) b = b.
Proof. induction b as [| c b IH]; simpl; [reflexivity | f_equal; exact IH]. Qed.

Lemma substring_skip_app (a b : string) (m : nat) :
  substring (String.length a) m (a +:+ b) = substring 0 m b.
Proof. induction a as [| c a IH]; simpl; [reflexivity | exact IH]. Qed.

Lemma endswith_app (a suffix : string) : endswith (a +:+ suffix) suffix = true.
Proof.
  unfold endswith. rewrite string_length_app.
  replace (String.length a + String.length suffix - String.length suffix)%nat
    with (String.length a) by lia.
  rewrite substring_skip_app, substring_full, String.eqb_refl.
  rewrite andb_true_r. apply Nat.leb_le. lia.
Qed.

Lemma drop_last_app (a suffix : string) :
  drop_last (String.length suffix) (a +:+ suffix) = a.
Proof.
  unfold drop_last. rewrite string_length_app.
  replace (String.length a + String.length suffix - String.length suffix)%nat
    with (String.length a) by lia.
  apply substring_0_app.
Qed.

(** A string splits at any position into the two substrings. *)
Lemma substring_split (s : string) (k : nat) :
  (k <= String.length s)%nat ->
  s = substring 0 k s +:+ substring k (String.length s - k) s.
Proof.
  revert k. induction s as [| c s IH]; intros k Hk.
  - destruct k; reflexivity.
  - destruct k as [| k]; simpl.
    + rewrite substring_full. reflexivity.
    + rewrite string_app_cons. f_equal. apply IH. simpl in Hk. lia.
Qed.

Lemma endswith_inv (s suffix : string) :
  endswith s suffix = true -> exists a, s = a +:+ suffix.
Proof.
  unfold endswith. intros H. apply andb_true_iff in H as [Hlen Heq].
  apply Nat.leb_le in Hlen. apply String.eqb_eq in Heq.
  set (k := (String.length s - String.length suffix)%nat) in *.
  exists (substring 0 k s).
  assert (Hsplit := substring_split s k ltac:(lia)).
  replace (String.length s - k)%nat with (String.length suffix) in Hsplit
    by lia.
  rewrite Heq in Hsplit. exact Hsplit.
Qed.

(** The last character, used to tell suffixes apart. *)
Lemma last_char_app_inj (a b : string) (c d : ascii) :
  a +:+ String c "" = b +:+ String d "" -> c = d.
Proof.
  revert b. induction a as [| x a IH]; intros [| y b] H;
    rewrite ?string_app_nil, ?string_app_cons in H.
  - congruence.
  - injection H as _ H.
    destruct b; rewrite ?string_app_nil, ?string_app_cons in H; discriminate.
  - injection H as _ H.
    destruct a; rewrite ?string_app_nil, ?string_app_cons in H; discriminate.
  - injection H as _ H. eauto.
Qed.

Lemma string_app_assoc (a b c : string) : (a +:+ b) +:+ c = a +:+ (b +:+ c).
Proof.
  induction a as [| x a IH]; [reflexivity |].
  rewrite !string_app_cons. f_equal. exact IH.
Qed.

Lemma endswith_Z_not_offset (a : string) :
  endswith (a +:+ "Z") "+00:00" = false.
Proof.
  destruct (endswith (a +:+ "Z") "+00:00") eqn:E; [| reflexivity].
  apply endswith_inv in E as [b Hb].
  change "+00:00" with ("+00:0" +:+ "0") in Hb.
  rewrite <- string_app_assoc in Hb.
  apply last_char_app_inj in Hb. discriminate.
Qed.

(** ** RFC 3339 serialization *)

Lemma digit_is_digit (n : Z) : is_digit (Datetime.digit n) = true.
Proof.
  unfold Datetime.digit.
  assert (H : (Z.to_nat (n mod 10) < 10)%nat).
  { pose proof (Z.mod_pos_bound n 10 ltac:(lia)). lia. }
  revert H. generalize (Z.to_nat (n mod 10)). intros k Hk.
  do 10 (destruct k as [| k]; [vm_compute; reflexivity |]).
  lia.
Qed.

Lemma rfc3339_z_shape_clock (w : Z) :
  rfc3339_z_shape (Datetime.isoformat_clock w +:+ "Z") = true.
Proof.
  unfold Datetime.isoformat_clock.
  destruct (Datetime.ord2ymd _) as [[y m] d].
  cbv zeta.
  generalize (w mod Datetime.US_PER_DAY). intros r.
  generalize (r / Datetime.US_PER_HOUR)
             (r mod Datetime.US_PER_HOUR / Datetime.US_PER_MINUTE)
             (r mod Datetime.US_PER_MINUTE / Datetime.US_PER_SECOND)
             (r mod Datetime.US_PER_SECOND).
  intros hh mm ss us.
  destruct (us =? 0);
    unfold Datetime.pad6, Datetime.pad4, Datetime.pad2;
    repeat match goal with
           | |- context [Datetime.digit ?x] =>
               let H := fresh "Hd" in
               pose proof (digit_is_digit x) as H;
               generalize dependent (Datetime.digit x); intros
           end;
    rewrite ?string_app_cons, ?string_app_nil;
    unfold rfc3339_z_shape, fraction_then_Z; simpl;
    repeat match goal with H : is_digit _ = true |- _ => rewrite H; clear H end;
    reflexivity.
Qed.

Lemma to_utc_tzinfo (d u : datetime) :
  to_utc d = Ok u -> Datetime.tzinfo u = Some Datetime.utc.
Proof.
  unfold to_utc, Datetime.astimezone_utc, Datetime.replace_tzinfo_utc.
  destruct (Datetime.tzinfo d) as [off |].
  - destruct (Datetime.in_range _); [| discriminate].
    intros [= <-]. reflexivity.
  - intros [= <-]. reflexivity.
Qed.

Lemma isoformat_utc (u : datetime) :
  Datetime.tzinfo u = Some Datetime.utc ->
  Datetime.isoformat u = Datetime.isoformat_clock (Datetime.wall u) +:+ "+00:00".
Proof. unfold Datetime.isoformat. intros ->. reflexivity. Qed.

Lemma to_rfc3339_z_datetime (d u : datetime) :
  to_utc d = Ok u ->
  _to_rfc3339_z (TsDatetime d)
  = Ok (Datetime.isoformat_clock (Datetime.wall u) +:+ "Z").
Proof.
  intros Hu. unfold _to_rfc3339_z. rewrite Hu. cbn [bind].
  rewrite (isoformat_utc u (to_utc_tzinfo d u Hu)).
  rewrite endswith_app.
  change 6%nat with (String.length "+00:00").
  rewrite drop_last_app. reflexivity.
Qed.

Lemma to_rfc3339_z_inv (t : tsval) (s : string) :
  _to_rfc3339_z t = Ok s ->
  exists d u, t = TsDatetime d /\ to_utc d = Ok u /\
              s = Datetime.isoformat_clock (Datetime.wall u) +:+ "Z".
Proof.
  destruct t as [| d]; [discriminate |].
  intros H. destruct (to_utc d) as [u |] eqn:Hu.
  - rewrite (to_rfc3339_z_datetime d u Hu) in H. injection H as <-.
    exists d, u. repeat split. exact Hu.
  - unfold _to_rfc3339_z in H. rewrite Hu in H. discriminate.
Qed.

Lemma item_of_file_inv (root : Path) (item_props : gmap string json)
    (rel : Path) (f : file) (item : Item) (summary : BBox * tsval * tsval * Z) :
  item_of_file root item_props (rel, f) = Ok (item, summary) ->
  exists start_s end_s,
    _bbox_and_times (path_str (root ++ "assets" :: rel)) f = Ok summary /\
    _to_rfc3339_z (summary_start summary) = Ok start_s /\
    _to_rfc3339_z (summary_end summary) = Ok end_s /\
    item = mkItem (stem rel) (box (summary_bbox summary))
             (summary_bbox summary) (summary_start summary)
             (<["table:row_count" := JInt (summary_rows summary)]>
                (<["table:primary_geometry" := JStr "geometry"]>
                   (<["table:columns" :=
                        JList (List.map column_json COLUMN_DEFS)]>
                      (<["end_datetime" := JStr end_s]>
                         (<["start_datetime" := JStr start_s]> item_props)))))
             {[ "data" := mkAsset (path_str ("assets" :: rel))
                            "application/x-parquet" ["data"] ]}
             COLUMN_DEFS "geometry" (summary_rows summary) None None.
Proof.
  unfold item_of_file. intros H.
  destruct (_bbox_and_times _ f) as [[[[bb st] en] rc] |]; [| discriminate].
  cbn [bind] in H.
  destruct (_to_rfc3339_z st) as [ss |] eqn:Hs; [| discriminate].
  cbn [bind] in H.
  destruct (_to_rfc3339_z en) as [es |] eqn:He; [| discriminate].
  cbn [bind] in H. injection H as <- <-.
  exists ss, es. repeat split; assumption.
Qed.

(** ** The order on floats *)

Lemma Qle_bool_false (p q : Q) : Qle_bool p q = false <-> (q < p)%Q.
Proof.
  split; intros H.
  - apply Qnot_le_lt. intros Hle. apply Qle_bool_iff in Hle. congruence.
  - destruct (Qle_bool p q) eqn:E; [| reflexivity].
    apply Qle_bool_iff in E. lra.
Qed.

Lemma float_ltb_Finite (p q : Q) :
  Float.ltb (Finite p) (Finite q) = true <-> (p < q)%Q.
Proof.
  simpl. rewrite negb_true_iff. apply Qle_bool_false.
Qed.

Lemma float_eqb_Finite (p q : Q) :
  Float.eqb (Finite p) (Finite q) = true <-> (p == q)%Q.
Proof. simpl. apply Qeq_bool_iff. Qed.

Lemma float_ltb_not_nan (a b : float) :
  Float.ltb a b = true -> is_nan a = false /\ is_nan b = false.
Proof. destruct a, b; simpl; intros H; try discriminate; split; reflexivity. Qed.

Lemma float_le_refl (a : float) : is_nan a = false -> Float.le a a.
Proof.
  destruct a; intros H; try discriminate; right; simpl; try reflexivity.
  apply Qeq_bool_iff. reflexivity.
Qed.

Lemma float_total (a b : float) :
  is_nan a = false -> is_nan b = false ->
  Float.ltb b a = false -> Float.le a b.
Proof.
  intros Ha Hb Hlt. destruct a, b; try discriminate;
    try (left; reflexivity); try (right; reflexivity).
  unfold Float.le. rewrite float_ltb_Finite, float_eqb_Finite.
  simpl in Hlt. rewrite negb_false_iff in Hlt. apply Qle_bool_iff in Hlt.
  destruct (Qlt_le_dec q q0); [left; assumption | right; lra].
Qed.

Lemma float_le_trans (a b c : float) :
  Float.le a b -> Float.le b c -> Float.le a c.
Proof.
  intros Hab Hbc.
  destruct a, b, c; unfold Float.le in *;
    destruct Hab as [Hab | Hab]; destruct Hbc as [Hbc | Hbc];
    try discriminate; try (left; reflexivity); try (right; reflexivity);
    rewrite ?float_ltb_Finite, ?float_eqb_Finite in *;
    solve [left; lra | right; lra].
Qed.

Lemma float_le_antisym (a b : float) :
  Float.le a b -> Float.le b a -> Float.eq a b.
Proof.
  intros Hab Hba.
  destruct a, b; unfold Float.le, Float.eq in *;
    destruct Hab as [Hab | Hab]; destruct Hba as [Hba | Hba];
    try discriminate; try reflexivity;
    rewrite ?float_ltb_Finite, ?float_eqb_Finite in *; lra.
Qed.

Lemma float_le_not_nan (a b : float) :
  Float.le a b -> is_nan a = false /\ is_nan b = false.
Proof.
  intros [H | H]; [apply float_ltb_not_nan; assumption |].
  destruct a, b; try discriminate; split; reflexivity.
Qed.

(** The running minimum never becomes a NaN, stays among the values
    seen, and is below each of them. *)
Lemma py_min_not_nan (a b : float) :
  is_nan a = false -> is_nan (py_min a b) = false.
Proof.
  intros Ha. unfold py_min. destruct (Float.ltb b a) eqn:E; [| exact Ha].
  apply float_ltb_not_nan in E. tauto.
Qed.

Lemma py_max_not_nan (a b : float) :
  is_nan a = false -> is_nan (py_max a b) = false.
Proof.
  intros Ha. unfold py_max. destruct (Float.ltb a b) eqn:E; [| exact Ha].
  apply float_ltb_not_nan in E. tauto.
Qed.

Lemma fold_py_min_spec (xs : list float) (a : float) :
  is_nan a = false -> Forall (fun x => is_nan x = false) xs ->
  let m := fold_left py_min xs a in
  In m (a :: xs) /\ forall x, In x (a :: xs) -> Float.le m x.
Proof.
  revert a. induction xs as [| y xs IH]; intros a Ha Hxs; cbv zeta.
  - simpl. split; [left; reflexivity |].
    intros x [<- | []]. apply float_le_refl. assumption.
  - inversion Hxs as [| ? ? Hy Hxs']; subst.
    cbn [fold_left].
    destruct (IH (py_min a y) (py_min_not_nan a y Ha) Hxs') as [Hin Hle].
    assert (Hmin_a : Float.le (py_min a y) a).
    { unfold py_min. destruct (Float.ltb y a) eqn:E.
      - left. exact E.
      - apply float_le_refl. assumption. }
    assert (Hmin_y : Float.le (py_min a y) y).
    { unfold py_min. destruct (Float.ltb y a) eqn:E.
      - apply float_le_refl. assumption.
      - apply float_total; assumption. }
    split.
    + destruct Hin as [Hin | Hin].
      * rewrite <- Hin. unfold py_min.
        destruct (Float.ltb y a); [right; left | left]; reflexivity.
      * right. right. exact Hin.
    + intros x [<- | [<- | Hx]].
      * eapply float_le_trans; [apply Hle; left; reflexivity | exact Hmin_a].
      * eapply float_le_trans; [apply Hle; left; reflexivity | exact Hmin_y].
      * apply Hle. right. exact Hx.
Qed.

Lemma fold_py_max_spec (xs : list float) (a : float) :
  is_nan a = false -> Forall (fun x => is_nan x = false) xs ->
  let m := fold_left py_max xs a in
  In m (a :: xs) /\ forall x, In x (a :: xs) -> Float.le x m.
Proof.
  revert a. induction xs as [| y xs IH]; intros a Ha Hxs; cbv zeta.
  - simpl. split; [left; reflexivity |].
    intros x [<- | []]. apply float_le_refl. assumption.
  - inversion Hxs as [| ? ? Hy Hxs']; subst.
    cbn [fold_left].
    destruct (IH (py_max a y) (py_max_not_nan a y Ha) Hxs') as [Hin Hle].
    assert (Hmax_a : Float.le a (py_max a y)).
    { unfold py_max. destruct (Float.ltb a y) eqn:E.
      - left. exact E.
      - apply float_le_refl. assumption. }
    assert (Hmax_y : Float.le y (py_max a y)).
    { unfold py_max. destruct (Float.ltb a y) eqn:E.
      - apply float_le_refl. assumption.
      - apply float_total; assumption. }
    split.
    + destruct Hin as [Hin | Hin].
      * rewrite <- Hin. unfold py_max.
        destruct (Float.ltb a y); [right; left | left]; reflexivity.
      * right. right. exact Hin.
    + intros x [<- | [<- | Hx]].
      * eapply float_le_trans; [exact Hmax_a | apply Hle; left; reflexivity].
      * eapply float_le_trans; [exact Hmax_y | apply Hle; left; reflexivity].
      * apply Hle. right. exact Hx.
Qed.

(** ** The bounding box of a file *)

Lemma le_PosInf_inv (x : float) : Float.le PosInf x -> x = PosInf.
Proof. intros [H | H]; destruct x; simpl in H; congruence. Qed.

Lemma le_NegInf_inv (x : float) : Float.le x NegInf -> x = NegInf.
Proof. intros [H | H]; destruct x; simpl in H; congruence. Qed.

Lemma min_from_seed (xs : list float) :
  xs <> [] -> Forall (fun x => is_nan x = false) xs ->
  is_min (fold_left py_min xs PosInf) xs.
Proof.
  intros Hne Hxs.
  destruct (fold_py_min_spec xs PosInf eq_refl Hxs) as [Hin Hle].
  split.
  - destruct Hin as [Hin | Hin]; [| exact Hin].
    destruct xs as [| x0 xs']; [congruence |].
    assert (Hx0 : x0 = PosInf).
    { apply le_PosInf_inv. rewrite Hin. apply Hle. right. left. reflexivity. }
    rewrite <- Hin. left. exact Hx0.
  - intros x Hx. apply Hle. right. exact Hx.
Qed.

Lemma max_from_seed (xs : list float) :
  xs <> [] -> Forall (fun x => is_nan x = false) xs ->
  is_max (fold_left py_max xs NegInf) xs.
Proof.
  intros Hne Hxs.
  destruct (fold_py_max_spec xs NegInf eq_refl Hxs) as [Hin Hle].
  split.
  - destruct Hin as [Hin | Hin]; [| exact Hin].
    destruct xs as [| x0 xs']; [congruence |].
    assert (Hx0 : x0 = NegInf).
    { apply le_NegInf_inv. rewrite Hin. apply Hle. right. left. reflexivity. }
    rewrite <- Hin. left. exact Hx0.
  - intros x Hx. apply Hle. right. exact Hx.
Qed.

(** Two least elements of the same values are equal as floats. *)
Lemma is_min_unique (m m' : float) (l l' : list float) :
  Permutation l l' -> is_min m l -> is_min m' l' -> Float.eq m m'.
Proof.
  intros Hp [Hin Hle] [Hin' Hle'].
  apply float_le_antisym.
  - apply Hle. eapply Permutation_in; [symmetry; exact Hp | exact Hin'].
  - apply Hle'. eapply Permutation_in; [exact Hp | exact Hin].
Qed.

Lemma is_max_unique (m m' : float) (l l' : list float) :
  Permutation l l' -> is_max m l -> is_max m' l' -> Float.eq m m'.
Proof.
  intros Hp [Hin Hle] [Hin' Hle'].
  apply float_le_antisym.
  - apply Hle'. eapply Permutation_in; [exact Hp | exact Hin].
  - apply Hle. eapply Permutation_in; [symmetry; exact Hp | exact Hin'].
Qed.

(** On well-formed point cells the loop is four independent folds. *)
Lemma bbox_loop_points (pts : list (float * float)) (acc : BBox) :
  bbox_loop (List.map point_cell pts) acc =
  Ok (mkBBox (fold_left py_min (List.map fst pts) (minx acc))
             (fold_left py_min (List.map snd pts) (miny acc))
             (fold_left py_max (List.map fst pts) (maxx acc))
             (fold_left py_max (List.map snd pts) (maxy acc))).
Proof.
  revert acc. induction pts as [| [x y] pts IH]; intros acc.
  - destruct acc; reflexivity.
  - cbn [List.map bbox_loop point_cell wkb_loads bind bounds fst snd].
    rewrite IH. reflexivity.
Qed.

Lemma numeric_points_fst (pts : list (float * float)) :
  Forall numeric_point pts ->
  Forall (fun x => is_nan x = false) (List.map fst pts)
  /\ Forall (fun x => is_nan x = false) (List.map snd pts).
Proof.
  induction 1 as [| p pts [Hx Hy] _ [IHx IHy]]; split; constructor; assumption.
Qed.

Lemma py_min_seed (x : float) : is_nan x = false -> py_min PosInf x = x.
Proof. destruct x; intros H; try discriminate; reflexivity. Qed.

Lemma py_max_seed (x : float) : is_nan x = false -> py_max NegInf x = x.
Proof. destruct x; intros H; try discriminate; reflexivity. Qed.

(** The bounds of a file whose cells are numeric points. *)
Lemma bbox_of_points (pts : list (float * float)) :
  pts <> [] -> Forall numeric_point pts ->
  exists bb,
    bbox_loop (List.map point_cell pts) bbox_seed = Ok bb /\
    is_min (minx bb) (List.map fst pts) /\
    is_min (miny bb) (List.map snd pts) /\
    is_max (maxx bb) (List.map fst pts) /\
    is_max (maxy bb) (List.map snd pts).
Proof.
  intros Hne Hnum.
  destruct (numeric_points_fst pts Hnum) as [Hx Hy].
  assert (Hfst : List.map fst pts <> []) by (destruct pts; [congruence | discriminate]).
  assert (Hsnd : List.map snd pts <> []) by (destruct pts; [congruence | discriminate]).
  eexists. split; [apply bbox_loop_points |].
  cbn [minx miny maxx maxy bbox_seed].
  repeat split;
    first [ apply (min_from_seed _ Hfst Hx) | apply (min_from_seed _ Hsnd Hy)
          | apply (max_from_seed _ Hfst Hx) | apply (max_from_seed _ Hsnd Hy) ].
Qed.

(** The summarizer on a readable file with at least one row. *)
Lemma bbox_and_times_nonempty (parquet_path : string) (rows : list row)
    (num_rows : Z) :
  rows <> [] ->
  _bbox_and_times parquet_path (ParquetFile rows num_rows) =
    (let* bb := bbox_loop (List.map geometry_cell rows) bbox_seed in
     let* start := py_min_list (List.map firstMeasurementTime rows) in
     let* end_ := py_max_list (List.map lastMeasurementTime rows) in
     let* start := normalize start in
     let* end_ := normalize end_ in
     Ok (bb, start, end_, num_rows)).
Proof.
  intros Hrows. destruct rows as [| r rows]; [congruence |].
  unfold _bbox_and_times, bbox_seed.
  cbn [read_table bind List.map metadata_num_rows].
  destruct (bbox_loop _ _) as [bb |]; [| reflexivity]. cbn [bind].
  destruct (py_min_list _) as [s |]; [| reflexivity]. cbn [bind].
  destruct (py_max_list _) as [e |]; [| reflexivity]. cbn [bind].
  destruct (normalize s) as [s' |]; [| reflexivity]. cbn [bind].
  destruct (normalize e) as [e' |]; reflexivity.
Qed.

(** C2, as the code has it.  For a file with at least one row whose
    geometry cells decode to points with numeric coordinates, the
    reduction seeded at
    (+inf, +inf, -inf, -inf) returns the box of the four pairwise
    [min]/[max] folds, the summarizer's result carries exactly that
    box, each lower bound is the least and each upper
    bound the greatest of the corresponding point coordinates, any
    reordering of the rows gives a box equal bound by bound, and a
    single row gives the degenerate box of its point. *)
Theorem bbox_is_exact_min_max
    (parquet_path : string) (rows : list row) (num_rows : Z)
    (pts : list (float * float)) :
  rows <> [] ->
  List.map geometry_cell rows = List.map point_cell pts ->
  Forall numeric_point pts ->
  exists bb,
    bbox_loop (List.map geometry_cell rows) bbox_seed = Ok bb /\
    bb = mkBBox (fold_left py_min (List.map fst pts) PosInf)
                (fold_left py_min (List.map snd pts) PosInf)
                (fold_left py_max (List.map fst pts) NegInf)
                (fold_left py_max (List.map snd pts) NegInf) /\
    _bbox_and_times parquet_path (ParquetFile rows num_rows) =
      (let* start := py_min_list (List.map firstMeasurementTime rows) in
       let* end_ := py_max_list (List.map lastMeasurementTime rows) in
       let* start := normalize start in
       let* end_ := normalize end_ in
       Ok (bb, start, end_, num_rows)) /\
    is_min (minx bb) (List.map fst pts) /\
    is_min (miny bb) (List.map snd pts) /\
    is_max (maxx bb) (List.map fst pts) /\
    is_max (maxy bb) (List.map snd pts) /\
    (forall rows',
       Permutation rows rows' ->
       exists bb',
         bbox_loop (List.map geometry_cell rows') bbox_seed = Ok bb' /\
         bbox_eq bb bb') /\
    (forall p, pts = [p] -> bb = mkBBox (fst p) (snd p) (fst p) (snd p)).
Proof.
  intros Hrows Hcells Hnum.
  assert (Hpts : pts <> []).
  { intros ->. destruct rows; [congruence | discriminate]. }
  destruct (bbox_of_points pts Hpts Hnum) as (bb & Hbb & Hminx & Hminy & Hmaxx & Hmaxy).
  exists bb. rewrite Hcells.
  split; [exact Hbb |].
  split.
  { pose proof Hbb as Hfold. rewrite bbox_loop_points in Hfold.
    injection Hfold as <-. reflexivity. }
  split.
  { rewrite (bbox_and_times_nonempty parquet_path rows num_rows Hrows).
    rewrite Hcells, Hbb. reflexivity. }
  repeat (split; [assumption |]).
  split.
  - intros rows' Hperm.
    assert (Hp : Permutation (List.map point_cell pts) (List.map geometry_cell rows')).
    { rewrite <- Hcells. apply Permutation_map. exact Hperm. }
    apply Permutation_sym, Permutation_map_inv in Hp as (pts' & Hcells' & Hpp).
    assert (Hnum' : Forall numeric_point pts').
    { eapply Permutation_Forall; [exact Hpp | exact Hnum]. }
    assert (Hpts' : pts' <> []).
    { intros ->. apply Permutation_sym, Permutation_nil in Hpp. congruence. }
    destruct (bbox_of_points pts' Hpts' Hnum')
      as (bb' & Hbb' & Hminx' & Hminy' & Hmaxx' & Hmaxy').
    exists bb'. rewrite Hcells'. split; [exact Hbb' |].
    assert (Hpf : Permutation (List.map fst pts) (List.map fst pts'))
      by (apply Permutation_map; exact Hpp).
    assert (Hps : Permutation (List.map snd pts) (List.map snd pts'))
      by (apply Permutation_map; exact Hpp).
    repeat split;
      first [ eapply is_min_unique; [exact Hpf | eassumption | eassumption]
            | eapply is_min_unique; [exact Hps | eassumption | eassumption]
            | eapply is_max_unique; [exact Hpf | eassumption | eassumption]
            | eapply is_max_unique; [exact Hps | eassumption | eassumption] ].
  - intros [x y] ->.
    inversion Hnum as [| ? ? [Hx Hy] _]; subst. cbn [fst snd] in *.
    rewrite bbox_loop_points in Hbb. injection Hbb as <-.
    cbn. rewrite (py_min_seed x Hx), (py_min_seed y Hy),
      (py_max_seed x Hx), (py_max_seed y Hy). reflexivity.
Qed.

(** C2, as stated, fails: a file of one row whose geometry is an empty
    point, whose bounds are NaN, is summarized without error, and the
    box returned is the seed of the reduction,
    (+inf, +inf, -inf, -inf).  It is not a degenerate box, its lower
    bounds being above its upper bounds, and its bounds are not the
    least and greatest of the decoded bounds. *)
Lemma empty_point_gives_seed_box :
  let rows := [Row nan_point (Example.at_ 1 0 0) (Example.at_ 1 1 0)] in
  rows <> [] /\
  List.map (fun r => option_map bounds
                       (match wkb_loads (geometry_cell r) with
                        | Ok g => Some g
                        | Raise _ => None
                        end)) rows
  = [Some (NaN, NaN, NaN, NaN)] /\
  _bbox_and_times "catalog/assets/a.parquet" (ParquetFile rows 1)
  = Ok (mkBBox PosInf PosInf NegInf NegInf,
        Example.at_ 1 0 0, Example.at_ 1 1 0, 1) /\
  ~ Float.eq PosInf NegInf /\
  Float.ltb NegInf PosInf = true /\
  ~ is_min PosInf [NaN] /\ ~ is_max NegInf [NaN].
Proof.
  cbv zeta. split; [discriminate |].
  split; [reflexivity |].
  split; [vm_compute; reflexivity |].
  split; [intros H; discriminate H |].
  split; [reflexivity |].
  split; intros [[H | []] _]; discriminate.
Qed.

(** ** The time range of a file *)

Lemma dt_ltb_same_kind (a b : datetime) :
  aware a = aware b ->
  Datetime.ltb a b = Ok (ts_key a <? ts_key b).
Proof.
  unfold aware, Datetime.ltb, ts_key.
  destruct (Datetime.tzinfo a), (Datetime.tzinfo b);
    intros H; try discriminate; reflexivity.
Qed.

Lemma min_loop_uniform (k : bool) (ds : list datetime) (m : datetime) :
  aware m = k -> Forall (fun d => aware d = k) ds ->
  exists m',
    min_loop (TsDatetime m) (List.map TsDatetime ds) = Ok (TsDatetime m') /\
    In m' (m :: ds) /\
    forall d, In d (m :: ds) -> ts_key m' <= ts_key d.
Proof.
  revert m. induction ds as [| x ds IH]; intros m Hm Hds.
  - exists m. repeat split; [left; reflexivity |].
    intros d [<- | []]. lia.
  - inversion Hds as [| ? ? Hx Hds']; subst.
    cbn [List.map min_loop ts_ltb].
    rewrite (dt_ltb_same_kind x m) by congruence. cbn [bind].
    destruct (Z.ltb_spec (ts_key x) (ts_key m)) as [Hlt | Hge].
    + destruct (IH x Hx Hds') as (m' & Hrun & Hin & Hle).
      exists m'. split; [exact Hrun |]. split.
      * right. exact Hin.
      * intros d [<- | Hd]; [| apply Hle; exact Hd].
        specialize (Hle x (or_introl eq_refl)). lia.
    + destruct (IH m eq_refl Hds') as (m' & Hrun & Hin & Hle).
      exists m'. split; [exact Hrun |]. split.
      * destruct Hin as [<- | Hin]; [left; reflexivity | right; right; exact Hin].
      * intros d [<- | [<- | Hd]].
        -- apply Hle. left. reflexivity.
        -- specialize (Hle m (or_introl eq_refl)). lia.
        -- apply Hle. right. exact Hd.
Qed.

Lemma max_loop_uniform (k : bool) (ds : list datetime) (m : datetime) :
  aware m = k -> Forall (fun d => aware d = k) ds ->
  exists m',
    max_loop (TsDatetime m) (List.map TsDatetime ds) = Ok (TsDatetime m') /\
    In m' (m :: ds) /\
    forall d, In d (m :: ds) -> ts_key d <= ts_key m'.
Proof.
  revert m. induction ds as [| x ds IH]; intros m Hm Hds.
  - exists m. repeat split; [left; reflexivity |].
    intros d [<- | []]. lia.
  - inversion Hds as [| ? ? Hx Hds']; subst.
    cbn [List.map max_loop ts_gtb ts_ltb].
    rewrite (dt_ltb_same_kind m x) by congruence. cbn [bind].
    destruct (Z.ltb_spec (ts_key m) (ts_key x)) as [Hlt | Hge].
    + destruct (IH x Hx Hds') as (m' & Hrun & Hin & Hle).
      exists m'. split; [exact Hrun |]. split.
      * right. exact Hin.
      * intros d [<- | Hd]; [| apply Hle; exact Hd].
        specialize (Hle x (or_introl eq_refl)). lia.
    + destruct (IH m eq_refl Hds') as (m' & Hrun & Hin & Hle).
      exists m'. split; [exact Hrun |]. split.
      * destruct Hin as [<- | Hin]; [left; reflexivity | right; right; exact Hin].
      * intros d [<- | [<- | Hd]].
        -- apply Hle. left. reflexivity.
        -- specialize (Hle m (or_introl eq_refl)). lia.
        -- apply Hle. right. exact Hd.
Qed.

Lemma py_min_list_uniform (ds : list datetime) :
  ds <> [] -> uniform ds ->
  exists m,
    py_min_list (List.map TsDatetime ds) = Ok (TsDatetime m) /\
    In m ds /\ forall d, In d ds -> ts_key m <= ts_key d.
Proof.
  intros Hne [k Hk]. destruct ds as [| x ds]; [congruence |].
  inversion Hk as [| ? ? Hx Hds]; subst.
  apply (min_loop_uniform (aware x) ds x eq_refl Hds).
Qed.

Lemma py_max_list_uniform (ds : list datetime) :
  ds <> [] -> uniform ds ->
  exists m,
    py_max_list (List.map TsDatetime ds) = Ok (TsDatetime m) /\
    In m ds /\ forall d, In d ds -> ts_key d <= ts_key m.
Proof.
  intros Hne [k Hk]. destruct ds as [| x ds]; [congruence |].
  inversion Hk as [| ? ? Hx Hds]; subst.
  apply (max_loop_uniform (aware x) ds x eq_refl Hds).
Qed.

Lemma to_utc_representable (d : datetime) :
  utc_representable d ->
  exists u, to_utc d = Ok u /\ utc_normal_form d u.
Proof.
  unfold utc_representable, to_utc, utc_normal_form,
    Datetime.astimezone_utc, Datetime.replace_tzinfo_utc, Datetime.instant.
  destruct (Datetime.tzinfo d) as [off |]; intros H.
  - rewrite H. eexists. split; [reflexivity |].
    cbn [Datetime.tzinfo Datetime.wall]. unfold Datetime.utc.
    split; [reflexivity | lia].
  - eexists. split; [reflexivity |]. split; reflexivity.
Qed.

Lemma to_utc_normal_form (d u : datetime) :
  to_utc d = Ok u -> utc_normal_form d u.
Proof.
  unfold to_utc, utc_normal_form, Datetime.astimezone_utc,
    Datetime.replace_tzinfo_utc, Datetime.instant.
  destruct (Datetime.tzinfo d) as [off |].
  - destruct (Datetime.in_range _); [| discriminate].
    intros [= <-]. cbn [Datetime.tzinfo Datetime.wall]. unfold Datetime.utc.
    split; [reflexivity | lia].
  - intros [= <-]. split; reflexivity.
Qed.

Lemma map_TsDatetime_nonempty {A} (f : A -> tsval) (l : list A)
    (ds : list datetime) :
  l <> [] -> List.map f l = List.map TsDatetime ds -> ds <> [].
Proof.
  intros Hne Heq ->. destruct l; [congruence | discriminate].
Qed.

(** C7, as the code has it.  For a file with at least one row whose
    geometries decode and whose two timestamp columns each hold
    datetimes, without a null, of one kind and with instants
    representable in UTC, the summarizer returns; its start
    is the normalization of a least value of the first-timestamp
    column and its end the normalization of a greatest value of the
    last-timestamp column, each column reduced on its own; both carry
    the UTC tzinfo, a naive value keeping its clock reading and an
    aware value keeping its instant. *)
Theorem start_end_are_utc_min_max
    (parquet_path : string) (rows : list row) (num_rows : Z)
    (bb : BBox) (firsts lasts : list datetime) :
  rows <> [] ->
  bbox_loop (List.map geometry_cell rows) bbox_seed = Ok bb ->
  List.map firstMeasurementTime rows = List.map TsDatetime firsts ->
  List.map lastMeasurementTime rows = List.map TsDatetime lasts ->
  uniform firsts -> uniform lasts ->
  Forall utc_representable firsts -> Forall utc_representable lasts ->
  exists dmin dmax start end_,
    _bbox_and_times parquet_path (ParquetFile rows num_rows)
    = Ok (bb, TsDatetime start, TsDatetime end_, num_rows) /\
    In dmin firsts /\ (forall d, In d firsts -> ts_key dmin <= ts_key d) /\
    In dmax lasts /\ (forall d, In d lasts -> ts_key d <= ts_key dmax) /\
    utc_normal_form dmin start /\ utc_normal_form dmax end_.
Proof.
  intros Hrows Hbb Hf Hl Huf Hul Hrf Hrl.
  assert (Hfne : firsts <> [])
    by exact (map_TsDatetime_nonempty firstMeasurementTime rows firsts Hrows Hf).
  assert (Hlne : lasts <> [])
    by exact (map_TsDatetime_nonempty lastMeasurementTime rows lasts Hrows Hl).
  destruct (py_min_list_uniform firsts Hfne Huf) as (dmin & Hmin & Hin_min & Hle_min).
  destruct (py_max_list_uniform lasts Hlne Hul) as (dmax & Hmax & Hin_max & Hle_max).
  assert (Hrmin : utc_representable dmin).
  { rewrite List.Forall_forall in Hrf. apply Hrf. exact Hin_min. }
  assert (Hrmax : utc_representable dmax).
  { rewrite List.Forall_forall in Hrl. apply Hrl. exact Hin_max. }
  destruct (to_utc_representable dmin Hrmin) as (start & Hstart & Hnf_s).
  destruct (to_utc_representable dmax Hrmax) as (end_ & Hend & Hnf_e).
  exists dmin, dmax, start, end_.
  split.
  { rewrite (bbox_and_times_nonempty parquet_path rows num_rows Hrows).
    rewrite Hbb, Hf, Hl, Hmin, Hmax. cbn [bind normalize].
    rewrite Hstart, Hend. reflexivity. }
  split; [exact Hin_min |]. split; [exact Hle_min |].
  split; [exact Hin_max |]. split; [exact Hle_max |].
  split; assumption.
Qed.

(** C7, as stated, fails: a file with at least one row need not yield
    a start and an end.  With a null in a timestamp column of two
    rows, or a naive and an aware value in one column, the reduction
    raises [TypeError]; an aware first timestamp whose UTC reading
    falls before year 1 raises [OverflowError]; and a single row with
    a null first timestamp returns, with no datetime at all as
    start. *)
Lemma time_range_fails_on_irregular_columns :
  let path := "catalog/assets/a.parquet" in
  let early := Datetime.mk 1 1 1 0 30 0 0 (Some Datetime.US_PER_HOUR) in
  let naive := Datetime.mk 2021 1 1 0 0 0 0 None in
  (exists e,
     _bbox_and_times path
       (ParquetFile [ Row (Example.pt 1 2) (Example.at_ 1 0 0) (Example.at_ 1 1 0);
                      Row (Example.pt 3 4) TsNone (Example.at_ 1 2 0) ] 2)
     = Raise e /\ exn_class e = TypeError) /\
  _bbox_and_times path
    (ParquetFile [ Row (Example.pt 1 2) (Example.at_ 1 0 0) (Example.at_ 1 1 0);
                   Row (Example.pt 3 4) (TsDatetime naive) (Example.at_ 1 2 0) ] 2)
  = Raise (Exn TypeError
             "can't compare offset-naive and offset-aware datetimes" None) /\
  _bbox_and_times path
    (ParquetFile [ Row (Example.pt 1 2) (TsDatetime early) (Example.at_ 1 1 0) ] 1)
  = Raise (Exn OverflowError "date value out of range" None) /\
  _bbox_and_times path
    (ParquetFile [ Row (Example.pt 1 2) TsNone (Example.at_ 1 1 0) ] 1)
  = Ok (mkBBox (of_Z 1) (of_Z 2) (of_Z 1) (of_Z 2),
        TsNone, Example.at_ 1 1 0, 1).
Proof.
  cbv zeta. split; [eexists; split; vm_compute; reflexivity |].
  repeat split; vm_compute; reflexivity.
Qed.

(** ** The loop over the files *)

Lemma writes_app (a b : list BuildSarCatalog.event) :
  writes (a ++ b) = writes a ++ writes b.
Proof. unfold writes. apply flat_map_app. Qed.

Section BuilderFacts.

Variable validate_item : Item -> option exn.
Variable validate_collection : Collection -> option exn.
Variable format_exc : exn -> list string.
Variable make_absolute_href : string -> string.
Variable stac_io : nat -> option exn.
Variables (root : Path) (item_props : gmap string json).

Local Abbreviation process :=
  (process_file validate_item format_exc root item_props).
Local Abbreviation run_loop :=
  (loop validate_item format_exc root item_props).
Local Abbreviation accepts := (accepted validate_item root item_props).

Lemma process_accept (st : loop_state) (pf : Path * file)
    (r : Item * (BBox * tsval * tsval * Z)) :
  accepts pf r -> process st pf = ([], Ok (accumulate st r)).
Proof.
  intros [Hitem Hval]. unfold process_file, io_lift, io_bind.
  rewrite Hitem, Hval. reflexivity.
Qed.

(** An iteration either accumulates silently or raises; it never
    writes a document. *)
Lemma process_cases (st : loop_state) (pf : Path * file) :
  (exists r, accepts pf r /\ process st pf = ([], Ok (accumulate st r)))
  \/ (exists tr e, process st pf = (tr, Raise e) /\ writes tr = []).
Proof.
  unfold process_file, io_lift, io_bind, accepted.
  destruct (item_of_file root item_props pf) as [r | e] eqn:Hitem.
  - destruct (validate_item (fst r)) as [e |] eqn:Hval.
    + right. do 2 eexists. split; reflexivity.
    + left. exists r. repeat split. exact Hval.
  - right. exists [], e. split; reflexivity.
Qed.

Lemma loop_accept (files : list (Path * file))
    (rs : list (Item * (BBox * tsval * tsval * Z))) (st : loop_state) :
  Forall2 accepts files rs ->
  run_loop files st = ([], Ok (fold_left accumulate rs st)).
Proof.
  intros H. revert st. induction H as [| pf r files rs Hacc _ IH]; intros st.
  - reflexivity.
  - cbn [loop fold_left]. rewrite (process_accept st pf r Hacc).
    unfold io_bind. rewrite IH. reflexivity.
Qed.

Lemma loop_ok_inv (files : list (Path * file)) (st st' : loop_state)
    (tr : list BuildSarCatalog.event) :
  run_loop files st = (tr, Ok st') ->
  tr = [] /\
  exists rs, Forall2 accepts files rs /\ st' = fold_left accumulate rs st.
Proof.
  revert st tr. induction files as [| pf files IH]; intros st tr H.
  - injection H as <- <-. split; [reflexivity |]. exists []. split; constructor.
  - cbn [loop] in H.
    destruct (process_cases st pf) as [(r & Hacc & Hp) | (tr1 & e & Hp & _)];
      rewrite Hp in H; unfold io_bind in H.
    + destruct (run_loop files (accumulate st r)) as [tr2 res] eqn:Hrest.
      injection H as <- ->.
      destruct (IH _ _ Hrest) as (-> & rs & Hrs & ->).
      split; [reflexivity |]. exists (r :: rs). split; [constructor; assumption | reflexivity].
    + discriminate.
Qed.

Lemma loop_writes (files : list (Path * file)) (st : loop_state) :
  writes (fst (run_loop files st)) = [].
Proof.
  revert st. induction files as [| pf files IH]; intros st; [reflexivity |].
  cbn [loop].
  destruct (process_cases st pf) as [(r & Hacc & Hp) | (tr1 & e & Hp & Hw)];
    rewrite Hp; unfold io_bind.
  - specialize (IH (accumulate st r)).
    destruct (run_loop files (accumulate st r)) as [tr2 res]. exact IH.
  - exact Hw.
Qed.

(** The loop stops at the first file that is not accepted. *)
Lemma loop_stops (pre post : list (Path * file)) (pf : Path * file)
    (rs : list (Item * (BBox * tsval * tsval * Z))) (st : loop_state)
    (tr : list BuildSarCatalog.event) (e : exn) :
  Forall2 accepts pre rs ->
  process (fold_left accumulate rs st) pf = (tr, Raise e) ->
  run_loop (pre ++ pf :: post) st = (tr, Raise e).
Proof.
  intros H. revert st. induction H as [| p r pre rs Hacc _ IH]; intros st Hp.
  - cbn [fold_left] in Hp. cbn [app loop]. rewrite Hp. reflexivity.
  - cbn [fold_left] in Hp. cbn [app loop].
    rewrite (process_accept st p r Hacc).
    unfold io_bind. rewrite (IH _ Hp). reflexivity.
Qed.

(** A file that cannot be summarized makes the loop raise. *)
Lemma loop_raises (files : list (Path * file)) (pf : Path * file)
    (st : loop_state) :
  In pf files -> (forall r, ~ accepts pf r) ->
  exists tr e, run_loop files st = (tr, Raise e) /\ writes tr = [].
Proof.
  intros Hin Hno.
  destruct (run_loop files st) as [tr [st' | e]] eqn:Hrun.
  - exfalso. destruct (loop_ok_inv _ _ _ _ Hrun) as (_ & rs & Hrs & _).
    clear Hrun. induction Hrs as [| p r files rs Hacc _ IH]; [exact Hin |].
    destruct Hin as [<- | Hin]; [exact (Hno r Hacc) | exact (IH Hin)].
  - exists tr, e. split; [reflexivity |].
    pose proof (loop_writes files st) as Hw. rewrite Hrun in Hw. exact Hw.
Qed.

End BuilderFacts.

(** ** What an accepted file contributes *)

Lemma bbox_loop_numeric (geoms : list wkb_bytes) (acc bb : BBox) :
  bbox_numeric acc -> bbox_loop geoms acc = Ok bb -> bbox_numeric bb.
Proof.
  revert acc. induction geoms as [| g geoms IH]; intros acc Hacc H.
  - injection H as <-. exact Hacc.
  - cbn [bbox_loop] in H. destruct g as [[x y] |]; [| discriminate].
    cbn [wkb_loads bind bounds] in H. apply IH in H; [exact H |].
    destruct Hacc as (H1 & H2 & H3 & H4).
    repeat split; cbn [minx miny maxx maxy];
      first [apply py_min_not_nan | apply py_max_not_nan]; assumption.
Qed.

Lemma bbox_and_times_inv (parquet_path : string) (f : file)
    (bb : BBox) (s e : tsval) (n : Z) :
  _bbox_and_times parquet_path f = Ok (bb, s, e, n) ->
  exists rows s0 e0,
    f = ParquetFile rows n /\ rows <> [] /\
    bbox_loop (List.map geometry_cell rows) bbox_seed = Ok bb /\
    py_min_list (List.map firstMeasurementTime rows) = Ok s0 /\
    py_max_list (List.map lastMeasurementTime rows) = Ok e0 /\
    normalize s0 = Ok s /\ normalize e0 = Ok e.
Proof.
  destruct f as [rows k |]; [| discriminate].
  destruct rows as [| r rows]; [discriminate |].
  rewrite bbox_and_times_nonempty by discriminate.
  destruct (bbox_loop _ _) as [bb' |] eqn:Hbb; [| discriminate]. cbn [bind].
  destruct (py_min_list _) as [s0 |] eqn:Hmin; [| discriminate]. cbn [bind].
  destruct (py_max_list _) as [e0 |] eqn:Hmax; [| discriminate]. cbn [bind].
  destruct (normalize s0) as [s' |] eqn:Hs; [| discriminate]. cbn [bind].
  destruct (normalize e0) as [e' |] eqn:He; [| discriminate]. cbn [bind].
  intros [= <- <- <- <-].
  exists (r :: rows), s0, e0.
  split; [reflexivity |]. split; [discriminate |].
  repeat split; assumption.
Qed.

(** A cell that was normalized and then serialized is a UTC datetime. *)
Lemma normalized_serialized_utc (t0 t : tsval) (str : string) :
  normalize t0 = Ok t -> _to_rfc3339_z t = Ok str -> utc_cell t.
Proof.
  intros Hn Hs. destruct t0 as [| d].
  - injection Hn as <-. discriminate.
  - cbn [normalize] in Hn. destruct (to_utc d) as [u |] eqn:Hu; [| discriminate].
    injection Hn as <-. exists u. split; [reflexivity |].
    exact (to_utc_tzinfo d u Hu).
Qed.

Lemma item_of_file_summary (root : Path) (item_props : gmap string json)
    (rel : Path) (f : file) (r : Item * (BBox * tsval * tsval * Z)) :
  item_of_file root item_props (rel, f) = Ok r ->
  bbox_numeric (summary_bbox (snd r)) /\
  utc_cell (summary_start (snd r)) /\
  utc_cell (summary_end (snd r)) /\
  item_id (fst r) = stem rel /\
  item_bbox (fst r) = summary_bbox (snd r) /\
  item_datetime (fst r) = summary_start (snd r) /\
  item_row_count (fst r) = summary_rows (snd r).
Proof.
  destruct r as [item summary]. intros H.
  destruct (item_of_file_inv _ _ _ _ _ _ H) as (ss & es & Hsum & Hs & He & ->).
  destruct summary as [[[bb s] e] n].
  destruct (bbox_and_times_inv _ _ _ _ _ _ Hsum)
    as (rows & s0 & e0 & _ & _ & Hbb & _ & _ & Hns & Hne).
  cbn [fst snd summary_bbox summary_start summary_end summary_rows] in *.
  split.
  { eapply bbox_loop_numeric; [| exact Hbb]. repeat split. }
  split; [exact (normalized_serialized_utc s0 s ss Hns Hs) |].
  split; [exact (normalized_serialized_utc e0 e es Hne He) |].
  repeat split.
Qed.

(** The accumulators after a run of accepted files. *)
Lemma acc_items (rs : list (Item * (BBox * tsval * tsval * Z)))
    (st : loop_state) :
  items (fold_left accumulate rs st) = items st ++ List.map fst rs.
Proof.
  revert st. induction rs as [| [it [[[bb s] e] n]] rs IH]; intros st.
  - cbn. rewrite app_nil_r. reflexivity.
  - cbn [fold_left List.map]. rewrite IH. cbn [accumulate items fst].
    rewrite <- app_assoc. reflexivity.
Qed.

Lemma acc_start_times (rs : list (Item * (BBox * tsval * tsval * Z)))
    (st : loop_state) :
  start_times (fold_left accumulate rs st)
  = start_times st ++ List.map (fun r => summary_start (snd r)) rs.
Proof.
  revert st. induction rs as [| [it [[[bb s] e] n]] rs IH]; intros st.
  - cbn. rewrite app_nil_r. reflexivity.
  - cbn [fold_left List.map]. rewrite IH. cbn [accumulate start_times].
    rewrite <- app_assoc. reflexivity.
Qed.

Lemma acc_end_times (rs : list (Item * (BBox * tsval * tsval * Z)))
    (st : loop_state) :
  end_times (fold_left accumulate rs st)
  = end_times st ++ List.map (fun r => summary_end (snd r)) rs.
Proof.
  revert st. induction rs as [| [it [[[bb s] e] n]] rs IH]; intros st.
  - cbn. rewrite app_nil_r. reflexivity.
  - cbn [fold_left List.map]. rewrite IH. cbn [accumulate end_times].
    rewrite <- app_assoc. reflexivity.
Qed.

Lemma acc_total_rows (rs : list (Item * (BBox * tsval * tsval * Z)))
    (st : loop_state) :
  total_rows (fold_left accumulate rs st)
  = total_rows st + sum_Z (List.map (fun r => summary_rows (snd r)) rs).
Proof.
  revert st. induction rs as [| [it [[[bb s] e] n]] rs IH]; intros st.
  - cbn. lia.
  - cbn [fold_left List.map]. rewrite IH.
    unfold sum_Z, summary_rows. simpl. lia.
Qed.

Lemma acc_overall_bbox (rs : list (Item * (BBox * tsval * tsval * Z)))
    (st : loop_state) (b : BBox) :
  overall_bbox st = Some b ->
  let bbs := List.map (fun r => summary_bbox (snd r)) rs in
  overall_bbox (fold_left accumulate rs st)
  = Some (mkBBox (fold_left py_min (List.map minx bbs) (minx b))
                 (fold_left py_min (List.map miny bbs) (miny b))
                 (fold_left py_max (List.map maxx bbs) (maxx b))
                 (fold_left py_max (List.map maxy bbs) (maxy b))).
Proof.
  revert st b. induction rs as [| [it [[[bb s] e] n]] rs IH]; intros st b Hb.
  - cbn. rewrite Hb. destruct b; reflexivity.
  - cbv zeta in *. cbn [fold_left List.map].
    rewrite (IH (accumulate st (it, (bb, s, e, n))) (merge_bbox (Some b) bb)).
    + reflexivity.
    + cbn [accumulate overall_bbox]. rewrite Hb. reflexivity.
Qed.

Lemma acc_overall_bbox_init (r : Item * (BBox * tsval * tsval * Z))
    (rs : list (Item * (BBox * tsval * tsval * Z))) :
  let b := summary_bbox (snd r) in
  let bbs := List.map (fun r => summary_bbox (snd r)) rs in
  overall_bbox (fold_left accumulate (r :: rs) init_state)
  = Some (mkBBox (fold_left py_min (List.map minx bbs) (minx b))
                 (fold_left py_min (List.map miny bbs) (miny b))
                 (fold_left py_max (List.map maxx bbs) (maxx b))
                 (fold_left py_max (List.map maxy bbs) (maxy b))).
Proof.
  cbv zeta. cbn [fold_left].
  apply (acc_overall_bbox rs (accumulate init_state r) (summary_bbox (snd r))).
  destruct r as [it [[[bb s] e] n]]. reflexivity.
Qed.

(** ** The collection built after the loop *)

Lemma utc_cells_datetimes (l : list tsval) :
  Forall utc_cell l ->
  exists ds, l = List.map TsDatetime ds /\
             Forall (fun d => Datetime.tzinfo d = Some Datetime.utc) ds.
Proof.
  induction 1 as [| t l (d & -> & Hd) _ (ds & -> & Hds)].
  - exists []. split; constructor.
  - exists (d :: ds). split; [reflexivity | constructor; assumption].
Qed.

Lemma utc_datetimes_uniform (ds : list datetime) :
  Forall (fun d => Datetime.tzinfo d = Some Datetime.utc) ds -> uniform ds.
Proof.
  intros H. exists true. eapply List.Forall_impl; [| exact H].
  intros d Hd. unfold aware. rewrite Hd. reflexivity.
Qed.

Lemma in_map_TsDatetime (d : datetime) (ds : list datetime) :
  In (TsDatetime d) (List.map TsDatetime ds) <-> In d ds.
Proof.
  rewrite in_map_iff. split.
  - intros (x & [= ->] & Hx). exact Hx.
  - intros H. exists d. split; [reflexivity | exact H].
Qed.

Lemma py_min_list_utc (l : list tsval) :
  l <> [] -> Forall utc_cell l ->
  exists t, py_min_list l = Ok t /\ earliest t l.
Proof.
  intros Hne Hl. destruct (utc_cells_datetimes l Hl) as (ds & -> & Hds).
  assert (Hdne : ds <> []) by (intros ->; apply Hne; reflexivity).
  destruct (py_min_list_uniform ds Hdne (utc_datetimes_uniform ds Hds))
    as (m & Hrun & Hin & Hle).
  exists (TsDatetime m). split; [exact Hrun |].
  exists m. split; [reflexivity |]. split.
  - apply in_map_TsDatetime. exact Hin.
  - intros d Hd. apply Hle. apply in_map_TsDatetime. exact Hd.
Qed.

Lemma py_max_list_utc (l : list tsval) :
  l <> [] -> Forall utc_cell l ->
  exists t, py_max_list l = Ok t /\ latest t l.
Proof.
  intros Hne Hl. destruct (utc_cells_datetimes l Hl) as (ds & -> & Hds).
  assert (Hdne : ds <> []) by (intros ->; apply Hne; reflexivity).
  destruct (py_max_list_uniform ds Hdne (utc_datetimes_uniform ds Hds))
    as (m & Hrun & Hin & Hle).
  exists (TsDatetime m). split; [exact Hrun |].
  exists m. split; [reflexivity |]. split.
  - apply in_map_TsDatetime. exact Hin.
  - intros d Hd. apply Hle. apply in_map_TsDatetime. exact Hd.
Qed.

(** ** Saving *)

Lemma writes_write_events (docs : list (string * document)) :
  writes (write_events docs) = docs.
Proof.
  induction docs as [| [h d] docs IH]; [reflexivity |].
  cbn [write_events List.map writes flat_map app fst snd].
  f_equal. exact IH.
Qed.

Lemma prints_write_events (docs : list (string * document)) :
  prints (write_events docs) = [].
Proof.
  induction docs as [| [h d] docs IH]; [reflexivity |]. exact IH.
Qed.

Lemma documents_length (c : Collection) :
  List.length (documents c) = S (List.length (coll_items c)).
Proof.
  unfold documents. rewrite length_app, length_map. cbn. lia.
Qed.

Lemma written_collection_documents (pre post : list BuildSarCatalog.event)
    (c : Collection) :
  writes pre = [] ->
  written_collection (pre ++ write_events (documents c) ++ post) = Some c.
Proof.
  intros Hpre. unfold written_collection.
  rewrite !writes_app, Hpre, writes_write_events. cbn [app].
  unfold documents.
  induction (coll_items c) as [| it its IH]; [reflexivity |].
  cbn [List.map app fold_right snd]. exact IH.
Qed.

Section SaveFacts.

Variable stac_io : nat -> option exn.

(** When the calls return, every document is written. *)
Lemma write_all_returns (docs : list (string * document)) (k : nat) :
  (forall i, (i < List.length docs)%nat -> stac_io (k + i) = None) ->
  write_all stac_io k docs = (write_events docs, Ok tt).
Proof.
  revert k. induction docs as [| [h d] docs IH]; intros k Hok; [reflexivity |].
  cbn [write_all].
  pose proof (Hok O ltac:(cbn; lia)) as H0. rewrite Nat.add_0_r in H0.
  rewrite H0. unfold io_bind, io_emit.
  rewrite (IH (S k)).
  - reflexivity.
  - intros i Hi. replace (S k + i)%nat with (k + S i)%nat by lia.
    apply Hok. cbn. lia.
Qed.

(** The first call that raises ends the save: the documents before it
    were written, its own call is the last, and its exception is
    raised. *)
Lemma write_all_raises (docs : list (string * document)) (k i : nat)
    (e : exn) :
  (i < List.length docs)%nat ->
  (forall j, (j < i)%nat -> stac_io (k + j) = None) ->
  stac_io (k + i) = Some e ->
  write_all stac_io k docs = (write_events (firstn (S i) docs), Raise e).
Proof.
  revert k i. induction docs as [| [h d] docs IH]; intros k i Hi Hok He;
    [cbn in Hi; lia |].
  cbn [write_all]. destruct i as [| i].
  - rewrite Nat.add_0_r in He. rewrite He. reflexivity.
  - pose proof (Hok O ltac:(lia)) as H0. rewrite Nat.add_0_r in H0.
    rewrite H0. unfold io_bind, io_emit.
    rewrite (IH (S k) i).
    + reflexivity.
    + cbn in Hi. lia.
    + intros j Hj. replace (S k + j)%nat with (k + S j)%nat by lia.
      apply Hok. lia.
    + replace (S k + i)%nat with (k + S i)%nat by lia. exact He.
Qed.

(** Whatever the storage does, the calls made are those of a prefix
    of the documents, in order; the save returns only after the last
    of them. *)
Lemma write_all_cases (docs : list (string * document)) (k : nat) :
  (write_all stac_io k docs = (write_events docs, Ok tt) /\
   forall i, (i < List.length docs)%nat -> stac_io (k + i) = None)
  \/
  (exists i e,
     (i < List.length docs)%nat /\
     (forall j, (j < i)%nat -> stac_io (k + j) = None) /\
     stac_io (k + i) = Some e /\
     write_all stac_io k docs = (write_events (firstn (S i) docs), Raise e)).
Proof.
  revert k. induction docs as [| [h d] docs IH]; intros k.
  - left. split; [reflexivity |]. intros i Hi. cbn in Hi. lia.
  - destruct (stac_io k) as [e |] eqn:Hk.
    + right. exists O, e. rewrite Nat.add_0_r.
      split; [cbn; lia |]. split; [intros j Hj; lia |].
      split; [exact Hk |]. cbn [write_all]. rewrite Hk. reflexivity.
    + destruct (IH (S k)) as [[Hrun Hok] | (i & e & Hi & Hok & He & Hrun)].
      * left. split.
        -- cbn [write_all]. rewrite Hk. unfold io_bind, io_emit.
           rewrite Hrun. reflexivity.
        -- intros [| i] Hi; [rewrite Nat.add_0_r; exact Hk |].
           replace (k + S i)%nat with (S k + i)%nat by lia.
           apply Hok. cbn in Hi. lia.
      * right. exists (S i), e.
        split; [cbn; lia |].
        split.
        { intros [| j] Hj; [rewrite Nat.add_0_r; exact Hk |].
          replace (k + S j)%nat with (S k + j)%nat by lia.
          apply Hok. lia. }
        split; [replace (k + S i)%nat with (S k + i)%nat by lia; exact He |].
        cbn [write_all]. rewrite Hk. unfold io_bind, io_emit.
        rewrite Hrun. reflexivity.
Qed.

Lemma save_returns (c : Collection) :
  writes_return stac_io (S (List.length (coll_items c))) ->
  save stac_io c = (write_events (documents c), Ok tt).
Proof.
  intros Hok. unfold save. apply write_all_returns.
  intros i Hi. rewrite documents_length in Hi. apply Hok. exact Hi.
Qed.

(** Once the item documents are written, the collection document is
    handed to the storage, whether that last call returns or not. *)
Lemma save_reaches_collection (c : Collection) :
  writes_return stac_io (List.length (coll_items c)) ->
  fst (save stac_io c) = write_events (documents c).
Proof.
  intros Hok. unfold save.
  destruct (write_all_cases (documents c) 0)
    as [[Hrun _] | (i & e & Hi & Hbefore & He & Hrun)];
    rewrite Hrun; cbn [fst]; [reflexivity |].
  rewrite documents_length in Hi.
  assert (i = List.length (coll_items c)) as ->.
  { destruct (Nat.lt_ge_cases i (List.length (coll_items c))) as [Hlt | Hge];
      [| lia].
    cbn [Nat.add] in He. rewrite (Hok i Hlt) in He. discriminate. }
  rewrite <- documents_length, firstn_all. reflexivity.
Qed.

(** The calls of a save, in every case. *)
Lemma save_prefix (c : Collection) :
  exists n,
    (1 <= n <= S (List.length (coll_items c)))%nat /\
    fst (save stac_io c) = write_events (firstn n (documents c)) /\
    (snd (save stac_io c) = Ok tt ->
     n = S (List.length (coll_items c)) /\
     writes_return stac_io (S (List.length (coll_items c)))) /\
    (forall e, snd (save stac_io c) = Raise e ->
               stac_io (Nat.pred n) = Some e /\
               writes_return stac_io (Nat.pred n)).
Proof.
  unfold save.
  destruct (write_all_cases (documents c) 0)
    as [[Hrun Hok] | (i & e & Hi & Hbefore & He & Hrun)];
    rewrite Hrun; cbn [fst snd]; rewrite documents_length in *.
  - exists (S (List.length (coll_items c))).
    split; [lia |].
    split; [rewrite <- documents_length, firstn_all; reflexivity |].
    split; [| discriminate].
    intros _. split; [reflexivity |]. intros k Hk. exact (Hok k Hk).
  - exists (S i). split; [lia |]. split; [reflexivity |].
    split; [discriminate |].
    intros e' [= <-]. cbn [Nat.pred]. split; [exact He |].
    intros j Hj. exact (Hbefore j Hj).
Qed.

End SaveFacts.

Section CatalogFacts.

Variable validate_item : Item -> option exn.
Variable validate_collection : Collection -> option exn.
Variable format_exc : exn -> list string.
Variable make_absolute_href : string -> string.
Variable stac_io : nat -> option exn.
Variables (root : Path) (collection_id : string).
Variables (item_props_src collection_props_src :
             option (result (gmap string json))).
Variable tree : list (Path * file).

Local Abbreviation run :=
  (build_catalog validate_item validate_collection format_exc
     make_absolute_href stac_io root collection_id item_props_src
     collection_props_src tree).

Local Abbreviation setup :=
  [EvMkdir (path_str (root ++ ["items"])); EvSetDefaultStacIO].

(** Every accepted file contributes numeric bounds and UTC cells. *)
Lemma accepted_all (item_props : gmap string json)
    (files : list (Path * file))
    (rs : list (Item * (BBox * tsval * tsval * Z))) :
  Forall2 (accepted validate_item root item_props) files rs ->
  Forall bbox_numeric (List.map (fun r => summary_bbox (snd r)) rs) /\
  Forall utc_cell (List.map (fun r => summary_start (snd r)) rs) /\
  Forall utc_cell (List.map (fun r => summary_end (snd r)) rs) /\
  List.map (fun r => item_id (fst r)) rs = List.map (fun pf => stem (fst pf)) files /\
  List.map (fun r => item_bbox (fst r)) rs = List.map (fun r => summary_bbox (snd r)) rs /\
  List.map (fun r => item_datetime (fst r)) rs = List.map (fun r => summary_start (snd r)) rs /\
  List.map (fun r => item_row_count (fst r)) rs = List.map (fun r => summary_rows (snd r)) rs.
Proof.
  induction 1 as [| [rel f] r files rs [Hitem _] _ IH].
  - repeat split; constructor.
  - destruct IH as (I1 & I2 & I3 & I4 & I5 & I6 & I7).
    destruct (item_of_file_summary _ _ _ _ _ Hitem)
      as (H1 & H2 & H3 & H4 & H5 & H6 & H7).
    cbn [List.map fst].
    repeat split; try (constructor; assumption); congruence.
Qed.

(** The run over accepted files: the two set-up effects, the calls of
    the save, then the outcome of the validation after saving when the
    save returned. *)
Lemma build_catalog_accepted (item_props collection_props : gmap string json)
    (rs : list (Item * (BBox * tsval * tsval * Z))) (bb : BBox)
    (c : Collection) :
  load_props item_props_src = Ok item_props ->
  load_props collection_props_src = Ok collection_props ->
  Forall2 (accepted validate_item root item_props)
    (sorted (rglob_parquet tree)) rs ->
  overall_bbox (fold_left accumulate rs init_state) = Some bb ->
  make_collection make_absolute_href root collection_id collection_props
    (fold_left accumulate rs init_state) bb = Ok c ->
  run =
    match snd (save stac_io c) with
    | Raise e => (setup ++ fst (save stac_io c), Raise e)
    | Ok _ =>
        match post_save_failure validate_item validate_collection c with
        | Some e =>
            (setup ++ fst (save stac_io c)
               ++ [EvPrint (join_parts
                     (("ERROR: Post-save validation failed for collection '"
                         +:+ coll_id c +:+ "': " +:+ exn_msg e)
                      :: error_lines e ++ format_exc e))],
             Raise (reraise e
               ("Validation failed after saving STAC catalog for '"
                  +:+ coll_id c +:+ "': " +:+ exn_msg e)))
        | None => (setup ++ fst (save stac_io c), Ok tt)
        end
    end.
Proof.
  intros Hip Hcp Hrs Hbb Hc.
  unfold build_catalog, io_bind, io_emit, io_lift.
  rewrite Hip, Hcp.
  rewrite (loop_accept validate_item format_exc root item_props _ rs init_state Hrs).
  rewrite Hbb, Hc. unfold io_raise, io_ret.
  destruct (save stac_io c) as [tr [[] | e]]; cbn [fst snd app];
    [| reflexivity].
  destruct (post_save_failure validate_item validate_collection c);
    cbn [app fst]; rewrite ?app_nil_r, <- ?app_assoc; reflexivity.
Qed.

End CatalogFacts.

Lemma bbox_numeric_components (bbs : list BBox) :
  Forall bbox_numeric bbs ->
  Forall (fun x => is_nan x = false) (List.map minx bbs) /\
  Forall (fun x => is_nan x = false) (List.map miny bbs) /\
  Forall (fun x => is_nan x = false) (List.map maxx bbs) /\
  Forall (fun x => is_nan x = false) (List.map maxy bbs).
Proof.
  induction 1 as [| b bbs (H1 & H2 & H3 & H4) _ (I1 & I2 & I3 & I4)];
    repeat split; constructor; assumption.
Qed.

(** The extent aggregated over a non-empty run of numeric boxes. *)
Lemma merged_bbox_is_min_max (b : BBox) (bbs : list BBox) :
  Forall bbox_numeric (b :: bbs) ->
  let bb := mkBBox (fold_left py_min (List.map minx bbs) (minx b))
                   (fold_left py_min (List.map miny bbs) (miny b))
                   (fold_left py_max (List.map maxx bbs) (maxx b))
                   (fold_left py_max (List.map maxy bbs) (maxy b)) in
  is_min (minx bb) (List.map minx (b :: bbs)) /\
  is_min (miny bb) (List.map miny (b :: bbs)) /\
  is_max (maxx bb) (List.map maxx (b :: bbs)) /\
  is_max (maxy bb) (List.map maxy (b :: bbs)).
Proof.
  intros H. inversion H as [| ? ? (H1 & H2 & H3 & H4) Hbbs]; subst.
  destruct (bbox_numeric_components bbs Hbbs) as (I1 & I2 & I3 & I4).
  cbv zeta. cbn [minx miny maxx maxy List.map].
  repeat split;
    first [ apply (fold_py_min_spec _ _ H1 I1) | apply (fold_py_min_spec _ _ H2 I2)
          | apply (fold_py_max_spec _ _ H3 I3) | apply (fold_py_max_spec _ _ H4 I4) ].
Qed.

(** The collection built by a run over accepted files, and what the
    run writes of it. *)
Lemma collection_of_accepted_run :
  forall (validate_item : Item -> option exn)
          (validate_collection : Collection -> option exn)
          (format_exc : exn -> list string)
          (make_absolute_href : string -> string)
          (stac_io : nat -> option exn)
          (root : Path) (collection_id : string)
          (item_props_src collection_props_src :
             option (result (gmap string json)))
          (tree : list (Path * file))
          (item_props collection_props : gmap string json)
          (rs : list (Item * (BBox * tsval * tsval * Z))),
     load_props item_props_src = Ok item_props ->
     load_props collection_props_src = Ok collection_props ->
     Forall2 (accepted validate_item root item_props)
       (sorted (rglob_parquet tree)) rs ->
     rs <> [] ->
     let run := build_catalog validate_item validate_collection format_exc
                  make_absolute_href stac_io root collection_id
                  item_props_src collection_props_src tree in
     let bboxes := List.map (fun r => item_bbox (fst r)) rs in
     exists c bb tmin tmax,
       (exists n, (1 <= n)%nat /\
                  writes (fst run) = firstn n (documents c)) /\
       (writes_return stac_io (List.length rs) ->
        written_collection (fst run) = Some c) /\
       (writes_return stac_io (S (List.length rs)) ->
        post_save_failure validate_item validate_collection c = None ->
        snd run = Ok tt) /\
       coll_items c
       = List.map (fun r => link_item make_absolute_href root collection_id
                              (fst r)) rs /\
       coll_spatial_extent c = [bb] /\
       is_min (minx bb) (List.map minx bboxes) /\
       is_min (miny bb) (List.map miny bboxes) /\
       is_max (maxx bb) (List.map maxx bboxes) /\
       is_max (maxy bb) (List.map maxy bboxes) /\
       coll_temporal_extent c = [(tmin, tmax)] /\
       earliest tmin (List.map (fun r => item_datetime (fst r)) rs) /\
       latest tmax (List.map (fun r => summary_end (snd r)) rs) /\
       List.map table_row_count (coll_tables c)
       = [sum_Z (List.map (fun r => item_row_count (fst r)) rs)].
Proof.
  intros validate_item validate_collection format_exc make_absolute_href
    stac_io root collection_id
    ips cps tree item_props collection_props rs Hip Hcp Hrs Hne run bboxes.
  destruct (accepted_all validate_item root item_props _ rs Hrs)
    as (Hnum & Hst & Hen & _ & Hbbox & Hdt & Hrows).
  destruct rs as [| r rs']; [congruence |].
  set (rs := r :: rs') in *.
  set (st := fold_left accumulate rs init_state).
  pose proof (acc_overall_bbox_init r rs') as Hbb. cbv zeta in Hbb.
  fold rs in Hbb. fold st in Hbb.
  set (bb := mkBBox _ _ _ _) in Hbb.
  assert (Hstarts : start_times st = List.map (fun r => summary_start (snd r)) rs).
  { unfold st. rewrite acc_start_times. reflexivity. }
  assert (Hends : end_times st = List.map (fun r => summary_end (snd r)) rs).
  { unfold st. rewrite acc_end_times. reflexivity. }
  assert (Htotal : total_rows st = sum_Z (List.map (fun r => summary_rows (snd r)) rs)).
  { unfold st. rewrite acc_total_rows. reflexivity. }
  assert (Hitems : items st = List.map fst rs).
  { unfold st. rewrite acc_items. reflexivity. }
  assert (Hsne : List.map (fun r => summary_start (snd r)) rs <> [])
    by (unfold rs; discriminate).
  assert (Hene : List.map (fun r => summary_end (snd r)) rs <> [])
    by (unfold rs; discriminate).
  destruct (py_min_list_utc _ Hsne Hst) as (tmin & Hmin & Hearliest).
  destruct (py_max_list_utc _ Hene Hen) as (tmax & Hmax & Hlatest).
  set (c := mkCollection collection_id DESCRIPTION [bb] [(tmin, tmax)]
              collection_props
              [mkTable "owi" "Sentinel-1 Ocean Wind Field measurements"
                 COLUMN_DEFS (total_rows st)]
              (List.map (link_item make_absolute_href root collection_id)
                 (items st))
              (Some (collection_href (root_href make_absolute_href root)))).
  assert (Hc : make_collection make_absolute_href root collection_id
                 collection_props st bb = Ok c).
  { unfold make_collection. rewrite Hstarts, Hends, Hmin, Hmax. reflexivity. }
  assert (Hlen : List.length (coll_items c) = List.length rs).
  { cbn [coll_items c]. rewrite Hitems, !length_map. reflexivity. }
  pose proof (build_catalog_accepted validate_item validate_collection
                format_exc make_absolute_href stac_io root collection_id
                ips cps tree item_props
                collection_props rs bb c Hip Hcp Hrs Hbb Hc) as Hrun.
  fold run in Hrun.
  exists c, bb, tmin, tmax.
  split.
  { destruct (save_prefix stac_io c) as (n & Hn & Htr & _).
    exists n. split; [lia |].
    rewrite Hrun.
    destruct (snd (save stac_io c)) as [[] | e]; cbn [fst];
      [destruct (post_save_failure validate_item validate_collection c);
       cbn [fst] |];
      rewrite ?writes_app, Htr, writes_write_events;
      cbn [writes flat_map app]; rewrite ?app_nil_r; reflexivity. }
  split.
  { intros Hok. rewrite <- Hlen in Hok.
    pose proof (save_reaches_collection stac_io c Hok) as Htr.
    rewrite Hrun.
    destruct (snd (save stac_io c)) as [[] | e]; cbn [fst];
      [destruct (post_save_failure validate_item validate_collection c);
       cbn [fst] |];
      rewrite Htr.
    - apply written_collection_documents. reflexivity.
    - rewrite <- (app_nil_r (write_events (documents c))).
      apply written_collection_documents. reflexivity.
    - rewrite <- (app_nil_r (write_events (documents c))).
      apply written_collection_documents. reflexivity. }
  split.
  { intros Hok Hpost. rewrite <- Hlen in Hok.
    rewrite Hrun, (save_returns stac_io c Hok), Hpost. reflexivity. }
  split.
  { cbn [coll_items c]. rewrite Hitems, List.map_map. reflexivity. }
  split; [reflexivity |].
  assert (Hmm := merged_bbox_is_min_max (summary_bbox (snd r))
                   (List.map (fun r => summary_bbox (snd r)) rs') Hnum).
  cbv zeta in Hmm. fold bb in Hmm.
  unfold bboxes. rewrite Hbbox.
  destruct Hmm as (M1 & M2 & M3 & M4).
  repeat (split; [assumption |]).
  split; [reflexivity |].
  rewrite Hdt. split; [exact Hearliest |]. split; [exact Hlatest |].
  cbn [coll_tables c List.map table_row_count].
  rewrite Htotal, Hrows. reflexivity.
Qed.

(** C1.  When every Parquet file found is accepted and there is at
    least one, the run builds and saves a collection whose items are
    the items of the files, linked to it; whose spatial extent is the
    single box made of the least lower bounds and greatest upper
    bounds of the item boxes; whose temporal extent runs from an
    earliest item start to a latest item end; and whose table row
    count is the sum of the item row counts.  What the run hands to
    the storage is always a leading part of the documents of that
    collection; the collection document itself is written once the
    item documents are, and the run returns normally when every write
    returns and the validation after saving passes.  On the two-file
    example the extent is [-10, 40, -8, 42], from 2021-01-01T00:00Z to
    2021-01-02T01:00Z, with 8 rows and the two items [a] and [b]
    linked. *)
Theorem collection_extent_aggregates :
  (forall (validate_item : Item -> option exn)
          (validate_collection : Collection -> option exn)
          (format_exc : exn -> list string)
          (make_absolute_href : string -> string)
          (stac_io : nat -> option exn)
          (root : Path) (collection_id : string)
          (item_props_src collection_props_src :
             option (result (gmap string json)))
          (tree : list (Path * file))
          (item_props collection_props : gmap string json)
          (rs : list (Item * (BBox * tsval * tsval * Z))),
     load_props item_props_src = Ok item_props ->
     load_props collection_props_src = Ok collection_props ->
     Forall2 (accepted validate_item root item_props)
       (sorted (rglob_parquet tree)) rs ->
     rs <> [] ->
     let run := build_catalog validate_item validate_collection format_exc
                  make_absolute_href stac_io root collection_id
                  item_props_src collection_props_src tree in
     let bboxes := List.map (fun r => item_bbox (fst r)) rs in
     exists c bb tmin tmax,
       (exists n, (1 <= n)%nat /\
                  writes (fst run) = firstn n (documents c)) /\
       (writes_return stac_io (List.length rs) ->
        written_collection (fst run) = Some c) /\
       (writes_return stac_io (S (List.length rs)) ->
        post_save_failure validate_item validate_collection c = None ->
        snd run = Ok tt) /\
       coll_items c
       = List.map (fun r => link_item make_absolute_href root collection_id
                              (fst r)) rs /\
       coll_spatial_extent c = [bb] /\
       is_min (minx bb) (List.map minx bboxes) /\
       is_min (miny bb) (List.map miny bboxes) /\
       is_max (maxx bb) (List.map maxx bboxes) /\
       is_max (maxy bb) (List.map maxy bboxes) /\
       coll_temporal_extent c = [(tmin, tmax)] /\
       earliest tmin (List.map (fun r => item_datetime (fst r)) rs) /\
       latest tmax (List.map (fun r => summary_end (snd r)) rs) /\
       List.map table_row_count (coll_tables c)
       = [sum_Z (List.map (fun r => item_row_count (fst r)) rs)])
  /\
  (snd Example.run = Ok tt /\
   option_map
     (fun c => (coll_spatial_extent c, coll_temporal_extent c,
                List.map table_row_count (coll_tables c),
                List.map item_id (coll_items c),
                List.map item_collection (coll_items c)))
     (written_collection (fst Example.run))
   = Some ([mkBBox (of_Z (-10)) (of_Z 40) (of_Z (-8)) (of_Z 42)],
           [(Example.at_ 1 0 0, Example.at_ 2 1 0)],
           [8], ["a"; "b"], [Some "sar-owi"; Some "sar-owi"])).
Proof.
  split; [exact collection_of_accepted_run |].
  split; vm_compute; reflexivity.
Qed.

(** ** The order on paths and [sorted] *)

Lemma string_compare_refl (x : string) : String.compare x x = Eq.
Proof. apply (proj2 (String_as_OT.cmp_eq x x)). reflexivity. Qed.

Lemma string_compare_trans_lt (x y z : string) :
  String.compare x y = Lt -> String.compare y z = Lt -> String.compare x z = Lt.
Proof.
  intros Hxy Hyz.
  apply String_as_OT.cmp_lt. apply String_as_OT.cmp_lt in Hxy, Hyz.
  eapply String_as_OT.lt_trans; eassumption.
Qed.

Lemma path_ltb_irrefl (a : Path) : path_ltb a a = false.
Proof.
  induction a as [| x a IH]; [reflexivity |].
  cbn [path_ltb]. rewrite string_compare_refl. exact IH.
Qed.

Lemma path_ltb_trans (a b c : Path) :
  path_ltb a b = true -> path_ltb b c = true -> path_ltb a c = true.
Proof.
  revert b c. induction a as [| x a IH]; intros [| y b] [| z c] Hab Hbc;
    cbn [path_ltb] in *; try discriminate; try reflexivity.
  destruct (String.compare x y) eqn:Exy; try discriminate;
    destruct (String.compare y z) eqn:Eyz; try discriminate.
  - apply String.compare_eq_iff in Exy, Eyz. subst.
    rewrite string_compare_refl. eapply IH; eassumption.
  - apply String.compare_eq_iff in Exy. subst. rewrite Eyz. reflexivity.
  - apply String.compare_eq_iff in Eyz. subst. rewrite Exy. reflexivity.
  - rewrite (string_compare_trans_lt x y z Exy Eyz). reflexivity.
Qed.

Lemma path_ltb_total (a b : Path) :
  path_ltb a b = false -> path_ltb b a = false -> a = b.
Proof.
  revert b. induction a as [| x a IH]; intros [| y b] Hab Hba;
    cbn [path_ltb] in *; try discriminate; try reflexivity.
  rewrite (String.compare_antisym y x) in Hba.
  destruct (String.compare x y) eqn:Exy; cbn [CompOpp] in Hba;
    try discriminate.
  apply String.compare_eq_iff in Exy. subst. f_equal. apply IH; assumption.
Qed.

Lemma insert_sorted_perm (x : Path * file) (l : list (Path * file)) :
  Permutation (insert_sorted x l) (x :: l).
Proof.
  induction l as [| y l IH]; cbn [insert_sorted]; [reflexivity |].
  destruct (path_ltb (fst y) (fst x)); [| reflexivity].
  rewrite IH. apply perm_swap.
Qed.

Lemma sorted_perm (l : list (Path * file)) : Permutation (sorted l) l.
Proof.
  induction l as [| x l IH]; [reflexivity |].
  cbn [sorted fold_right]. fold (sorted l).
  rewrite insert_sorted_perm. constructor. exact IH.
Qed.

Lemma insert_sorted_strongly (x : Path * file) (l : list (Path * file)) :
  ~ In (fst x) (List.map fst l) ->
  StronglySorted path_lt l -> StronglySorted path_lt (insert_sorted x l).
Proof.
  intros Hfresh Hs. induction Hs as [| y l Hs IH Hall].
  - repeat constructor.
  - cbn [insert_sorted].
    assert (Hxy : fst x <> fst y) by (intros E; apply Hfresh; left; congruence).
    assert (Hfresh' : ~ In (fst x) (List.map fst l))
      by (intros Hin; apply Hfresh; right; exact Hin).
    destruct (path_ltb (fst y) (fst x)) eqn:Eyx.
    + constructor; [apply IH; exact Hfresh' |].
      eapply Permutation_Forall; [symmetry; apply insert_sorted_perm |].
      constructor; assumption.
    + assert (Hlt : path_lt x y).
      { unfold path_lt.
        destruct (path_ltb (fst x) (fst y)) eqn:Exy; [reflexivity |].
        exfalso. apply Hxy. apply path_ltb_total; assumption. }
      constructor; [constructor; assumption |].
      constructor; [exact Hlt |].
      eapply List.Forall_impl; [| exact Hall].
      intros z Hz. unfold path_lt in *. eapply path_ltb_trans; eassumption.
Qed.

Lemma sorted_strongly (l : list (Path * file)) :
  List.NoDup (List.map fst l) -> StronglySorted path_lt (sorted l).
Proof.
  induction l as [| x l IH]; intros Hnd; [constructor |].
  cbn [sorted fold_right]. fold (sorted l).
  inversion Hnd as [| ? ? Hx Hnd']; subst.
  apply insert_sorted_strongly; [| apply IH; exact Hnd'].
  intros Hin. apply Hx.
  eapply Permutation_in; [| exact Hin].
  apply Permutation_map. apply sorted_perm.
Qed.

(** A strictly sorted list is determined by its elements. *)
Lemma strongly_sorted_unique (l1 l2 : list (Path * file)) :
  StronglySorted path_lt l1 -> StronglySorted path_lt l2 ->
  Permutation l1 l2 -> l1 = l2.
Proof.
  intros H1. revert l2. induction H1 as [| x l1 H1 IH Hall1]; intros l2 H2 Hp.
  - apply Permutation_nil in Hp. congruence.
  - destruct H2 as [| y l2 H2 Hall2].
    + apply Permutation_sym, Permutation_nil in Hp. discriminate.
    + assert (Hxy : x = y).
      { assert (Hx : In x (y :: l2))
          by (eapply Permutation_in; [exact Hp | left; reflexivity]).
        assert (Hy : In y (x :: l1))
          by (eapply Permutation_in; [symmetry; exact Hp | left; reflexivity]).
        destruct Hx as [Hx | Hx]; [congruence |].
        destruct Hy as [Hy | Hy]; [congruence |].
        rewrite List.Forall_forall in Hall1, Hall2.
        specialize (Hall1 y Hy). specialize (Hall2 x Hx).
        unfold path_lt in *.
        pose proof (path_ltb_trans _ _ _ Hall1 Hall2) as Hbad.
        rewrite path_ltb_irrefl in Hbad. discriminate. }
      subst y. f_equal. apply IH; [exact H2 |].
      eapply Permutation_cons_inv. exact Hp.
Qed.

Lemma rglob_parquet_perm (tree tree' : list (Path * file)) :
  Permutation tree tree' ->
  Permutation (rglob_parquet tree) (rglob_parquet tree').
Proof.
  unfold rglob_parquet. induction 1 as [| x l l' _ IH | x y l | l l' l'' _ IH1 _ IH2].
  - reflexivity.
  - cbn [List.filter]. destruct (endswith _ _); [constructor |]; exact IH.
  - cbn [List.filter].
    destruct (endswith (name (fst x)) _), (endswith (name (fst y)) _);
      try reflexivity. apply perm_swap.
  - etransitivity; eassumption.
Qed.

Lemma rglob_parquet_nodup (tree : list (Path * file)) :
  List.NoDup (List.map fst tree) -> List.NoDup (List.map fst (rglob_parquet tree)).
Proof.
  unfold rglob_parquet. induction tree as [| x tree IH]; intros Hnd;
    [constructor |].
  inversion Hnd as [| ? ? Hx Hnd']; subst.
  cbn [List.filter]. destruct (endswith _ _); [| apply IH; exact Hnd'].
  cbn [List.map]. constructor; [| apply IH; exact Hnd'].
  intros Hin. apply Hx. apply in_map_iff in Hin as (z & Hz & Hin).
  apply filter_In in Hin as [Hin _].
  apply in_map_iff. exists z. split; assumption.
Qed.

(** The sorted enumeration does not depend on the order of the scan. *)
Lemma sorted_rglob_stable (tree tree' : list (Path * file)) :
  List.NoDup (List.map fst tree) -> Permutation tree tree' ->
  sorted (rglob_parquet tree) = sorted (rglob_parquet tree').
Proof.
  intros Hnd Hp.
  assert (Hnd' : List.NoDup (List.map fst tree')).
  { eapply Permutation_NoDup; [| exact Hnd]. apply Permutation_map. exact Hp. }
  apply strongly_sorted_unique.
  - apply sorted_strongly, rglob_parquet_nodup, Hnd.
  - apply sorted_strongly, rglob_parquet_nodup, Hnd'.
  - rewrite !sorted_perm. apply rglob_parquet_perm. exact Hp.
Qed.

(** ** Runs that fail before anything is written *)

Section FailingRuns.

Variable validate_item : Item -> option exn.
Variable validate_collection : Collection -> option exn.
Variable format_exc : exn -> list string.
Variable make_absolute_href : string -> string.
Variable stac_io : nat -> option exn.
Variables (root : Path) (collection_id : string).
Variables (item_props_src collection_props_src :
             option (result (gmap string json))).
Variable tree : list (Path * file).

Local Abbreviation run :=
  (build_catalog validate_item validate_collection format_exc
     make_absolute_href stac_io root collection_id item_props_src
     collection_props_src tree).

(** Up to the end of the loop the run only creates the items
    directory and installs the I/O adapter. *)
Lemma build_catalog_loop_raises (item_props collection_props : gmap string json)
    (tr : list BuildSarCatalog.event) (e : exn) :
  load_props item_props_src = Ok item_props ->
  load_props collection_props_src = Ok collection_props ->
  loop validate_item format_exc root item_props
    (sorted (rglob_parquet tree)) init_state = (tr, Raise e) ->
  run = ([EvMkdir (path_str (root ++ ["items"])); EvSetDefaultStacIO] ++ tr,
         Raise e).
Proof.
  intros Hip Hcp Hloop. unfold build_catalog, io_bind, io_emit, io_lift.
  rewrite Hip, Hcp, Hloop. reflexivity.
Qed.

(** A run whose loop meets a file that cannot be accepted raises and
    writes no document. *)
Lemma build_catalog_rejects (pf : Path * file) :
  In pf (rglob_parquet tree) ->
  (forall item_props r, ~ accepted validate_item root item_props pf r) ->
  (exists e, snd run = Raise e) /\ writes (fst run) = [].
Proof.
  intros Hin Hno.
  destruct (load_props item_props_src) as [p | e1] eqn:Hip.
  - destruct (load_props collection_props_src) as [q | e2] eqn:Hcp.
    + assert (Hin' : In pf (sorted (rglob_parquet tree))).
      { eapply Permutation_in; [symmetry; apply sorted_perm | exact Hin]. }
      destruct (loop_raises validate_item format_exc root p _ pf init_state
                  Hin' (Hno p)) as (tr & e & Hloop & Hw).
      rewrite (build_catalog_loop_raises p q tr e Hip Hcp Hloop).
      split; [exists e; reflexivity |].
      cbn [fst]. rewrite writes_app, Hw. reflexivity.
    + unfold build_catalog, io_bind, io_emit, io_lift. rewrite Hip, Hcp.
      split; [exists e2; reflexivity | reflexivity].
  - unfold build_catalog, io_bind, io_emit, io_lift. rewrite Hip.
    split; [exists e1; reflexivity | reflexivity].
Qed.

End FailingRuns.

Lemma bbox_and_times_empty (parquet_path : string) (num_rows : Z) :
  _bbox_and_times parquet_path (ParquetFile [] num_rows)
  = Raise (Exn ValueError ("No geometry column in " +:+ parquet_path) None).
Proof. reflexivity. Qed.

Lemma empty_file_not_accepted (validate_item : Item -> option exn)
    (root : Path) (item_props : gmap string json) (rel : Path) (num_rows : Z)
    (r : Item * (BBox * tsval * tsval * Z)) :
  ~ accepted validate_item root item_props (rel, ParquetFile [] num_rows) r.
Proof. intros [H _]. discriminate. Qed.

(** C4.  The summarizer raises [ValueError] (the spec's
    [EmptyFileError]) on a file whose geometry column is empty.  A run
    that finds such a file raises and writes no document; when the
    files sorted before it are accepted, the exception raised by the
    run is that very [ValueError], after the two set-up effects only. *)
Theorem empty_file_aborts_run
    (validate_item : Item -> option exn)
    (validate_collection : Collection -> option exn)
    (format_exc : exn -> list string)
    (make_absolute_href : string -> string) (stac_io : nat -> option exn)
    (root : Path) (collection_id : string)
    (item_props_src collection_props_src : option (result (gmap string json)))
    (tree : list (Path * file)) (rel : Path) (num_rows : Z) :
  In (rel, ParquetFile [] num_rows) (rglob_parquet tree) ->
  let run := build_catalog validate_item validate_collection format_exc
               make_absolute_href stac_io root collection_id item_props_src
               collection_props_src tree in
  let parquet_path := path_str (root ++ "assets" :: rel) in
  _bbox_and_times parquet_path (ParquetFile [] num_rows)
  = Raise (Exn ValueError ("No geometry column in " +:+ parquet_path) None) /\
  (exists e, snd run = Raise e) /\
  writes (fst run) = [] /\
  (forall item_props collection_props pre post rs,
     load_props item_props_src = Ok item_props ->
     load_props collection_props_src = Ok collection_props ->
     sorted (rglob_parquet tree)
     = pre ++ (rel, ParquetFile [] num_rows) :: post ->
     Forall2 (accepted validate_item root item_props) pre rs ->
     run = ([EvMkdir (path_str (root ++ ["items"])); EvSetDefaultStacIO],
            Raise (Exn ValueError
                     ("No geometry column in " +:+ parquet_path) None))).
Proof.
  intros Hin run parquet_path.
  split; [reflexivity |].
  destruct (build_catalog_rejects validate_item validate_collection format_exc
              make_absolute_href stac_io root collection_id item_props_src
              collection_props_src tree
              (rel, ParquetFile [] num_rows) Hin) as [Hraise Hw].
  { intros p r. apply empty_file_not_accepted. }
  split; [exact Hraise |]. split; [exact Hw |].
  intros item_props collection_props pre post rs Hip Hcp Hsorted Hpre.
  unfold run.
  rewrite (build_catalog_loop_raises validate_item validate_collection
             format_exc make_absolute_href stac_io root collection_id
             item_props_src collection_props_src
             tree item_props collection_props []
             (Exn ValueError ("No geometry column in " +:+ parquet_path) None)
             Hip Hcp).
  - reflexivity.
  - rewrite Hsorted. apply (loop_stops _ _ _ _ _ _ _ rs); [exact Hpre |].
    reflexivity.
Qed.

(** C5.  When no file under the assets directory matches [*.parquet],
    the run raises and writes no document; once the two property
    overlays have loaded, it performs the two set-up effects, finds
    the accumulators untouched after the loop, and raises
    [RuntimeError] (the spec's [EmptyCatalogError]). *)
Theorem no_parquet_files_raises
    (validate_item : Item -> option exn)
    (validate_collection : Collection -> option exn)
    (format_exc : exn -> list string)
    (make_absolute_href : string -> string) (stac_io : nat -> option exn)
    (root : Path) (collection_id : string)
    (item_props_src collection_props_src : option (result (gmap string json)))
    (tree : list (Path * file)) :
  rglob_parquet tree = [] ->
  let run := build_catalog validate_item validate_collection format_exc
               make_absolute_href stac_io root collection_id item_props_src
               collection_props_src tree in
  (exists e, snd run = Raise e) /\
  writes (fst run) = [] /\
  (forall item_props collection_props,
     load_props item_props_src = Ok item_props ->
     load_props collection_props_src = Ok collection_props ->
     loop validate_item format_exc root item_props
       (sorted (rglob_parquet tree)) init_state = ([], Ok init_state) /\
     run = ([EvMkdir (path_str (root ++ ["items"])); EvSetDefaultStacIO],
            Raise (Exn RuntimeError
                     "No Parquet files found under assets directory" None))).
Proof.
  intros Hnone run. unfold run, build_catalog, io_bind, io_emit, io_lift.
  rewrite Hnone. cbn [sorted fold_right loop io_ret].
  destruct (load_props item_props_src) as [p | e1].
  - destruct (load_props collection_props_src) as [q | e2].
    + split; [eexists; reflexivity |]. split; [reflexivity |].
      intros ? ? _ _. split; reflexivity.
    + split; [eexists; reflexivity |]. split; [reflexivity |].
      intros ? ? _ [=].
  - split; [eexists; reflexivity |]. split; [reflexivity |].
    intros ? ? [=].
Qed.

(** ** Item identifiers *)

Lemma rfind_dot_parquet (s : string) :
  rfind_dot (s +:+ ".parquet") = Some (String.length s).
Proof.
  induction s as [| c s IH]; [reflexivity |].
  rewrite string_app_cons. cbn [rfind_dot String.length]. rewrite IH.
  reflexivity.
Qed.

Lemma stem_of_parquet_name (s : string) :
  s <> "" -> stem_of_name (s +:+ ".parquet") = s.
Proof.
  intros Hs. unfold stem_of_name. rewrite rfind_dot_parquet.
  rewrite string_length_app. cbn [String.length].
  assert (Hpos : (0 < String.length s)%nat).
  { destruct s; [congruence | cbn; lia]. }
  destruct (Nat.ltb_spec 0 (String.length s)); [| lia].
  destruct (Nat.ltb_spec (String.length s) (String.length s + 8 - 1));
    [| lia].
  cbn [andb]. apply substring_0_app.
Qed.

Lemma string_app_inj_l (a b suffix : string) :
  a +:+ suffix = b +:+ suffix -> a = b.
Proof.
  intros H.
  assert (Hlen : String.length a = String.length b).
  { apply (f_equal String.length) in H. rewrite !string_length_app in H. lia. }
  rewrite <- (substring_0_app a suffix), <- (substring_0_app b suffix).
  rewrite H, Hlen. reflexivity.
Qed.

(** A name matched by [*.parquet], other than the bare [.parquet], is
    its stem followed by the extension. *)
Lemma parquet_name_stem (nm : string) :
  endswith nm ".parquet" = true -> nm <> ".parquet" ->
  nm = stem_of_name nm +:+ ".parquet".
Proof.
  intros Hend Hbare. apply endswith_inv in Hend as [s ->].
  rewrite stem_of_parquet_name; [reflexivity |].
  intros ->. apply Hbare. reflexivity.
Qed.

(** The identifier of an item is the stem of the last component of
    its file's path.  For two files matched by [*.parquet], neither
    named just [.parquet], the two identifiers differ exactly when the
    two file names differ: the directories in which the files lie play
    no part. *)
Theorem item_ids_distinct_iff_names_distinct
    (root : Path) (item_props : gmap string json)
    (rel1 rel2 : Path) (f1 f2 : file)
    (r1 r2 : Item * (BBox * tsval * tsval * Z)) :
  endswith (name rel1) ".parquet" = true ->
  endswith (name rel2) ".parquet" = true ->
  name rel1 <> ".parquet" -> name rel2 <> ".parquet" ->
  item_of_file root item_props (rel1, f1) = Ok r1 ->
  item_of_file root item_props (rel2, f2) = Ok r2 ->
  item_id (fst r1) = stem_of_name (name rel1) /\
  item_id (fst r2) = stem_of_name (name rel2) /\
  (item_id (fst r1) <> item_id (fst r2) <-> name rel1 <> name rel2).
Proof.
  intros He1 He2 Hb1 Hb2 H1 H2.
  destruct (item_of_file_summary _ _ _ _ _ H1) as (_ & _ & _ & Hid1 & _).
  destruct (item_of_file_summary _ _ _ _ _ H2) as (_ & _ & _ & Hid2 & _).
  unfold stem in Hid1, Hid2.
  split; [exact Hid1 |]. split; [exact Hid2 |].
  rewrite Hid1, Hid2.
  pose proof (parquet_name_stem _ He1 Hb1) as Hn1.
  pose proof (parquet_name_stem _ He2 Hb2) as Hn2.
  split.
  - intros Hne Heq. apply Hne. rewrite Heq. reflexivity.
  - intros Hne Heq. apply Hne. rewrite Hn1, Hn2, Heq. reflexivity.
Qed.

(** C8.  The claim fails on the code at two files of the same name
    in two daily directories.  Both files are found and accepted and
    the run returns normally, yet the two items carry the one
    identifier [part-0]; their two documents, which differ, are
    written one after the other to the one href
    [/work/catalog/items/part-0.json], so that the second replaces the
    first; and the collection lists two items under the same
    identifier and the same href. *)
Theorem item_ids_collide_across_directories :
  let p1 := ["2021-01-01"; "part-0.parquet"] in
  let p2 := ["2021-01-02"; "part-0.parquet"] in
  let written := writes (fst Example.nested_run) in
  p1 <> p2 /\
  List.map fst (rglob_parquet Example.nested_assets) = [p1; p2] /\
  snd Example.nested_run = Ok tt /\
  option_map (fun c => List.map item_id (coll_items c))
    (written_collection (fst Example.nested_run))
  = Some ["part-0"; "part-0"] /\
  option_map (fun c => List.map item_self_href (coll_items c))
    (written_collection (fst Example.nested_run))
  = Some [Some "/work/catalog/items/part-0.json";
          Some "/work/catalog/items/part-0.json"] /\
  List.map fst written
  = ["/work/catalog/items/part-0.json"; "/work/catalog/items/part-0.json";
     "/work/catalog/collection.json"] /\
  List.map snd (firstn 1 written) <> List.map snd (firstn 1 (skipn 1 written)).
Proof.
  cbv zeta. split; [discriminate |].
  repeat split; try (vm_compute; reflexivity).
  vm_compute. discriminate.
Qed.

(** ** Independence from the order of the files *)

Lemma Forall2_perm_l {A B} (P : A -> B -> Prop) (l l' : list A) (rs : list B) :
  Permutation l l' -> Forall2 P l rs ->
  exists rs', Forall2 P l' rs' /\ Permutation rs rs'.
Proof.
  intros Hp. revert rs.
  induction Hp as [| x l l' _ IH | x y l | l l' l'' _ IH1 _ IH2]; intros rs H.
  - inversion H; subst. exists []. split; constructor.
  - inversion H as [| ? r ? rs0 Hx Hrest]; subst.
    destruct (IH rs0 Hrest) as (rs' & H' & Hp').
    exists (r :: rs'). split; constructor; assumption.
  - inversion H as [| ? r1 ? rs1 Hy Hrest1]; subst.
    inversion Hrest1 as [| ? r2 ? rs2 Hx Hrest2]; subst.
    exists (r2 :: r1 :: rs2). split; [repeat constructor; assumption |].
    apply perm_swap.
  - destruct (IH1 rs H) as (rs1 & H1 & Hp1).
    destruct (IH2 rs1 H1) as (rs2 & H2 & Hp2).
    exists rs2. split; [exact H2 | etransitivity; eassumption].
Qed.

Lemma sum_Z_perm (l l' : list Z) : Permutation l l' -> sum_Z l = sum_Z l'.
Proof.
  unfold sum_Z. induction 1; cbn [fold_right] in *; lia.
Qed.

Lemma utc_datetime_by_key (a b : datetime) :
  Datetime.tzinfo a = Some Datetime.utc ->
  Datetime.tzinfo b = Some Datetime.utc ->
  ts_key a = ts_key b -> a = b.
Proof.
  destruct a as [wa ta], b as [wb tb]. unfold ts_key, Datetime.instant.
  cbn [Datetime.tzinfo Datetime.wall]. intros -> -> H.
  f_equal. unfold Datetime.utc in H. lia.
Qed.

Lemma earliest_unique (t t' : tsval) (l l' : list tsval) :
  Permutation l l' -> Forall utc_cell l ->
  earliest t l -> earliest t' l' -> t = t'.
Proof.
  intros Hp Hl (m & -> & Hin & Hle) (m' & -> & Hin' & Hle').
  assert (Hin2 : In (TsDatetime m) l')
    by (eapply Permutation_in; [exact Hp | exact Hin]).
  assert (Hin2' : In (TsDatetime m') l)
    by (eapply Permutation_in; [symmetry; exact Hp | exact Hin']).
  rewrite List.Forall_forall in Hl.
  destruct (Hl _ Hin) as (d & [= <-] & Hd).
  destruct (Hl _ Hin2') as (d' & [= <-] & Hd').
  f_equal. apply utc_datetime_by_key; try assumption.
  specialize (Hle m' Hin2'). specialize (Hle' m Hin2). lia.
Qed.

Lemma latest_unique (t t' : tsval) (l l' : list tsval) :
  Permutation l l' -> Forall utc_cell l ->
  latest t l -> latest t' l' -> t = t'.
Proof.
  intros Hp Hl (m & -> & Hin & Hle) (m' & -> & Hin' & Hle').
  assert (Hin2 : In (TsDatetime m) l')
    by (eapply Permutation_in; [exact Hp | exact Hin]).
  assert (Hin2' : In (TsDatetime m') l)
    by (eapply Permutation_in; [symmetry; exact Hp | exact Hin']).
  rewrite List.Forall_forall in Hl.
  destruct (Hl _ Hin) as (d & [= <-] & Hd).
  destruct (Hl _ Hin2') as (d' & [= <-] & Hd').
  f_equal. apply utc_datetime_by_key; try assumption.
  specialize (Hle m' Hin2'). specialize (Hle' m Hin2). lia.
Qed.

(** Accepted files taken in two orders leave the same aggregates. *)
Lemma accumulate_perm (validate_item : Item -> option exn) (root : Path)
    (item_props : gmap string json) (files : list (Path * file))
    (rs rs' : list (Item * (BBox * tsval * tsval * Z))) :
  Forall2 (accepted validate_item root item_props) files rs ->
  Permutation rs rs' ->
  same_aggregates (fold_left accumulate rs init_state)
                  (fold_left accumulate rs' init_state).
Proof.
  intros Hrs Hp.
  destruct (accepted_all validate_item root item_props files rs Hrs)
    as (Hnum & Hst & Hen & _).
  set (sb := fun r : Item * (BBox * tsval * tsval * Z) => summary_bbox (snd r)) in *.
  set (ss := fun r : Item * (BBox * tsval * tsval * Z) => summary_start (snd r)) in *.
  set (se := fun r : Item * (BBox * tsval * tsval * Z) => summary_end (snd r)) in *.
  assert (Hnum' : Forall bbox_numeric (List.map sb rs'))
    by (eapply Permutation_Forall; [apply Permutation_map; exact Hp | exact Hnum]).
  assert (Hst' : Forall utc_cell (List.map ss rs'))
    by (eapply Permutation_Forall; [apply Permutation_map; exact Hp | exact Hst]).
  assert (Hen' : Forall utc_cell (List.map se rs'))
    by (eapply Permutation_Forall; [apply Permutation_map; exact Hp | exact Hen]).
  unfold same_aggregates.
  rewrite !acc_start_times, !acc_end_times, !acc_total_rows.
  cbn [init_state start_times end_times total_rows app].
  fold ss se.
  destruct rs as [| r rs0].
  { apply Permutation_nil in Hp. subst rs'. repeat split. }
  destruct rs' as [| r' rs0'].
  { apply Permutation_sym, Permutation_nil in Hp. discriminate. }
  split; [| split; [| split]].
  - rewrite (acc_overall_bbox_init r rs0), (acc_overall_bbox_init r' rs0').
    fold sb.
    destruct (merged_bbox_is_min_max (sb r) (List.map sb rs0) Hnum)
      as (A1 & A2 & A3 & A4).
    destruct (merged_bbox_is_min_max (sb r') (List.map sb rs0') Hnum')
      as (B1 & B2 & B3 & B4).
    assert (Hpb : Permutation (List.map sb (r :: rs0)) (List.map sb (r' :: rs0')))
      by (apply Permutation_map; exact Hp).
    cbn [List.map] in Hpb.
    repeat split; cbn [minx miny maxx maxy].
    + eapply is_min_unique; [| exact A1 | exact B1].
      apply (Permutation_map minx) in Hpb. exact Hpb.
    + eapply is_min_unique; [| exact A2 | exact B2].
      apply (Permutation_map miny) in Hpb. exact Hpb.
    + eapply is_max_unique; [| exact A3 | exact B3].
      apply (Permutation_map maxx) in Hpb. exact Hpb.
    + eapply is_max_unique; [| exact A4 | exact B4].
      apply (Permutation_map maxy) in Hpb. exact Hpb.
  - destruct (py_min_list_utc (List.map ss (r :: rs0)) ltac:(discriminate) Hst)
      as (t & Ht & Het).
    destruct (py_min_list_utc (List.map ss (r' :: rs0')) ltac:(discriminate) Hst')
      as (t' & Ht' & Het').
    rewrite Ht, Ht'. f_equal.
    eapply earliest_unique; [| exact Hst | exact Het | exact Het'].
    apply Permutation_map. exact Hp.
  - destruct (py_max_list_utc (List.map se (r :: rs0)) ltac:(discriminate) Hen)
      as (t & Ht & Het).
    destruct (py_max_list_utc (List.map se (r' :: rs0')) ltac:(discriminate) Hen')
      as (t' & Ht' & Het').
    rewrite Ht, Ht'. f_equal.
    eapply latest_unique; [| exact Hen | exact Het | exact Het'].
    apply Permutation_map. exact Hp.
  - f_equal. apply sum_Z_perm. apply Permutation_map. exact Hp.
Qed.

Lemma py_min_is_min (a b : float) :
  is_nan a = false -> is_nan b = false -> is_min (py_min a b) [a; b].
Proof.
  intros Ha Hb.
  apply (fold_py_min_spec [b] a Ha). repeat constructor. exact Hb.
Qed.

Lemma py_max_is_max (a b : float) :
  is_nan a = false -> is_nan b = false -> is_max (py_max a b) [a; b].
Proof.
  intros Ha Hb.
  apply (fold_py_max_spec [b] a Ha). repeat constructor. exact Hb.
Qed.

Lemma py_min_comm (a b : float) :
  is_nan a = false -> is_nan b = false ->
  Float.eq (py_min a b) (py_min b a).
Proof.
  intros Ha Hb.
  eapply is_min_unique;
    [apply perm_swap | apply py_min_is_min | apply py_min_is_min]; assumption.
Qed.

Lemma py_max_comm (a b : float) :
  is_nan a = false -> is_nan b = false ->
  Float.eq (py_max a b) (py_max b a).
Proof.
  intros Ha Hb.
  eapply is_max_unique;
    [apply perm_swap | apply py_max_is_max | apply py_max_is_max]; assumption.
Qed.

Lemma py_min_assoc (a b c : float) :
  is_nan a = false -> is_nan b = false -> is_nan c = false ->
  Float.eq (py_min (py_min a b) c) (py_min a (py_min b c)).
Proof.
  intros Ha Hb Hc.
  assert (Hl : is_min (py_min (py_min a b) c) [a; b; c]).
  { apply (fold_py_min_spec [b; c] a Ha). repeat constructor; assumption. }
  assert (Hr : is_min (py_min a (py_min b c)) [a; b; c]).
  { destruct (py_min_is_min b c Hb Hc) as [Hin2 Hle2].
    destruct (py_min_is_min a (py_min b c) Ha (py_min_not_nan b c Hb))
      as [Hin Hle].
    split.
    - destruct Hin as [<- | [<- | []]]; [left; reflexivity |].
      right. exact Hin2.
    - intros x [<- | Hx]; [apply Hle; left; reflexivity |].
      eapply float_le_trans; [apply Hle; right; left; reflexivity |].
      apply Hle2. exact Hx. }
  eapply is_min_unique; [reflexivity | exact Hl | exact Hr].
Qed.

Lemma py_max_assoc (a b c : float) :
  is_nan a = false -> is_nan b = false -> is_nan c = false ->
  Float.eq (py_max (py_max a b) c) (py_max a (py_max b c)).
Proof.
  intros Ha Hb Hc.
  assert (Hl : is_max (py_max (py_max a b) c) [a; b; c]).
  { apply (fold_py_max_spec [b; c] a Ha). repeat constructor; assumption. }
  assert (Hr : is_max (py_max a (py_max b c)) [a; b; c]).
  { destruct (py_max_is_max b c Hb Hc) as [Hin2 Hle2].
    destruct (py_max_is_max a (py_max b c) Ha (py_max_not_nan b c Hb))
      as [Hin Hle].
    split.
    - destruct Hin as [<- | [<- | []]]; [left; reflexivity |].
      right. exact Hin2.
    - intros x [<- | Hx]; [apply Hle; left; reflexivity |].
      eapply float_le_trans; [apply Hle2; exact Hx |].
      apply Hle. right; left; reflexivity. }
  eapply is_max_unique; [reflexivity | exact Hl | exact Hr].
Qed.

Lemma item_of_file_asset (root : Path) (item_props : gmap string json)
    (pf : Path * file) (r : Item * (BBox * tsval * tsval * Z)) :
  item_of_file root item_props pf = Ok r ->
  asset_href <$> item_assets (fst r) !! "data"
  = Some (path_str ("assets" :: fst pf)).
Proof.
  destruct pf as [rel f], r as [item summary]. intros H.
  destruct (item_of_file_inv _ _ _ _ _ _ H) as (ss & es & _ & _ & _ & ->).
  cbn [fst item_assets]. rewrite lookup_singleton_eq. reflexivity.
Qed.

Lemma accepted_assets (validate_item : Item -> option exn)
    (make_absolute_href : string -> string) (root : Path)
    (collection_id : string) (item_props : gmap string json)
    (files : list (Path * file))
    (rs : list (Item * (BBox * tsval * tsval * Z))) :
  Forall2 (accepted validate_item root item_props) files rs ->
  List.map (fun it => asset_href <$> item_assets it !! "data")
    (List.map (fun r => link_item make_absolute_href root collection_id
                          (fst r)) rs)
  = List.map (fun pf => Some (path_str ("assets" :: fst pf))) files.
Proof.
  induction 1 as [| pf r files rs [Hitem _] _ IH]; [reflexivity |].
  cbn [List.map]. rewrite IH. f_equal.
  cbn [link_item item_assets]. exact (item_of_file_asset _ _ _ _ Hitem).
Qed.

(** The files enumerated are those of the tree, at any depth, whose
    name ends in [.parquet]. *)
Lemma sorted_rglob_members (tree : list (Path * file)) (pf : Path * file) :
  In pf (sorted (rglob_parquet tree)) <->
  In pf tree /\ endswith (name (fst pf)) ".parquet" = true.
Proof.
  pose proof (filter_In (fun pf => endswith (name (fst pf)) ".parquet")
                pf tree) as Hf.
  cbv beta in Hf. fold (rglob_parquet tree) in Hf.
  rewrite <- Hf. split; intros H.
  - eapply Permutation_in; [apply sorted_perm | exact H].
  - eapply Permutation_in; [symmetry; apply sorted_perm | exact H].
Qed.

(** C9.  With distinct paths in the tree, the files processed are
    exactly the files of the tree, at any depth, whose name ends in
    [.parquet], in strictly increasing path order, and the items of
    the collection that the run builds and saves follow that order; a
    run over the same tree scanned in another order is the same run,
    effects and outcome included; the loop itself, fed the accepted
    files in any other order, succeeds with the same aggregates: boxes
    equal bound by bound, the same earliest start and latest end, the
    same row total; and [min] and [max] on numeric floats are
    commutative and associative up to float equality. *)
Theorem sorted_enumeration_and_order_independence
    (validate_item : Item -> option exn)
    (validate_collection : Collection -> option exn)
    (format_exc : exn -> list string)
    (make_absolute_href : string -> string) (stac_io : nat -> option exn)
    (root : Path) (collection_id : string)
    (item_props_src collection_props_src : option (result (gmap string json)))
    (tree : list (Path * file)) :
  List.NoDup (List.map fst tree) ->
  let files := sorted (rglob_parquet tree) in
  let build := build_catalog validate_item validate_collection format_exc
                 make_absolute_href stac_io root collection_id
                 item_props_src collection_props_src in
  (forall pf,
     In pf files <->
     In pf tree /\ endswith (name (fst pf)) ".parquet" = true) /\
  StronglySorted path_lt files /\
  Permutation files (rglob_parquet tree) /\
  (forall item_props collection_props rs,
     load_props item_props_src = Ok item_props ->
     load_props collection_props_src = Ok collection_props ->
     Forall2 (accepted validate_item root item_props) files rs ->
     rs <> [] ->
     exists c,
       (exists n, (1 <= n)%nat /\
                  writes (fst (build tree)) = firstn n (documents c)) /\
       (writes_return stac_io (List.length rs) ->
        written_collection (fst (build tree)) = Some c) /\
       List.map (fun it => asset_href <$> item_assets it !! "data")
         (coll_items c)
       = List.map (fun pf => Some (path_str ("assets" :: fst pf))) files) /\
  (forall tree', Permutation tree tree' -> build tree' = build tree) /\
  (forall item_props files' tr st,
     Permutation files files' ->
     loop validate_item format_exc root item_props files init_state
     = (tr, Ok st) ->
     exists st',
       loop validate_item format_exc root item_props files' init_state
       = ([], Ok st') /\
       same_aggregates st st') /\
  (forall a b c,
     is_nan a = false -> is_nan b = false -> is_nan c = false ->
     Float.eq (py_min a b) (py_min b a) /\
     Float.eq (py_min (py_min a b) c) (py_min a (py_min b c)) /\
     Float.eq (py_max a b) (py_max b a) /\
     Float.eq (py_max (py_max a b) c) (py_max a (py_max b c))).
Proof.
  intros Hnd files build.
  split; [intros pf; apply sorted_rglob_members |].
  split; [apply sorted_strongly, rglob_parquet_nodup, Hnd |].
  split; [apply sorted_perm |].
  split.
  { intros item_props collection_props rs Hip Hcp Hrs Hne.
    destruct (collection_of_accepted_run validate_item validate_collection
                format_exc make_absolute_href stac_io root collection_id
                item_props_src collection_props_src tree item_props
                collection_props rs Hip Hcp Hrs Hne)
      as (c & bb & tmin & tmax & Hpre & Hw & _ & Hitems & _).
    exists c. split; [exact Hpre |]. split; [exact Hw |].
    rewrite Hitems. eapply accepted_assets. exact Hrs. }
  split.
  { intros tree' Hp. unfold build, build_catalog.
    rewrite (sorted_rglob_stable tree tree' Hnd Hp). reflexivity. }
  split.
  { intros item_props files' tr st Hp Hloop.
    destruct (loop_ok_inv _ _ _ _ _ _ _ _ Hloop) as (_ & rs & Hrs & ->).
    destruct (Forall2_perm_l _ _ _ _ Hp Hrs) as (rs' & Hrs' & Hprs).
    exists (fold_left accumulate rs' init_state).
    split; [apply loop_accept; exact Hrs' |].
    eapply accumulate_perm; eassumption. }
  intros a b c Ha Hb Hc.
  split; [apply py_min_comm; assumption |].
  split; [apply py_min_assoc; assumption |].
  split; [apply py_max_comm; assumption |].
  apply py_max_assoc; assumption.
Qed.

(** ** Serialized datetimes *)

Lemma to_rfc3339_z_suffix (t : tsval) (s : string) :
  _to_rfc3339_z t = Ok s ->
  endswith s "Z" = true /\ endswith s "+00:00" = false /\
  rfc3339_z_shape s = true.
Proof.
  intros H. destruct (to_rfc3339_z_inv t s H) as (d & u & _ & _ & ->).
  split; [apply endswith_app |].
  split; [apply endswith_Z_not_offset | apply rfc3339_z_shape_clock].
Qed.

Lemma item_datetime_properties (root : Path) (item_props : gmap string json)
    (pf : Path * file) (item : Item) (summary : BBox * tsval * tsval * Z) :
  item_of_file root item_props pf = Ok (item, summary) ->
  exists start_s end_s,
    _to_rfc3339_z (summary_start summary) = Ok start_s /\
    _to_rfc3339_z (summary_end summary) = Ok end_s /\
    item_properties item !! "start_datetime" = Some (JStr start_s) /\
    item_properties item !! "end_datetime" = Some (JStr end_s).
Proof.
  destruct pf as [rel f]. intros H.
  destruct (item_of_file_inv _ _ _ _ _ _ H) as (ss & es & _ & Hs & He & ->).
  exists ss, es. split; [exact Hs |]. split; [exact He |].
  cbn [item_properties]. split.
  - rewrite !lookup_insert_ne by discriminate. apply lookup_insert_eq.
  - do 3 (rewrite lookup_insert_ne by discriminate). apply lookup_insert_eq.
Qed.

(** C6.  A datetime that normalizes to the UTC value [u] is serialized
    as the clock reading of [u] followed by the letter Z, where
    [isoformat] alone would end in [+00:00]; every string returned by
    [_to_rfc3339_z] ends in Z, does not end in [+00:00], and has the
    shape [YYYY-MM-DDTHH:MM:SS[.ffffff]Z]; and the [start_datetime]
    and [end_datetime] properties of every item built are such
    strings, whatever the user-supplied properties hold under those
    keys. *)
Theorem rfc3339_utc_trailing_Z :
  (forall d u,
     to_utc d = Ok u ->
     Datetime.tzinfo u = Some Datetime.utc /\
     Datetime.isoformat u
     = Datetime.isoformat_clock (Datetime.wall u) +:+ "+00:00" /\
     _to_rfc3339_z (TsDatetime d)
     = Ok (Datetime.isoformat_clock (Datetime.wall u) +:+ "Z")) /\
  (forall t s,
     _to_rfc3339_z t = Ok s ->
     endswith s "Z" = true /\ endswith s "+00:00" = false /\
     rfc3339_z_shape s = true) /\
  (forall root item_props pf item summary,
     item_of_file root item_props pf = Ok (item, summary) ->
     exists start_s end_s,
       item_properties item !! "start_datetime" = Some (JStr start_s) /\
       item_properties item !! "end_datetime" = Some (JStr end_s) /\
       endswith start_s "Z" = true /\ endswith start_s "+00:00" = false /\
       rfc3339_z_shape start_s = true /\
       endswith end_s "Z" = true /\ endswith end_s "+00:00" = false /\
       rfc3339_z_shape end_s = true).
Proof.
  split.
  { intros d u Hu. pose proof (to_utc_tzinfo d u Hu) as Htz.
    split; [exact Htz |].
    split; [exact (isoformat_utc u Htz) | exact (to_rfc3339_z_datetime d u Hu)]. }
  split; [exact to_rfc3339_z_suffix |].
  intros root item_props pf item summary H.
  destruct (item_datetime_properties _ _ _ _ _ H) as (ss & es & Hs & He & Hps & Hpe).
  destruct (to_rfc3339_z_suffix _ _ Hs) as (S1 & S2 & S3).
  destruct (to_rfc3339_z_suffix _ _ He) as (E1 & E2 & E3).
  exists ss, es. repeat split; assumption.
Qed.

(** ** The statements at concrete inputs *)

Lemma accepted_results_sound (validate_item : Item -> option exn)
    (root : Path) (item_props : gmap string json)
    (files : list (Path * file))
    (rs : list (Item * (BBox * tsval * tsval * Z))) :
  accepted_results validate_item root item_props files = Some rs ->
  Forall2 (accepted validate_item root item_props) files rs.
Proof.
  revert rs. induction files as [| pf files IH]; intros rs H.
  - injection H as <-. constructor.
  - cbn [accepted_results] in H.
    destruct (item_of_file root item_props pf) as [r |] eqn:Hitem;
      [| discriminate].
    destruct (validate_item (fst r)) eqn:Hval; [discriminate |].
    destruct (accepted_results validate_item root item_props files)
      as [rs' |]; [| discriminate].
    injection H as <-. constructor; [split; assumption | apply IH; reflexivity].
Defined.

Lemma collection_extent_aggregates_witness :
  exists rs c,
    Forall2 (accepted Example.valid_item Example.root ∅)
      (sorted (rglob_parquet Example.assets)) rs /\
    rs <> [] /\
    writes_return Example.stac_io (List.length rs) /\
    written_collection (fst Example.run) = Some c /\
    coll_items c
    = List.map (fun r => link_item Example.make_absolute_href Example.root
                           "sar-owi" (fst r)) rs /\
    List.map table_row_count (coll_tables c)
    = [sum_Z (List.map (fun r => item_row_count (fst r)) rs)].
Proof.
  destruct (accepted_results Example.valid_item Example.root ∅
              (sorted (rglob_parquet Example.assets))) as [rs |] eqn:E;
    [| vm_compute in E; discriminate].
  pose proof (accepted_results_sound _ _ _ _ _ E) as Hrs.
  assert (Hne : rs <> []) by (intros ->; vm_compute in E; discriminate).
  assert (Hok : writes_return Example.stac_io (List.length rs))
    by (intros k _; reflexivity).
  destruct (proj1 collection_extent_aggregates
              Example.valid_item Example.valid_collection Example.no_traceback
              Example.make_absolute_href Example.stac_io
              Example.root "sar-owi" None None Example.assets ∅ ∅ rs
              eq_refl eq_refl Hrs Hne)
    as (c & bb & tmin & tmax & _ & Hw & _ & Hitems & _ & _ & _ & _ & _ & _
        & _ & _ & Hrows).
  exists rs, c.
  split; [exact Hrs |]. split; [exact Hne |]. split; [exact Hok |].
  split; [exact (Hw Hok) |]. split; [exact Hitems | exact Hrows].
Defined.

Lemma bbox_is_exact_min_max_witness :
  (Example.a_rows <> [] /\
   List.map geometry_cell Example.a_rows
   = List.map point_cell Example.a_points /\
   Forall numeric_point Example.a_points) /\
  exists bb,
    bbox_loop (List.map geometry_cell Example.a_rows) bbox_seed = Ok bb /\
    is_min (minx bb) (List.map fst Example.a_points) /\
    is_max (maxy bb) (List.map snd Example.a_points).
Proof.
  assert (H1 : Example.a_rows <> []) by discriminate.
  assert (H2 : List.map geometry_cell Example.a_rows
               = List.map point_cell Example.a_points) by reflexivity.
  assert (H3 : Forall numeric_point Example.a_points)
    by (repeat constructor).
  split; [repeat split; assumption |].
  destruct (bbox_is_exact_min_max "catalog/assets/a.parquet"
              Example.a_rows 3 Example.a_points H1 H2 H3)
    as (bb & Hbb & _ & _ & Hminx & _ & _ & Hmaxy & _).
  exists bb. split; [exact Hbb |]. split; [exact Hminx | exact Hmaxy].
Defined.

Lemma empty_file_aborts_run_witness :
  In (["b.parquet"], ParquetFile [] 0) (rglob_parquet Example.broken_assets) /\
  build_catalog Example.valid_item Example.valid_collection
    Example.no_traceback Example.make_absolute_href Example.stac_io
    Example.root "sar-owi" None None
    Example.broken_assets
  = ([EvMkdir "catalog/items"; EvSetDefaultStacIO],
     Raise (Exn ValueError
              "No geometry column in catalog/assets/b.parquet" None)).
Proof.
  assert (Hin : In (["b.parquet"], ParquetFile [] 0)
                  (rglob_parquet Example.broken_assets))
    by (left; reflexivity).
  split; [exact Hin |].
  destruct (empty_file_aborts_run Example.valid_item Example.valid_collection
              Example.no_traceback Example.make_absolute_href Example.stac_io
              Example.root "sar-owi" None None
              Example.broken_assets ["b.parquet"] 0 Hin)
    as (_ & _ & _ & Hrun).
  destruct (accepted_results Example.valid_item Example.root ∅
              [(["a.parquet"], Example.a_parquet)]) as [rs |] eqn:E;
    [| vm_compute in E; discriminate].
  exact (Hrun ∅ ∅ [(["a.parquet"], Example.a_parquet)] [] rs
           eq_refl eq_refl eq_refl (accepted_results_sound _ _ _ _ _ E)).
Defined.

Lemma no_parquet_files_raises_witness :
  rglob_parquet Example.other_assets = [] /\
  build_catalog Example.valid_item Example.valid_collection
    Example.no_traceback Example.make_absolute_href Example.stac_io
    Example.root "sar-owi" None None
    Example.other_assets
  = ([EvMkdir "catalog/items"; EvSetDefaultStacIO],
     Raise (Exn RuntimeError
              "No Parquet files found under assets directory" None)).
Proof.
  assert (H : rglob_parquet Example.other_assets = []) by reflexivity.
  split; [exact H |].
  destruct (no_parquet_files_raises Example.valid_item Example.valid_collection
              Example.no_traceback Example.make_absolute_href Example.stac_io
              Example.root "sar-owi" None None
              Example.other_assets H) as (_ & _ & Hrun).
  exact (proj2 (Hrun ∅ ∅ eq_refl eq_refl)).
Defined.

Lemma rfc3339_utc_trailing_Z_witness :
  let d := Datetime.mk 2021 1 2 3 4 5 0 (Some (2 * Datetime.US_PER_HOUR)) in
  let u := Datetime.mk 2021 1 2 1 4 5 0 (Some Datetime.utc) in
  to_utc d = Ok u /\
  _to_rfc3339_z (TsDatetime d)
  = Ok (Datetime.isoformat_clock (Datetime.wall u) +:+ "Z") /\
  Datetime.isoformat_clock (Datetime.wall u) +:+ "Z" = "2021-01-02T01:04:05Z".
Proof.
  intros d u.
  assert (Hu : to_utc d = Ok u) by (vm_compute; reflexivity).
  split; [exact Hu |].
  split; [| vm_compute; reflexivity].
  exact (proj2 (proj2 (proj1 rfc3339_utc_trailing_Z d u Hu))).
Defined.

Lemma start_end_are_utc_min_max_witness :
  (uniform Example.local_firsts /\ uniform Example.local_lasts /\
   Forall utc_representable Example.local_firsts /\
   Forall utc_representable Example.local_lasts) /\
  exists dmin dmax start end_,
    _bbox_and_times "catalog/assets/c.parquet"
      (ParquetFile Example.local_rows 2)
    = Ok (mkBBox (of_Z (-9)) (of_Z 43) (of_Z (-8)) (of_Z 44),
          TsDatetime start, TsDatetime end_, 2) /\
    In dmin Example.local_firsts /\ In dmax Example.local_lasts /\
    utc_normal_form dmin start /\ utc_normal_form dmax end_.
Proof.
  assert (U1 : uniform Example.local_firsts)
    by (exists false; repeat constructor).
  assert (U2 : uniform Example.local_lasts)
    by (exists true; repeat constructor).
  assert (R1 : Forall utc_representable Example.local_firsts)
    by (repeat constructor).
  assert (R2 : Forall utc_representable Example.local_lasts)
    by (repeat constructor).
  split; [repeat split; assumption |].
  assert (Hrows : Example.local_rows <> []) by discriminate.
  destruct (start_end_are_utc_min_max "catalog/assets/c.parquet"
              Example.local_rows 2
              (mkBBox (of_Z (-9)) (of_Z 43) (of_Z (-8)) (of_Z 44))
              Example.local_firsts Example.local_lasts
              Hrows eq_refl eq_refl eq_refl U1 U2 R1 R2)
    as (dmin & dmax & start & end_ & Hrun & Hin1 & _ & Hin2 & _ & N1 & N2).
  exists dmin, dmax, start, end_.
  split; [exact Hrun |]. split; [exact Hin1 |]. split; [exact Hin2 |].
  split; [exact N1 | exact N2].
Defined.

Lemma item_ids_distinct_iff_names_distinct_witness :
  exists r1 r2,
    item_of_file Example.root ∅ (["a.parquet"], Example.a_parquet) = Ok r1 /\
    item_of_file Example.root ∅ (["sub"; "b.parquet"], Example.b_parquet) = Ok r2 /\
    item_id (fst r1) = stem_of_name "a.parquet" /\
    item_id (fst r2) = stem_of_name "b.parquet" /\
    item_id (fst r1) <> item_id (fst r2).
Proof.
  destruct (item_of_file Example.root ∅ (["a.parquet"], Example.a_parquet))
    as [r1 |] eqn:E1; [| vm_compute in E1; discriminate].
  destruct (item_of_file Example.root ∅ (["sub"; "b.parquet"], Example.b_parquet))
    as [r2 |] eqn:E2; [| vm_compute in E2; discriminate].
  exists r1, r2.
  assert (Hne1 : name ["a.parquet"] <> ".parquet") by discriminate.
  assert (Hne2 : name ["sub"; "b.parquet"] <> ".parquet") by discriminate.
  destruct (item_ids_distinct_iff_names_distinct Example.root ∅
              ["a.parquet"] ["sub"; "b.parquet"]
              Example.a_parquet Example.b_parquet r1 r2
              eq_refl eq_refl Hne1 Hne2 E1 E2) as (Hid1 & Hid2 & Hiff).
  split; [reflexivity |]. split; [reflexivity |].
  split; [exact Hid1 |]. split; [exact Hid2 |].
  apply Hiff. discriminate.
Defined.

Lemma sorted_enumeration_and_order_independence_witness :
  List.NoDup (List.map fst Example.assets) /\
  List.map fst (sorted (rglob_parquet (Example.other_assets ++ Example.assets)))
  = [["a.parquet"]; ["b.parquet"]] /\
  build_catalog Example.valid_item Example.valid_collection
    Example.no_traceback Example.make_absolute_href Example.stac_io
    Example.root "sar-owi" None None
    (List.rev Example.assets)
  = Example.run.
Proof.
  assert (Hnd : List.NoDup (List.map fst Example.assets)).
  { repeat constructor; cbn; intuition discriminate. }
  split; [exact Hnd |].
  split; [reflexivity |].
  destruct (sorted_enumeration_and_order_independence
              Example.valid_item Example.valid_collection Example.no_traceback
              Example.make_absolute_href Example.stac_io
              Example.root "sar-owi" None None Example.assets Hnd)
    as (_ & _ & _ & _ & Hsame & _).
  apply Hsame. apply Permutation_rev.
Defined.

(* ================================================================== *)
(** * Further properties of the resilient writer *)
(* ================================================================== *)

Lemma py_range_single (n : Z) : py_range n (n + 1) = [n].
Proof. rewrite py_range_cons by lia. rewrite py_range_nil by lia. reflexivity. Qed.

Lemma pow2_pos (n : Z) : 1 <= n -> 0 < 2 ^ (n - 1).
Proof. intros H. apply Z.pow_pos_nonneg; lia. Qed.

Lemma pow2_step (n : Z) : 1 <= n -> 2 ^ n = 2 * 2 ^ (n - 1).
Proof.
  intros H. replace n with (Z.succ (n - 1)) at 1 by lia.
  apply Z.pow_succ_r. lia.
Qed.

(** The waits of consecutive attempts add up to a geometric sum. *)
Lemma geometric_waits (backoff : Z) (j : nat) (n : Z) :
  1 <= n ->
  fold_right Z.add 0
    (List.map (fun m => backoff * 2 ^ (m - 1)) (py_range n (n + Z.of_nat j)))
  = backoff * 2 ^ (n - 1) * (2 ^ Z.of_nat j - 1).
Proof.
  revert n. induction j as [| j IH]; intros n Hn.
  - rewrite py_range_nil by lia. cbn [List.map fold_right]. simpl. lia.
  - rewrite py_range_cons by lia. cbn [List.map fold_right].
    replace (n + Z.of_nat (S j)) with ((n + 1) + Z.of_nat j) by lia.
    rewrite IH by lia.
    replace (n + 1 - 1) with n by lia.
    rewrite (pow2_step n Hn).
    replace (Z.of_nat (S j)) with (Z.succ (Z.of_nat j)) by lia.
    rewrite Z.pow_succ_r by lia. ring.
Qed.

(** A negative length is refused before the system is asked to wait:
    with [OverflowError] when it does not fit the nanosecond count,
    with [ValueError] otherwise. *)
Lemma time_sleep_negative (os_outcome : option exn) (secs : Z) :
  secs < 0 ->
  time_sleep os_outcome secs
  = Raise (if secs <? - SLEEP_MAX
           then Exn OverflowError
                  "timestamp too large to convert to C _PyTime_t" None
           else Exn ValueError "sleep length must be non-negative" None).
Proof.
  intros H. unfold time_sleep.
  assert (Hmax : 0 <= SLEEP_MAX) by (unfold SLEEP_MAX; lia).
  destruct (Z.ltb_spec secs (- SLEEP_MAX)); cbn [orb]; [reflexivity |].
  destruct (Z.ltb_spec SLEEP_MAX secs); [lia |].
  destruct (Z.ltb_spec secs 0); [reflexivity | lia].
Qed.

Section WriterShape.

Context {Table FileSystem : Type}.
Variables (store : backend) (table : Table) (kw : write_kwargs FileSystem).
Variables (retries backoff : Z).

Local Abbreviation run := (run_from store table kw retries backoff).

(** The calls are numbered consecutively, all carry the same
    arguments, and the waits are those of the attempts but the last. *)
Lemma run_shape (j : nat) (n : Z) :
  1 <= n -> Z.of_nat j = retries + 1 - n ->
  let tr := fst (run n) in
  let k := Z.of_nat (attempts_made tr) in
  write_numbers tr = py_range n (n + k) /\
  write_arguments tr = repeat (table, kw) (attempts_made tr) /\
  sleeps tr = List.map (fun m => backoff * 2 ^ (m - 1)) (py_range n (n + k - 1)) /\
  k <= Z.of_nat j /\ (j <> O -> 1 <= k).
Proof.
  revert n. induction j as [| j IH]; intros n Hn Hj; cbv zeta.
  - unfold run_from. rewrite (py_range_nil n (retries + 1)) by lia.
    cbn [retry_loop fst attempts_made List.filter List.length write_numbers
         write_arguments sleeps flat_map repeat].
    rewrite !py_range_nil by lia. repeat split; (reflexivity || lia).
  - assert (Hone :
      forall r : result unit,
        let tr := [EvWrite n table kw] in
        let k := Z.of_nat (attempts_made tr) in
        write_numbers tr = py_range n (n + k) /\
        write_arguments tr = repeat (table, kw) (attempts_made tr) /\
        sleeps tr
        = List.map (fun m => backoff * 2 ^ (m - 1)) (py_range n (n + k - 1)) /\
        k <= Z.of_nat (S j) /\ (S j <> O -> 1 <= k)).
    { intros _. cbv zeta. unfold attempts_made. cbn.
      rewrite py_range_single.
      rewrite py_range_nil by lia. repeat split; (reflexivity || lia). }
    rewrite run_from_unfold by lia. cbn [retry_loop].
    destruct (write_to_dataset store n) as [e |]; [| exact (Hone (Ok tt))].
    destruct (is_OSError (exn_class e)); [| exact (Hone (Raise e))].
    destruct (contains "SLOW_DOWN" (exn_msg e) && (n <? retries)) eqn:Hretry;
      [| exact (Hone (Raise e))].
    destruct (time_sleep _ _) as [[] | e']; [| exact (Hone (Raise e'))].
    apply andb_true_iff in Hretry as [_ Hlt]. apply Z.ltb_lt in Hlt.
    fold (run (n + 1)).
    destruct (IH (n + 1) ltac:(lia) ltac:(lia)) as (Hw & Ha & Hs & Hk & Hpos).
    destruct (run (n + 1)) as [tr' r']. cbn [fst] in *.
    assert (Hk1 : 1 <= Z.of_nat (attempts_made tr'))
      by (apply Hpos; lia).
    assert (Hatt : attempts_made
                     (EvWrite n table kw :: EvSleep (backoff * 2 ^ (n - 1)) :: tr')
                   = S (attempts_made tr')) by reflexivity.
    rewrite Hatt.
    split.
    { cbn [write_numbers flat_map app]. fold (write_numbers tr'). rewrite Hw.
      rewrite (py_range_cons n) by lia. f_equal. f_equal. lia. }
    split.
    { cbn [write_arguments flat_map app repeat]. fold (write_arguments tr').
      rewrite Ha. reflexivity. }
    split.
    { cbn [sleeps flat_map app]. fold (sleeps tr'). rewrite Hs.
      rewrite (py_range_cons n) by lia. cbn [List.map]. f_equal. f_equal.
      f_equal. lia. }
    split; lia.
Qed.

(** The trace from attempt [n] on: the attempts up to some [k], each
    but the last a throttled failure followed by its wait. *)
Lemma run_trace (j : nat) (n : Z) :
  1 <= n <= retries -> Z.of_nat j = retries - n ->
  exists k,
    n <= k <= retries /\
    fst (run n)
    = flat_map (fun m => [EvWrite m table kw; EvSleep (backoff * 2 ^ (m - 1))])
        (py_range n k) ++ [EvWrite k table kw] /\
    throttled_through store n k /\ waits_return store backoff n k.
Proof.
  revert n. induction j as [| j IH]; intros n Hn Hj.
  - exists n. split; [lia |]. rewrite py_range_nil by lia.
    assert (n = retries) as -> by lia.
    rewrite run_from_unfold by lia. cbn [retry_loop flat_map app].
    split.
    { destruct (write_to_dataset store retries) as [e |]; [| reflexivity].
      rewrite Z.ltb_irrefl, andb_false_r.
      destruct (is_OSError (exn_class e)); reflexivity. }
    split; intros m Hm; lia.
  - assert (Hstop :
      exists k,
        n <= k <= retries /\
        [EvWrite n table kw]
        = flat_map (fun m => [EvWrite m table kw;
                              EvSleep (backoff * 2 ^ (m - 1))])
            (py_range n k) ++ [EvWrite k table kw] /\
        throttled_through store n k /\ waits_return store backoff n k).
    { exists n. split; [lia |]. rewrite py_range_nil by lia.
      split; [reflexivity |]. split; intros m Hm; lia. }
    rewrite run_from_unfold by lia. cbn [retry_loop].
    destruct (write_to_dataset store n) as [e |] eqn:Hst; [| exact Hstop].
    destruct (is_OSError (exn_class e)) eqn:Hos; [| exact Hstop].
    destruct (contains "SLOW_DOWN" (exn_msg e)) eqn:Hc; [| exact Hstop].
    cbn [andb]. destruct (Z.ltb_spec n retries) as [Hlt | Hge]; [| lia].
    destruct (time_sleep _ _) as [[] | e'] eqn:Hsl; [| exact Hstop].
    fold (run (n + 1)).
    destruct (IH (n + 1) ltac:(lia) ltac:(lia))
      as (k & Hk & Htr & Hall & Hw).
    destruct (run (n + 1)) as [tr' r']. cbn [fst] in *.
    exists k. split; [lia |].
    split.
    { rewrite Htr, (py_range_cons n k) by lia. reflexivity. }
    split.
    + intros m Hm. destruct (Z.eq_dec m n) as [-> | Hne].
      * exists e. split; [exact Hst |]. unfold is_throttling.
        rewrite Hos, Hc. reflexivity.
      * apply Hall. lia.
    + intros m Hm. destruct (Z.eq_dec m n) as [-> | Hne].
      * exact Hsl.
      * apply Hw. lia.
Qed.

(** With a negative [backoff] no wait is ever performed, so that the
    first attempt is also the last. *)
Lemma run_once_when_negative :
  backoff < 0 -> 1 <= retries ->
  exists r, run 1 = ([EvWrite 1 table kw], r).
Proof.
  intros Hb Hr. rewrite run_from_unfold by lia. cbn [retry_loop].
  destruct (write_to_dataset store 1) as [e |]; [| eexists; reflexivity].
  destruct (is_OSError (exn_class e)); [| eexists; reflexivity].
  destruct (contains "SLOW_DOWN" (exn_msg e) && (1 <? retries));
    [| eexists; reflexivity].
  rewrite time_sleep_negative by (cbn; lia). eexists; reflexivity.
Qed.

End WriterShape.

(** X1.  With an attempt budget of zero or less the function returns
    normally without calling the backend at all. *)
Theorem no_attempt_without_budget
    {Table FileSystem : Type} (store : backend) (table : Table)
    (root_path : string) (partition_cols : list string)
    (filesystem : FileSystem) (retries : Z) (backoff : option Z)
    (basename_template : option string) :
  retries <= 0 ->
  write_dataset_with_retry store table root_path partition_cols filesystem
    (Some retries) backoff basename_template
  = ([], Ok tt).
Proof.
  intros H.
  change (write_dataset_with_retry store table root_path partition_cols
            filesystem (Some retries) backoff basename_template)
    with (retry_loop store table
            (build_kwargs root_path partition_cols filesystem basename_template)
            retries (default default_backoff backoff)
            (py_range 1 (retries + 1))).
  rewrite py_range_nil by lia. reflexivity.
Qed.

Lemma no_attempt_without_budget_witness :
  0 <= 0 /\
  write_dataset_with_retry
    (Backend (fun _ => Some (Exn OSError "SLOW_DOWN" None)) (fun _ => None))
    tt "bucket/prefix" ["date"] tt (Some 0) None None
  = ([], Ok tt).
Proof.
  assert (H : 0 <= 0) by lia.
  split; [exact H |].
  exact (no_attempt_without_budget _ tt "bucket/prefix" ["date"] tt 0 None None H).
Defined.

(** X2.  With a negative [backoff] the function never makes a second
    attempt and never sleeps: a throttled failure of the first attempt
    that would be retried ends the call with the error of
    [time.sleep] in place of the storage error, [ValueError] for a
    backoff down to -9223372036 and [OverflowError] below it. *)
Theorem negative_backoff_masks_throttling
    {Table FileSystem : Type} (store : backend) (table : Table)
    (root_path : string) (partition_cols : list string)
    (filesystem : FileSystem) (retries backoff : Z)
    (basename_template : option string) :
  backoff < 0 ->
  let kw := build_kwargs root_path partition_cols filesystem basename_template in
  let call :=
    write_dataset_with_retry store table root_path partition_cols filesystem
      (Some retries) (Some backoff) basename_template in
  (attempts_made (fst call) <= 1)%nat /\
  sleeps (fst call) = [] /\
  (forall e,
     1 < retries -> write_to_dataset store 1 = Some e ->
     is_throttling e = true ->
     call = ([EvWrite 1 table kw],
             Raise (if backoff <? - SLEEP_MAX
                    then Exn OverflowError
                           "timestamp too large to convert to C _PyTime_t" None
                    else Exn ValueError
                           "sleep length must be non-negative" None))).
Proof.
  intros Hb kw call.
  assert (Hcall : call = run_from store table kw retries backoff 1)
    by reflexivity.
  assert (Hshape : (attempts_made (fst call) <= 1)%nat /\ sleeps (fst call) = []).
  { destruct (Z.le_gt_cases retries 0) as [Hr | Hr].
    - unfold call. rewrite no_attempt_without_budget by exact Hr.
      split; [cbn; lia | reflexivity].
    - destruct (run_once_when_negative store table kw retries backoff Hb
                  ltac:(lia)) as [r Hrun].
      rewrite Hcall, Hrun. split; [cbn; lia | reflexivity]. }
  split; [exact (proj1 Hshape) |]. split; [exact (proj2 Hshape) |].
  intros e Hr Hs Ht. rewrite Hcall.
  pose proof (time_sleep_negative (sleep_outcome store 1) (backoff * 2 ^ (1 - 1))
                ltac:(cbn; lia)) as Hsl.
  rewrite (run_sleep_raises store table kw retries backoff 1 e _
             ltac:(lia) Hsl Hs Ht).
  replace (backoff * 2 ^ (1 - 1)) with backoff by (cbn; lia).
  reflexivity.
Qed.

Lemma negative_backoff_masks_throttling_witness :
  -1 < 0 /\
  write_dataset_with_retry throttled_twice tt "bucket/prefix" ["date"] tt
    (Some 5) (Some (-1)) None
  = ([EvWrite 1 tt (WriteKwargs "bucket/prefix" ["date"] tt None)],
     Raise (Exn ValueError "sleep length must be non-negative" None)).
Proof.
  assert (H1 : -1 < 0) by lia.
  split; [exact H1 |].
  destruct (negative_backoff_masks_throttling throttled_twice tt
              "bucket/prefix" ["date"] tt 5 (-1) None H1) as (_ & _ & Hrun).
  exact (Hrun (Exn OSError "AWS Error SLOW_DOWN during PutObject" None)
           ltac:(lia) eq_refl eq_refl).
Defined.

(** The numbers, arguments and waits of the calls of a run. *)
Lemma write_calls_and_waits
    {Table FileSystem : Type} (store : backend) (table : Table)
    (root_path : string) (partition_cols : list string)
    (filesystem : FileSystem) (retries backoff : Z)
    (basename_template : option string) :
  let tr := fst (write_dataset_with_retry store table root_path partition_cols
                   filesystem (Some retries) (Some backoff) basename_template) in
  let k := Z.of_nat (attempts_made tr) in
  write_numbers tr = py_range 1 (1 + k) /\
  write_arguments tr
  = repeat (table, build_kwargs root_path partition_cols filesystem
                     basename_template) (attempts_made tr) /\
  sleeps tr = List.map (fun m => backoff * 2 ^ (m - 1)) (py_range 1 k) /\
  k <= Z.max 0 retries /\ (1 <= retries -> 1 <= k).
Proof.
  cbv zeta.
  change (fst (write_dataset_with_retry store table root_path partition_cols
                 filesystem (Some retries) (Some backoff) basename_template))
    with (fst (run_from store table
                 (build_kwargs root_path partition_cols filesystem
                    basename_template) retries backoff 1)).
  destruct (Z.le_gt_cases 1 retries) as [Hr | Hr].
  - destruct (run_shape store table
                (build_kwargs root_path partition_cols filesystem basename_template)
                retries backoff (Z.to_nat retries) 1 ltac:(lia) ltac:(lia))
      as (H1 & H2 & H3 & H4 & H5).
    split; [exact H1 |]. split; [exact H2 |].
    split; [rewrite H3; f_equal; f_equal; lia |].
    split; [lia |]. intros _. apply H5. lia.
  - unfold run_from. rewrite py_range_nil by lia.
    cbn. rewrite !py_range_nil by lia. repeat split; (reflexivity || lia).
Qed.

(** X3.  Whatever the backend does, the trace of a call is empty when
    no attempt is allowed, and otherwise is, for some [k] from 1 to
    [retries]: attempt 1, its wait, attempt 2, its wait, and so on up
    to attempt [k], which nothing follows.  Every attempt receives the
    same table and keyword arguments, the wait after attempt [m] is
    [backoff * 2^(m-1)], and every attempt before the last was a
    throttled failure whose sleep returned. *)
Theorem write_trace_shape
    {Table FileSystem : Type} (store : backend) (table : Table)
    (root_path : string) (partition_cols : list string)
    (filesystem : FileSystem) (retries backoff : Z)
    (basename_template : option string) :
  let kw := build_kwargs root_path partition_cols filesystem basename_template in
  let tr := fst (write_dataset_with_retry store table root_path partition_cols
                   filesystem (Some retries) (Some backoff) basename_template) in
  (retries <= 0 /\ tr = []) \/
  (exists k,
     1 <= k <= retries /\
     tr = attempts_trace table kw backoff k /\
     throttled_through store 1 k /\ waits_return store backoff 1 k).
Proof.
  intros kw tr.
  destruct (Z.le_gt_cases retries 0) as [Hr | Hr].
  - left. split; [exact Hr |]. unfold tr.
    rewrite no_attempt_without_budget by exact Hr. reflexivity.
  - right.
    destruct (run_trace store table kw retries backoff
                (Z.to_nat (retries - 1)) 1 ltac:(lia) ltac:(lia))
      as (k & Hk & Htr & Hall & Hw).
    exists k. split; [exact Hk |]. split; [exact Htr |].
    split; assumption.
Qed.

(** X4.  With a non-negative [backoff] and at least one attempt
    allowed, a call that made k attempts has slept
    [backoff * (2^(k-1) - 1)] seconds in all, hence never more than
    [backoff * (2^(retries-1) - 1)]: 75 seconds with the defaults. *)
Theorem total_sleep_closed_form
    {Table FileSystem : Type} (store : backend) (table : Table)
    (root_path : string) (partition_cols : list string)
    (filesystem : FileSystem) (retries backoff : Z)
    (basename_template : option string) :
  0 <= backoff -> 1 <= retries ->
  let tr := fst (write_dataset_with_retry store table root_path partition_cols
                   filesystem (Some retries) (Some backoff) basename_template) in
  let k := Z.of_nat (attempts_made tr) in
  seconds_slept tr = backoff * (2 ^ (k - 1) - 1) /\
  seconds_slept tr <= backoff * (2 ^ (retries - 1) - 1) /\
  (retries = default_retries -> backoff = default_backoff ->
   seconds_slept tr <= 75).
Proof.
  intros Hb Hr. cbv zeta.
  destruct (write_calls_and_waits store table root_path partition_cols
              filesystem retries backoff basename_template)
    as (_ & _ & Hs & Hk & Hpos).
  set (tr := fst _) in *. set (k := Z.of_nat (attempts_made tr)) in *.
  specialize (Hpos Hr).
  assert (Heq : seconds_slept tr = backoff * (2 ^ (k - 1) - 1)).
  { unfold seconds_slept. rewrite Hs.
    replace k with (1 + Z.of_nat (Z.to_nat (k - 1))) at 1 by lia.
    rewrite geometric_waits by lia.
    replace (Z.of_nat (Z.to_nat (k - 1))) with (k - 1) by lia.
    replace (1 - 1) with 0 by lia. rewrite Z.pow_0_r. ring. }
  assert (Hbound : seconds_slept tr <= backoff * (2 ^ (retries - 1) - 1)).
  { rewrite Heq. apply Z.mul_le_mono_nonneg_l; [exact Hb |].
    apply Z.sub_le_mono_r. apply Z.pow_le_mono_r; lia. }
  split; [exact Heq |]. split; [exact Hbound |].
  intros -> ->. exact Hbound.
Qed.

Lemma total_sleep_closed_form_witness :
  (0 <= 5 /\ 1 <= 5) /\
  seconds_slept
    (fst (write_dataset_with_retry throttled_twice tt "bucket/prefix" ["date"]
            tt (Some 5) (Some 5) None))
  = 5 * (2 ^ (3 - 1) - 1).
Proof.
  assert (H1 : 0 <= 5) by lia.
  assert (H2 : 1 <= 5) by lia.
  split; [split; assumption |].
  exact (proj1 (total_sleep_closed_form throttled_twice tt "bucket/prefix"
                  ["date"] tt 5 5 None H1 H2)).
Defined.

(** X5.  The call is settled by the first attempt [n] that is not a
    retryable throttle: when attempts 1 .. n-1 are throttled and their
    sleeps return, and attempt [n] succeeds, fails without the
    throttling mark, or is the last one allowed, the function makes
    exactly these [n] calls with the [n-1] waits between them and
    returns normally or raises what attempt [n] raised. *)
Theorem first_decisive_attempt_settles
    {Table FileSystem : Type} (store : backend) (table : Table)
    (root_path : string) (partition_cols : list string)
    (filesystem : FileSystem) (retries backoff n : Z)
    (basename_template : option string) :
  1 <= n <= retries ->
  throttled_through store 1 n -> waits_return store backoff 1 n ->
  match write_to_dataset store n with
  | None => True
  | Some e => is_throttling e = false \/ n = retries
  end ->
  let kw := build_kwargs root_path partition_cols filesystem basename_template in
  write_dataset_with_retry store table root_path partition_cols filesystem
    (Some retries) (Some backoff) basename_template
  = (attempts_trace table kw backoff n,
     match write_to_dataset store n with None => Ok tt | Some e => Raise e end).
Proof.
  intros Hn Hall Hw Hdec kw.
  exact (run_until_decisive store table kw retries backoff n Hn Hall Hw Hdec).
Qed.

Lemma first_decisive_attempt_settles_witness :
  (1 <= 3 <= 4 /\ throttled_through throttled_twice 1 3 /\
   waits_return throttled_twice 2 1 3) /\
  write_dataset_with_retry throttled_twice tt "bucket/prefix" ["date"] tt
    (Some 4) (Some 2) None
  = ([EvWrite 1 tt (WriteKwargs "bucket/prefix" ["date"] tt None); EvSleep 2;
      EvWrite 2 tt (WriteKwargs "bucket/prefix" ["date"] tt None); EvSleep 4;
      EvWrite 3 tt (WriteKwargs "bucket/prefix" ["date"] tt None)], Ok tt).
Proof.
  assert (H2 : 1 <= 3 <= 4) by lia.
  assert (Hall : throttled_through throttled_twice 1 3).
  { intros m Hm. unfold throttled_twice. cbn [write_to_dataset].
    destruct (Z.leb_spec m 2); [| lia]. eexists. split; reflexivity. }
  assert (Hw : waits_return throttled_twice 2 1 3)
    by (apply short_waits_return; lia).
  split; [split; [exact H2 | split; [exact Hall | exact Hw]] |].
  exact (first_decisive_attempt_settles throttled_twice tt "bucket/prefix"
           ["date"] tt 4 2 3 None H2 Hall Hw I).
Defined.

(* ================================================================== *)
(** * Further properties of the file summarizer *)
(* ================================================================== *)

Lemma py_min_nan_r (a : float) : py_min a NaN = a.
Proof. destruct a; reflexivity. Qed.

Lemma py_max_nan_r (a : float) : py_max a NaN = a.
Proof. destruct a; reflexivity. Qed.

Lemma bbox_loop_skips_nan (pre post : list wkb_bytes) (acc : BBox) :
  bbox_loop (pre ++ nan_point :: post) acc = bbox_loop (pre ++ post) acc.
Proof.
  revert acc. induction pre as [| g pre IH]; intros acc.
  - cbn [app bbox_loop nan_point wkb_loads bind bounds].
    rewrite !py_min_nan_r, !py_max_nan_r. destruct acc; reflexivity.
  - cbn [app bbox_loop]. destruct (wkb_loads g) as [[x y] |]; [| reflexivity].
    cbn [bind bounds]. apply IH.
Qed.

Lemma bbox_loop_all_nan (k : nat) (acc : BBox) :
  bbox_loop (repeat nan_point k) acc = Ok acc.
Proof.
  induction k as [| k IH]; [reflexivity |].
  cbn [repeat].
  change (nan_point :: repeat nan_point k)
    with ([] ++ nan_point :: repeat nan_point k).
  rewrite (bbox_loop_skips_nan [] (repeat nan_point k) acc).
  exact IH.
Qed.

(** X8.  The bounds returned by the summarizer are never NaN, whatever
    the geometries: a point with NaN coordinates leaves the running
    bounds as they are, so that a column of such points alone yields
    the seed box (+inf, +inf, -inf, -inf) and not an error. *)
Theorem bounds_are_never_nan :
  (forall parquet_path f bb s e n,
     _bbox_and_times parquet_path f = Ok (bb, s, e, n) -> bbox_numeric bb) /\
  (forall pre post acc,
     bbox_loop (pre ++ nan_point :: post) acc = bbox_loop (pre ++ post) acc) /\
  (forall k, bbox_loop (repeat nan_point k) bbox_seed = Ok bbox_seed).
Proof.
  split; [| split].
  - intros parquet_path f bb s e n H.
    destruct (bbox_and_times_inv _ _ _ _ _ _ H)
      as (rows & s0 & e0 & _ & _ & Hbb & _).
    eapply bbox_loop_numeric; [| exact Hbb]. repeat split.
  - exact bbox_loop_skips_nan.
  - intros k. apply bbox_loop_all_nan.
Qed.

Lemma bounds_are_never_nan_witness :
  _bbox_and_times "catalog/assets/a.parquet"
    (ParquetFile [Row nan_point (Example.at_ 1 0 0) (Example.at_ 1 1 0)] 1)
  = Ok (bbox_seed, Example.at_ 1 0 0, Example.at_ 1 1 0, 1) /\
  bbox_numeric bbox_seed.
Proof.
  assert (H : _bbox_and_times "catalog/assets/a.parquet"
                (ParquetFile [Row nan_point (Example.at_ 1 0 0)
                                (Example.at_ 1 1 0)] 1)
              = Ok (bbox_seed, Example.at_ 1 0 0, Example.at_ 1 1 0, 1))
    by (vm_compute; reflexivity).
  split; [exact H |].
  exact (proj1 bounds_are_never_nan _ _ _ _ _ _ H).
Defined.

(** X9.  For a file with at least one row whose cells are points with
    numeric coordinates, the box returned is not inverted and holds
    every point of the file. *)
Theorem bbox_holds_every_point
    (rows : list row) (pts : list (float * float)) :
  rows <> [] ->
  List.map geometry_cell rows = List.map point_cell pts ->
  Forall numeric_point pts ->
  exists bb,
    bbox_loop (List.map geometry_cell rows) bbox_seed = Ok bb /\
    bbox_ordered bb /\ Forall (in_bbox bb) pts.
Proof.
  intros Hrows Hcells Hnum.
  assert (Hpts : pts <> []).
  { intros ->. destruct rows; [congruence | discriminate]. }
  destruct (bbox_of_points pts Hpts Hnum)
    as (bb & Hbb & [_ Hminx] & [_ Hminy] & [_ Hmaxx] & [_ Hmaxy]).
  exists bb. rewrite Hcells. split; [exact Hbb |].
  assert (Hin : Forall (in_bbox bb) pts).
  { apply List.Forall_forall. intros p Hp. unfold in_bbox.
    repeat split.
    - apply Hminx. apply in_map. exact Hp.
    - apply Hmaxx. apply in_map. exact Hp.
    - apply Hminy. apply in_map. exact Hp.
    - apply Hmaxy. apply in_map. exact Hp. }
  split; [| exact Hin].
  destruct pts as [| p pts']; [congruence |].
  inversion Hin as [| ? ? (H1 & H2 & H3 & H4) _]; subst.
  split; eapply float_le_trans; eassumption.
Qed.

Lemma bbox_holds_every_point_witness :
  (Example.b_rows <> [] /\
   Forall numeric_point (List.map (fun r => match geometry_cell r with
                                            | Wkb (Point x y) => (x, y)
                                            | Malformed => (NaN, NaN)
                                            end) Example.b_rows)) /\
  exists bb,
    bbox_loop (List.map geometry_cell Example.b_rows) bbox_seed = Ok bb /\
    bbox_ordered bb.
Proof.
  set (pts := List.map (fun r => match geometry_cell r with
                                 | Wkb (Point x y) => (x, y)
                                 | Malformed => (NaN, NaN)
                                 end) Example.b_rows).
  assert (H1 : Example.b_rows <> []) by discriminate.
  assert (H2 : Forall numeric_point pts) by (repeat constructor).
  split; [split; assumption |].
  destruct (bbox_holds_every_point Example.b_rows pts H1 eq_refl H2)
    as (bb & Hbb & Hord & _).
  exists bb. split; assumption.
Defined.

(** ** Time ranges *)

Lemma to_utc_key (d u : datetime) : to_utc d = Ok u -> ts_key u = ts_key d.
Proof.
  intros H. destruct (to_utc_normal_form d u H) as [Htz Hnf].
  unfold ts_key, Datetime.instant in *. rewrite Htz.
  destruct (Datetime.tzinfo d); unfold Datetime.utc in *; lia.
Qed.

Lemma ordered_rows_columns (k : bool) (rows : list row) :
  Forall (ordered_row k) rows ->
  exists fs ls,
    List.map firstMeasurementTime rows = List.map TsDatetime fs /\
    List.map lastMeasurementTime rows = List.map TsDatetime ls /\
    Forall (fun d => aware d = k) fs /\ Forall (fun d => aware d = k) ls /\
    Forall2 (fun f l => ts_key f <= ts_key l) fs ls.
Proof.
  induction 1 as [| r rows (f & l & Hf & Hl & Kf & Kl & Hle) _
                    (fs & ls & Ef & El & Af & Al & Hall)].
  - exists [], []. repeat split; constructor.
  - exists (f :: fs), (l :: ls). cbn [List.map]. rewrite Hf, Hl, Ef, El.
    repeat split; constructor; assumption.
Qed.

(** X10.  When every row holds two datetimes of one kind (all naive or
    all aware) with its first timestamp not after its last, a summary
    that is returned has its start not after its end. *)
Theorem start_not_after_end
    (parquet_path : string) (rows : list row) (num_rows : Z) (k : bool)
    (bb : BBox) (s e : tsval) (n : Z) :
  Forall (ordered_row k) rows ->
  _bbox_and_times parquet_path (ParquetFile rows num_rows) = Ok (bb, s, e, n) ->
  exists ds de,
    s = TsDatetime ds /\ e = TsDatetime de /\
    Datetime.tzinfo ds = Some Datetime.utc /\
    Datetime.tzinfo de = Some Datetime.utc /\
    Datetime.wall ds <= Datetime.wall de.
Proof.
  intros Hrows Hrun.
  destruct (bbox_and_times_inv _ _ _ _ _ _ Hrun)
    as (rows' & s0 & e0 & [= <- _] & Hne & _ & Hmin & Hmax & Hns & Hnen).
  destruct (ordered_rows_columns k rows Hrows)
    as (fs & ls & Ef & El & Af & Al & Hall).
  assert (Hfne : fs <> [])
    by exact (map_TsDatetime_nonempty firstMeasurementTime rows fs Hne Ef).
  assert (Hlne : ls <> [])
    by exact (map_TsDatetime_nonempty lastMeasurementTime rows ls Hne El).
  destruct (py_min_list_uniform fs Hfne (ex_intro _ k Af))
    as (dmin & Hmin' & _ & Hle_min).
  destruct (py_max_list_uniform ls Hlne (ex_intro _ k Al))
    as (dmax & Hmax' & _ & Hle_max).
  rewrite Ef, Hmin' in Hmin. injection Hmin as <-.
  rewrite El, Hmax' in Hmax. injection Hmax as <-.
  cbn [normalize] in Hns, Hnen.
  destruct (to_utc dmin) as [ds |] eqn:Hds; [| discriminate].
  destruct (to_utc dmax) as [de |] eqn:Hde; [| discriminate].
  injection Hns as <-. injection Hnen as <-.
  exists ds, de.
  pose proof (to_utc_tzinfo _ _ Hds) as Tds.
  pose proof (to_utc_tzinfo _ _ Hde) as Tde.
  pose proof (to_utc_key _ _ Hds) as Kds.
  pose proof (to_utc_key _ _ Hde) as Kde.
  repeat split; try assumption.
  assert (Hkey : ts_key ds <= ts_key de).
  { destruct Hall as [| f l fs' ls' Hfl _]; [congruence |].
    specialize (Hle_min f (or_introl eq_refl)).
    specialize (Hle_max l (or_introl eq_refl)). lia. }
  unfold ts_key, Datetime.instant in Hkey. rewrite Tds, Tde in Hkey.
  unfold Datetime.utc in Hkey. lia.
Qed.

Lemma start_not_after_end_witness :
  Forall (ordered_row true) Example.b_rows /\
  exists bb ds de,
    _bbox_and_times "catalog/assets/b.parquet" Example.b_parquet
    = Ok (bb, TsDatetime ds, TsDatetime de, 5) /\
    Datetime.wall ds <= Datetime.wall de.
Proof.
  assert (H : Forall (ordered_row true) Example.b_rows).
  { repeat constructor; do 2 eexists;
      (split; [reflexivity |]); (split; [reflexivity |]);
      (split; [reflexivity |]); (split; [reflexivity |]);
      vm_compute; discriminate. }
  split; [exact H |].
  destruct (_bbox_and_times "catalog/assets/b.parquet" Example.b_parquet)
    as [[[[bb s] e] n] |] eqn:E; [| vm_compute in E; discriminate].
  assert (Hn : n = 5) by (vm_compute in E; congruence).
  subst n.
  destruct (start_not_after_end _ _ _ _ _ _ _ _ H E)
    as (ds & de & -> & -> & _ & _ & Hle).
  exists bb, ds, de. split; [reflexivity | exact Hle].
Defined.

(** ** Null timestamps *)

Lemma ts_ltb_raise_class (a b : tsval) (e : exn) :
  ts_ltb a b = Raise e -> exn_class e = TypeError.
Proof.
  destruct a as [| x], b as [| y]; cbn [ts_ltb]; try (intros [= <-]; reflexivity).
  unfold Datetime.ltb.
  destruct (Datetime.tzinfo x), (Datetime.tzinfo y);
    intros H; try discriminate; injection H as <-; reflexivity.
Qed.

Lemma ts_ltb_null_l (b : tsval) : exists e, ts_ltb TsNone b = Raise e.
Proof. eexists. reflexivity. Qed.

Lemma ts_ltb_null_r (a : tsval) : exists e, ts_ltb a TsNone = Raise e.
Proof. destruct a; eexists; reflexivity. Qed.

Lemma min_loop_raise_class (l : list tsval) (m : tsval) (e : exn) :
  min_loop m l = Raise e -> exn_class e = TypeError.
Proof.
  revert m. induction l as [| x l IH]; intros m H; [discriminate |].
  cbn [min_loop] in H. destruct (ts_ltb x m) as [b |] eqn:Hc.
  - cbn [bind] in H. exact (IH _ H).
  - cbn [bind] in H. injection H as <-. exact (ts_ltb_raise_class _ _ _ Hc).
Qed.

Lemma max_loop_raise_class (l : list tsval) (m : tsval) (e : exn) :
  max_loop m l = Raise e -> exn_class e = TypeError.
Proof.
  revert m. induction l as [| x l IH]; intros m H; [discriminate |].
  cbn [max_loop] in H. unfold ts_gtb in H.
  destruct (ts_ltb m x) as [b |] eqn:Hc.
  - cbn [bind] in H. exact (IH _ H).
  - cbn [bind] in H. injection H as <-. exact (ts_ltb_raise_class _ _ _ Hc).
Qed.

Lemma min_loop_null (l : list tsval) (m : tsval) :
  (m = TsNone /\ l <> []) \/ In TsNone l ->
  exists e, min_loop m l = Raise e.
Proof.
  revert m. induction l as [| x l IH]; intros m H.
  - destruct H as [[_ H] | []]. congruence.
  - cbn [min_loop]. destruct (ts_ltb x m) as [b |] eqn:Hc.
    + cbn [bind]. apply IH.
      destruct m as [| dm]; [destruct x; discriminate |].
      destruct x as [| dx]; [discriminate |].
      right. destruct H as [[H _] | [H | H]]; [discriminate | discriminate | exact H].
    + eexists. reflexivity.
Qed.

Lemma max_loop_null (l : list tsval) (m : tsval) :
  (m = TsNone /\ l <> []) \/ In TsNone l ->
  exists e, max_loop m l = Raise e.
Proof.
  revert m. induction l as [| x l IH]; intros m H.
  - destruct H as [[_ H] | []]. congruence.
  - cbn [max_loop]. unfold ts_gtb. destruct (ts_ltb m x) as [b |] eqn:Hc.
    + cbn [bind]. apply IH.
      destruct m as [| dm]; [discriminate |].
      destruct x as [| dx]; [discriminate |].
      right. destruct H as [[H _] | [H | H]]; [discriminate | discriminate | exact H].
    + eexists. reflexivity.
Qed.

Lemma py_min_list_null (l : list tsval) :
  (2 <= List.length l)%nat -> In TsNone l ->
  exists e, py_min_list l = Raise e /\ exn_class e = TypeError.
Proof.
  intros Hlen Hin. destruct l as [| x l]; [destruct Hin |].
  cbn [py_min_list]. destruct (min_loop_null l x) as [e He].
  - destruct Hin as [-> | Hin]; [left | right; exact Hin].
    split; [reflexivity |]. destruct l; [cbn in Hlen; lia | discriminate].
  - exists e. split; [exact He | exact (min_loop_raise_class _ _ _ He)].
Qed.

Lemma py_max_list_null (l : list tsval) :
  (2 <= List.length l)%nat -> In TsNone l ->
  exists e, py_max_list l = Raise e /\ exn_class e = TypeError.
Proof.
  intros Hlen Hin. destruct l as [| x l]; [destruct Hin |].
  cbn [py_max_list]. destruct (max_loop_null l x) as [e He].
  - destruct Hin as [-> | Hin]; [left | right; exact Hin].
    split; [reflexivity |]. destruct l; [cbn in Hlen; lia | discriminate].
  - exists e. split; [exact He | exact (max_loop_raise_class _ _ _ He)].
Qed.

(** X11.  On a file of two rows or more whose geometries decode, a
    null in either timestamp column makes the summarizer raise a
    [TypeError]. *)
Theorem null_timestamp_raises_TypeError
    (parquet_path : string) (rows : list row) (num_rows : Z) (bb : BBox) :
  (2 <= List.length rows)%nat ->
  bbox_loop (List.map geometry_cell rows) bbox_seed = Ok bb ->
  In TsNone (List.map firstMeasurementTime rows) \/
  In TsNone (List.map lastMeasurementTime rows) ->
  exists e,
    _bbox_and_times parquet_path (ParquetFile rows num_rows) = Raise e /\
    exn_class e = TypeError.
Proof.
  intros Hlen Hbb Hnull.
  assert (Hne : rows <> []) by (intros ->; cbn in Hlen; lia).
  rewrite (bbox_and_times_nonempty parquet_path rows num_rows Hne), Hbb.
  cbn [bind].
  destruct (py_min_list (List.map firstMeasurementTime rows)) as [s0 | e0] eqn:Hmin.
  - cbn [bind].
    assert (Hl : In TsNone (List.map lastMeasurementTime rows)).
    { destruct Hnull as [Hf | Hl]; [| exact Hl].
      destruct (py_min_list_null _ ltac:(rewrite length_map; exact Hlen) Hf)
        as (e & He & _). congruence. }
    destruct (py_max_list_null _ ltac:(rewrite length_map; exact Hlen) Hl)
      as (e & He & Hc).
    rewrite He. exists e. split; [reflexivity | exact Hc].
  - exists e0. split; [reflexivity |].
    destruct rows as [| r rows']; [congruence |].
    cbn [List.map py_min_list] in Hmin.
    exact (min_loop_raise_class _ _ _ Hmin).
Qed.

Lemma null_timestamp_raises_TypeError_witness :
  let rows := [ Row (Example.pt 1 2) (Example.at_ 1 0 0) (Example.at_ 1 1 0);
                Row (Example.pt 3 4) (Example.at_ 1 0 5) TsNone ] in
  ((2 <= List.length rows)%nat /\
   In TsNone (List.map lastMeasurementTime rows)) /\
  exists e,
    _bbox_and_times "catalog/assets/a.parquet" (ParquetFile rows 2) = Raise e /\
    exn_class e = TypeError.
Proof.
  intros rows.
  assert (H1 : (2 <= List.length rows)%nat) by (cbn; lia).
  assert (H2 : In TsNone (List.map lastMeasurementTime rows))
    by (right; left; reflexivity).
  split; [split; assumption |].
  exact (null_timestamp_raises_TypeError "catalog/assets/a.parquet" rows 2
           (mkBBox (Finite 1) (Finite 2) (Finite 3) (Finite 4))
           H1 eq_refl (or_intror H2)).
Defined.

(** X12.  A file of a single row whose first timestamp is null passes
    the summarizer, which returns the null as start; the item cannot
    be built from it: serializing the start raises [TypeError]. *)
Theorem single_row_null_start
    (root : Path) (item_props : gmap string json) (rel : Path)
    (g : wkb_bytes) (last last' : tsval) (num_rows : Z) (bb : BBox) :
  bbox_loop [g] bbox_seed = Ok bb ->
  normalize last = Ok last' ->
  let f := ParquetFile [Row g TsNone last] num_rows in
  _bbox_and_times (path_str (root ++ "assets" :: rel)) f
  = Ok (bb, TsNone, last', num_rows) /\
  item_of_file root item_props (rel, f)
  = Raise (Exn TypeError "_to_rfc3339_z expects a datetime instance" None).
Proof.
  intros Hbb Hn f.
  assert (H : _bbox_and_times (path_str (root ++ "assets" :: rel)) f
              = Ok (bb, TsNone, last', num_rows)).
  { unfold f. rewrite bbox_and_times_nonempty by discriminate.
    cbn [List.map geometry_cell firstMeasurementTime lastMeasurementTime].
    rewrite Hbb.
    cbn [bind py_min_list py_max_list min_loop max_loop normalize].
    rewrite Hn. reflexivity. }
  split; [exact H |].
  unfold item_of_file. rewrite H. reflexivity.
Qed.

Lemma single_row_null_start_witness :
  normalize (Example.at_ 1 1 0) = Ok (Example.at_ 1 1 0) /\
  item_of_file Example.root ∅
    (["a.parquet"],
     ParquetFile [Row (Example.pt 1 2) TsNone (Example.at_ 1 1 0)] 1)
  = Raise (Exn TypeError "_to_rfc3339_z expects a datetime instance" None).
Proof.
  assert (H : normalize (Example.at_ 1 1 0) = Ok (Example.at_ 1 1 0))
    by (vm_compute; reflexivity).
  split; [exact H |].
  exact (proj2 (single_row_null_start Example.root ∅ ["a.parquet"]
                  (Example.pt 1 2) (Example.at_ 1 1 0) (Example.at_ 1 1 0) 1
                  (mkBBox (Finite 1) (Finite 2) (Finite 1) (Finite 2))
                  eq_refl H)).
Defined.

(** ** Serialization *)

Lemma to_utc_in_range (d : datetime) :
  Datetime.in_range (ts_key d) = true ->
  to_utc d = Ok (Datetime.Datetime (ts_key d) (Some Datetime.utc)).
Proof.
  unfold to_utc, ts_key, Datetime.astimezone_utc, Datetime.replace_tzinfo_utc,
    Datetime.instant.
  destruct (Datetime.tzinfo d) as [off |]; intros H; [rewrite H |]; reflexivity.
Qed.

(** X13.  Serialization depends on the instant alone: two datetimes
    with the same position on the time line, aware ones by their
    instant and naive ones by their clock reading taken as UTC, give
    the same string, the clock reading of that instant in UTC
    followed by Z. *)
Theorem rfc3339_depends_on_instant (d1 d2 : datetime) :
  Datetime.in_range (ts_key d1) = true ->
  ts_key d1 = ts_key d2 ->
  _to_rfc3339_z (TsDatetime d1)
  = Ok (Datetime.isoformat_clock (ts_key d1) +:+ "Z") /\
  _to_rfc3339_z (TsDatetime d2) = _to_rfc3339_z (TsDatetime d1).
Proof.
  intros Hr Hk.
  assert (H1 := to_utc_in_range d1 Hr).
  assert (H2 : to_utc d2 = Ok (Datetime.Datetime (ts_key d1) (Some Datetime.utc))).
  { rewrite Hk in Hr |- *. apply to_utc_in_range. exact Hr. }
  rewrite (to_rfc3339_z_datetime d1 _ H1), (to_rfc3339_z_datetime d2 _ H2).
  split; reflexivity.
Qed.

Lemma rfc3339_depends_on_instant_witness :
  let d1 := Datetime.mk 2021 1 2 3 4 5 0 (Some (2 * Datetime.US_PER_HOUR)) in
  let d2 := Datetime.mk 2021 1 1 20 4 5 0 (Some (-5 * Datetime.US_PER_HOUR)) in
  (Datetime.in_range (ts_key d1) = true /\ ts_key d1 = ts_key d2) /\
  _to_rfc3339_z (TsDatetime d2) = _to_rfc3339_z (TsDatetime d1).
Proof.
  intros d1 d2.
  assert (H1 : Datetime.in_range (ts_key d1) = true) by (vm_compute; reflexivity).
  assert (H2 : ts_key d1 = ts_key d2) by (vm_compute; reflexivity).
  split; [split; assumption |].
  exact (proj2 (rfc3339_depends_on_instant d1 d2 H1 H2)).
Defined.

(** X14.  [_to_rfc3339_z] returns exactly on datetimes whose instant
    can be read on the UTC clock; it raises [TypeError] on a value
    that is not a datetime and [OverflowError] on an aware datetime
    whose UTC reading would leave the years 1 to 9999. *)
Theorem to_rfc3339_z_failures (t : tsval) :
  ((exists s, _to_rfc3339_z t = Ok s) <->
   (exists d, t = TsDatetime d /\ utc_representable d)) /\
  (forall e,
     _to_rfc3339_z t = Raise e ->
     (t = TsNone /\ exn_class e = TypeError) \/
     (exists d off, t = TsDatetime d /\ Datetime.tzinfo d = Some off /\
                    Datetime.in_range (Datetime.instant d off) = false /\
                    exn_class e = OverflowError)).
Proof.
  destruct t as [| d].
  - split; [split |].
    + intros [s H]. discriminate.
    + intros (d & H & _). discriminate.
    + intros e [= <-]. left. split; reflexivity.
  - assert (Hcases :
      (utc_representable d /\ exists u, to_utc d = Ok u) \/
      (exists off, Datetime.tzinfo d = Some off /\
                   Datetime.in_range (Datetime.instant d off) = false /\
                   to_utc d = Raise (Exn OverflowError "date value out of range" None))).
    { unfold utc_representable, to_utc, Datetime.astimezone_utc,
        Datetime.instant.
      destruct (Datetime.tzinfo d) as [off |].
      - destruct (Datetime.in_range (Datetime.wall d - off)) eqn:Hr.
        + left. split; [reflexivity | eexists; reflexivity].
        + right. exists off. split; [reflexivity |].
          split; [exact Hr | rewrite ?Hr; reflexivity].
      - left. split; [exact I | eexists; reflexivity]. }
    destruct Hcases as [(Hrep & u & Hu) | (off & Htz & Hr & Hu)].
    + split; [split |].
      * intros _. exists d. split; [reflexivity | exact Hrep].
      * intros _. eexists. exact (to_rfc3339_z_datetime d u Hu).
      * intros e H. rewrite (to_rfc3339_z_datetime d u Hu) in H. discriminate.
    + split; [split |].
      * intros [s H]. unfold _to_rfc3339_z in H. rewrite Hu in H. discriminate.
      * intros (d' & [= <-] & Hrep). unfold utc_representable in Hrep.
        rewrite Htz in Hrep. congruence.
      * intros e H. unfold _to_rfc3339_z in H. rewrite Hu in H.
        cbn [bind] in H. injection H as <-.
        right. exists d, off. repeat split; assumption.
Qed.

Lemma to_rfc3339_z_failures_witness :
  let d := Datetime.mk 1 1 1 0 30 0 0 (Some Datetime.US_PER_HOUR) in
  _to_rfc3339_z (TsDatetime d)
  = Raise (Exn OverflowError "date value out of range" None) /\
  exists off, Datetime.in_range (Datetime.instant d off) = false.
Proof.
  intros d.
  assert (H : _to_rfc3339_z (TsDatetime d)
              = Raise (Exn OverflowError "date value out of range" None))
    by (vm_compute; reflexivity).
  split; [exact H |].
  destruct (proj2 (to_rfc3339_z_failures (TsDatetime d)) _ H)
    as [[Hnone _] | (d' & off & Hd & _ & Hr & _)]; [discriminate |].
  injection Hd as <-. exists off. exact Hr.
Defined.

(* ================================================================== *)
(** * Further properties of the catalog builder *)
(* ================================================================== *)

Lemma prints_app (a b : list BuildSarCatalog.event) :
  prints (a ++ b) = prints a ++ prints b.
Proof. unfold prints. apply flat_map_app. Qed.

(** Re-raising keeps the class when the class takes a message, and
    gives the [TypeError] of the constructor otherwise. *)
Lemma reraise_cases (e : exn) (msg : string) :
  (takes_message (exn_class e) = true ->
   reraise e msg = Exn (exn_class e) msg None) /\
  (forall name err,
     exn_class e = Custom name (Some err) ->
     reraise e msg = Exn TypeError err None).
Proof.
  unfold reraise, instantiate. split.
  - destruct (exn_class e) as [| | | | | | | | | name [err |]];
      intros H; try reflexivity. discriminate.
  - intros name err ->. reflexivity.
Qed.

Section RunOutcomes.

Variable validate_item : Item -> option exn.
Variable validate_collection : Collection -> option exn.
Variable format_exc : exn -> list string.
Variable make_absolute_href : string -> string.
Variable stac_io : nat -> option exn.
Variables (root : Path) (collection_id : string).
Variables (item_props_src collection_props_src :
             option (result (gmap string json))).
Variable tree : list (Path * file).

Local Abbreviation run :=
  (build_catalog validate_item validate_collection format_exc
     make_absolute_href stac_io root collection_id item_props_src
     collection_props_src tree).

Local Abbreviation setup :=
  [EvMkdir (path_str (root ++ ["items"])); EvSetDefaultStacIO].

(** The run once the loop has returned its accumulators. *)
Lemma build_catalog_after_loop (item_props collection_props : gmap string json)
    (st : loop_state) :
  load_props item_props_src = Ok item_props ->
  load_props collection_props_src = Ok collection_props ->
  loop validate_item format_exc root item_props
    (sorted (rglob_parquet tree)) init_state = ([], Ok st) ->
  run =
    match overall_bbox st with
    | None =>
        (setup, Raise (Exn RuntimeError
                         "No Parquet files found under assets directory" None))
    | Some bb =>
        match make_collection make_absolute_href root collection_id
                collection_props st bb with
        | Raise e => (setup, Raise e)
        | Ok c =>
            match snd (save stac_io c) with
            | Raise e => (setup ++ fst (save stac_io c), Raise e)
            | Ok _ =>
                match post_save_failure validate_item validate_collection c with
                | Some e =>
                    (setup ++ fst (save stac_io c)
                       ++ [EvPrint (join_parts
                             (("ERROR: Post-save validation failed for collection '"
                                 +:+ coll_id c +:+ "': " +:+ exn_msg e)
                              :: error_lines e ++ format_exc e))],
                     Raise (reraise e
                       ("Validation failed after saving STAC catalog for '"
                          +:+ coll_id c +:+ "': " +:+ exn_msg e)))
                | None => (setup ++ fst (save stac_io c), Ok tt)
                end
            end
        end
    end.
Proof.
  intros Hip Hcp Hloop.
  unfold build_catalog, io_bind, io_emit, io_lift.
  rewrite Hip, Hcp, Hloop.
  destruct (overall_bbox st) as [bb |]; [| reflexivity].
  destruct (make_collection make_absolute_href root collection_id
              collection_props st bb) as [c | e]; [| reflexivity].
  unfold io_raise, io_ret.
  destruct (save stac_io c) as [tr [[] | e]]; cbn [fst snd app];
    [| reflexivity].
  destruct (post_save_failure validate_item validate_collection c);
    cbn [app fst]; rewrite ?app_nil_r, <- ?app_assoc; reflexivity.
Qed.

Lemma make_collection_inv (collection_props : gmap string json)
    (st : loop_state) (bb : BBox) (c : Collection) :
  make_collection make_absolute_href root collection_id collection_props st bb
  = Ok c ->
  coll_id c = collection_id /\
  coll_items c
  = List.map (link_item make_absolute_href root collection_id) (items st) /\
  coll_self_href c
  = Some (collection_href (root_href make_absolute_href root)) /\
  coll_spatial_extent c = [bb] /\
  coll_extra_fields c = collection_props.
Proof.
  unfold make_collection.
  destruct (py_min_list _) as [tmin |]; [| discriminate]. cbn [bind].
  destruct (py_max_list _) as [tmax |]; [| discriminate]. cbn [bind].
  intros [= <-]. repeat split.
Qed.

(** The collection of a run over accepted files. *)
Lemma make_collection_accepted (item_props collection_props : gmap string json)
    (rs : list (Item * (BBox * tsval * tsval * Z))) :
  Forall2 (accepted validate_item root item_props)
    (sorted (rglob_parquet tree)) rs ->
  rs <> [] ->
  exists bb c,
    overall_bbox (fold_left accumulate rs init_state) = Some bb /\
    make_collection make_absolute_href root collection_id collection_props
      (fold_left accumulate rs init_state) bb = Ok c.
Proof.
  intros Hrs Hne.
  destruct (accepted_all validate_item root item_props _ rs Hrs)
    as (_ & Hst & Hen & _).
  destruct rs as [| r rs']; [congruence |].
  pose proof (acc_overall_bbox_init r rs') as Hbb. cbv zeta in Hbb.
  eexists.
  destruct (py_min_list_utc (List.map (fun r => summary_start (snd r)) (r :: rs'))
              ltac:(discriminate) Hst) as (tmin & Hmin & _).
  destruct (py_max_list_utc (List.map (fun r => summary_end (snd r)) (r :: rs'))
              ltac:(discriminate) Hen) as (tmax & Hmax & _).
  eexists. split; [exact Hbb |].
  unfold make_collection.
  rewrite acc_start_times, acc_end_times.
  cbn [init_state start_times end_times app].
  rewrite Hmin, Hmax. reflexivity.
Qed.

(** The run over accepted files, by the outcome of the save. *)
Lemma run_accepted (item_props collection_props : gmap string json)
    (rs : list (Item * (BBox * tsval * tsval * Z))) :
  load_props item_props_src = Ok item_props ->
  load_props collection_props_src = Ok collection_props ->
  Forall2 (accepted validate_item root item_props)
    (sorted (rglob_parquet tree)) rs ->
  rs <> [] ->
  exists c,
    coll_id c = collection_id /\
    coll_items c
    = List.map (fun r => link_item make_absolute_href root collection_id
                           (fst r)) rs /\
    coll_self_href c
    = Some (collection_href (root_href make_absolute_href root)) /\
    run =
      match snd (save stac_io c) with
      | Raise e => (setup ++ fst (save stac_io c), Raise e)
      | Ok _ =>
          match post_save_failure validate_item validate_collection c with
          | Some e =>
              (setup ++ fst (save stac_io c)
                 ++ [EvPrint (join_parts
                       (("ERROR: Post-save validation failed for collection '"
                           +:+ coll_id c +:+ "': " +:+ exn_msg e)
                        :: error_lines e ++ format_exc e))],
               Raise (reraise e
                 ("Validation failed after saving STAC catalog for '"
                    +:+ coll_id c +:+ "': " +:+ exn_msg e)))
          | None => (setup ++ fst (save stac_io c), Ok tt)
          end
      end.
Proof.
  intros Hip Hcp Hrs Hne.
  destruct (make_collection_accepted item_props collection_props rs Hrs Hne)
    as (bb & c & Hbb & Hc).
  destruct (make_collection_inv _ _ _ _ Hc) as (Hid & Hitems & Hhref & _).
  exists c. split; [exact Hid |].
  split.
  { rewrite Hitems, acc_items. cbn [init_state items app].
    rewrite List.map_map. reflexivity. }
  split; [exact Hhref |].
  rewrite (build_catalog_after_loop item_props collection_props
             (fold_left accumulate rs init_state) Hip Hcp
             (loop_accept validate_item format_exc root item_props _ rs
                init_state Hrs)).
  rewrite Hbb, Hc. reflexivity.
Qed.

End RunOutcomes.

(** X15.  When the files sorted before [pf] are accepted and the item
    built from [pf] fails its validation with [e], the run prints one
    diagnostic line made of the message, the nested errors and the
    traceback, and raises; it calls [write_text] for no document and
    does not look at the files sorted after [pf].  The exception
    raised is of the class of [e], with a message that names the item,
    when that class can be built from one message; for a class whose
    constructor needs other arguments the run raises the [TypeError]
    of that constructor instead. *)
Theorem item_validation_failure_aborts
    (validate_item : Item -> option exn)
    (validate_collection : Collection -> option exn)
    (format_exc : exn -> list string)
    (make_absolute_href : string -> string) (stac_io : nat -> option exn)
    (root : Path) (collection_id : string)
    (item_props_src collection_props_src : option (result (gmap string json)))
    (tree : list (Path * file))
    (item_props collection_props : gmap string json)
    (pre post : list (Path * file)) (pf : Path * file)
    (rs : list (Item * (BBox * tsval * tsval * Z)))
    (r : Item * (BBox * tsval * tsval * Z)) (e : exn) :
  load_props item_props_src = Ok item_props ->
  load_props collection_props_src = Ok collection_props ->
  sorted (rglob_parquet tree) = pre ++ pf :: post ->
  Forall2 (accepted validate_item root item_props) pre rs ->
  item_of_file root item_props pf = Ok r ->
  validate_item (fst r) = Some e ->
  let msg := "Validation failed for STAC item '" +:+ item_id (fst r) +:+ "': "
               +:+ exn_msg e in
  exists raised,
    build_catalog validate_item validate_collection format_exc
      make_absolute_href stac_io root collection_id item_props_src
      collection_props_src tree
    = ([EvMkdir (path_str (root ++ ["items"])); EvSetDefaultStacIO;
        EvPrint (join_parts
          (("ERROR: Item validation failed for item ID " +:+ item_id (fst r)
              +:+ ": " +:+ exn_msg e)
           :: error_lines e ++ format_exc e))],
       Raise raised) /\
    (takes_message (exn_class e) = true ->
     raised = Exn (exn_class e) msg None) /\
    (forall name err,
       exn_class e = Custom name (Some err) ->
       raised = Exn TypeError err None).
Proof.
  intros Hip Hcp Hsorted Hpre Hitem Hval msg.
  exists (reraise e msg).
  split; [| exact (reraise_cases e msg)].
  rewrite (build_catalog_loop_raises validate_item validate_collection
             format_exc make_absolute_href stac_io root collection_id
             item_props_src collection_props_src
             tree item_props collection_props
             [EvPrint (join_parts
                (("ERROR: Item validation failed for item ID "
                    +:+ item_id (fst r) +:+ ": " +:+ exn_msg e)
                 :: error_lines e ++ format_exc e))]
             (reraise e msg) Hip Hcp).
  - reflexivity.
  - rewrite Hsorted. apply (loop_stops _ _ _ _ _ _ _ rs); [exact Hpre |].
    unfold process_file, io_lift, io_bind. rewrite Hitem, Hval. reflexivity.
Qed.

Lemma item_validation_failure_aborts_witness :
  let reject_b := fun it : Item =>
    if String.eqb (item_id it) "b"
    then Some (Exn STACValidationError "bbox is invalid" (Some ["minx > maxx"]))
    else None in
  let no_schema_for_b := fun it : Item =>
    if String.eqb (item_id it) "b"
    then Some (Exn (Custom "GetSchemaError"
                      (Some "GetSchemaError.__init__() missing 1 required positional argument: 'error'"))
                 "Error getting schema" None)
    else None in
  let run v := build_catalog v Example.valid_collection
                 Example.no_traceback Example.make_absolute_href
                 Example.stac_io Example.root "sar-owi" None None
                 Example.assets in
  sorted (rglob_parquet Example.assets)
  = [(["a.parquet"], Example.a_parquet)] ++ (["b.parquet"], Example.b_parquet) :: [] /\
  snd (run reject_b)
  = Raise (Exn STACValidationError
             "Validation failed for STAC item 'b': bbox is invalid" None) /\
  prints (fst (run reject_b))
  = ["ERROR: Item validation failed for item ID b: bbox is invalid | minx > maxx"] /\
  writes (fst (run reject_b)) = [] /\
  snd (run no_schema_for_b)
  = Raise (Exn TypeError
             "GetSchemaError.__init__() missing 1 required positional argument: 'error'"
             None).
Proof.
  intros reject_b no_schema_for_b run.
  assert (Hs : sorted (rglob_parquet Example.assets)
               = [(["a.parquet"], Example.a_parquet)]
                 ++ (["b.parquet"], Example.b_parquet) :: [])
    by reflexivity.
  split; [exact Hs |].
  destruct (accepted_results reject_b Example.root ∅
              [(["a.parquet"], Example.a_parquet)]) as [rs |] eqn:E;
    [| vm_compute in E; discriminate].
  destruct (item_of_file Example.root ∅ (["b.parquet"], Example.b_parquet))
    as [r |] eqn:Er; [| vm_compute in Er; discriminate].
  assert (Hid : item_id (fst r) = "b").
  { destruct (item_of_file_summary _ _ _ _ _ Er) as (_ & _ & _ & Hid & _).
    exact Hid. }
  assert (Hval : reject_b (fst r)
                 = Some (Exn STACValidationError "bbox is invalid"
                           (Some ["minx > maxx"]))).
  { unfold reject_b. rewrite Hid. reflexivity. }
  destruct (item_validation_failure_aborts reject_b Example.valid_collection
              Example.no_traceback Example.make_absolute_href Example.stac_io
              Example.root "sar-owi" None None
              Example.assets ∅ ∅ [(["a.parquet"], Example.a_parquet)] []
              (["b.parquet"], Example.b_parquet) rs r _
              eq_refl eq_refl Hs (accepted_results_sound _ _ _ _ _ E) Er Hval)
    as (raised & Hrun & Hsame & _).
  rewrite (Hsame eq_refl) in Hrun. unfold run. rewrite Hrun, Hid.
  split; [reflexivity |]. split; [reflexivity |]. split; [reflexivity |].
  vm_compute. reflexivity.
Defined.

(** X16.  When every file is accepted, the validation after saving
    runs only once the save has returned.  The calls of [write_text]
    are then one per file, in sorted order, followed by the call for
    the collection; if that validation fails with [e], one diagnostic
    line follows the writes and the run raises [e] rebuilt with a
    message that names the collection (or the [TypeError] of a class
    that cannot be rebuilt from one message); a failure of the
    collection itself is reported before any failure of an item.  If
    instead a call of [write_text] raises, the run raises that very
    exception, makes no later call and prints nothing. *)
Theorem post_save_failure_after_persisting
    (validate_item : Item -> option exn)
    (validate_collection : Collection -> option exn)
    (format_exc : exn -> list string)
    (make_absolute_href : string -> string) (stac_io : nat -> option exn)
    (root : Path) (collection_id : string)
    (item_props_src collection_props_src : option (result (gmap string json)))
    (tree : list (Path * file))
    (item_props collection_props : gmap string json)
    (rs : list (Item * (BBox * tsval * tsval * Z))) :
  load_props item_props_src = Ok item_props ->
  load_props collection_props_src = Ok collection_props ->
  Forall2 (accepted validate_item root item_props)
    (sorted (rglob_parquet tree)) rs ->
  rs <> [] ->
  let run := build_catalog validate_item validate_collection format_exc
               make_absolute_href stac_io root collection_id item_props_src
               collection_props_src tree in
  exists c,
    coll_items c
    = List.map (fun r => link_item make_absolute_href root collection_id
                           (fst r)) rs /\
    (writes_return stac_io (S (List.length rs)) ->
     writes (fst run) = documents c /\
     List.length (writes (fst run)) = S (List.length rs) /\
     forall e,
       post_save_failure validate_item validate_collection c = Some e ->
       fst run
       = [EvMkdir (path_str (root ++ ["items"])); EvSetDefaultStacIO]
         ++ write_events (documents c)
         ++ [EvPrint (join_parts
               (("ERROR: Post-save validation failed for collection '"
                   +:+ collection_id +:+ "': " +:+ exn_msg e)
                :: error_lines e ++ format_exc e))] /\
       snd run
       = Raise (reraise e
                  ("Validation failed after saving STAC catalog for '"
                     +:+ collection_id +:+ "': " +:+ exn_msg e))) /\
    (forall e, validate_collection c = Some e ->
               post_save_failure validate_item validate_collection c = Some e) /\
    (forall i e,
       (i <= List.length rs)%nat ->
       writes_return stac_io i -> stac_io i = Some e ->
       snd run = Raise e /\
       writes (fst run) = firstn (S i) (documents c) /\
       prints (fst run) = []).
Proof.
  intros Hip Hcp Hrs Hne run.
  destruct (run_accepted validate_item validate_collection format_exc
              make_absolute_href stac_io root
              collection_id item_props_src collection_props_src tree
              item_props collection_props rs Hip Hcp Hrs Hne)
    as (c & Hid & Hitems & Hhref & Hrun).
  fold run in Hrun.
  assert (Hlen : List.length (coll_items c) = List.length rs)
    by (rewrite Hitems, length_map; reflexivity).
  exists c. split; [exact Hitems |].
  split.
  { intros Hok. rewrite <- Hlen in Hok.
    pose proof (save_returns stac_io c Hok) as Hsave.
    assert (Hw : writes (fst run) = documents c).
    { rewrite Hrun, Hsave. cbn [snd fst].
      destruct (post_save_failure validate_item validate_collection c);
        cbn [fst]; rewrite !writes_app, writes_write_events;
        cbn [writes flat_map app]; rewrite ?app_nil_r; reflexivity. }
    split; [exact Hw |].
    split; [rewrite Hw, documents_length, Hlen; reflexivity |].
    intros e He. rewrite Hrun, Hsave, He, Hid. cbn [snd fst].
    split; reflexivity. }
  split.
  { intros e He. unfold post_save_failure. rewrite He. reflexivity. }
  intros i e Hi Hbefore He.
  assert (Hsave : save stac_io c
                  = (write_events (firstn (S i) (documents c)), Raise e)).
  { unfold save. apply write_all_raises.
    - rewrite documents_length, Hlen. lia.
    - intros j Hj. exact (Hbefore j Hj).
    - exact He. }
  rewrite Hrun, Hsave. cbn [snd fst].
  split; [reflexivity |].
  split.
  - rewrite writes_app, writes_write_events. reflexivity.
  - rewrite prints_app, prints_write_events. reflexivity.
Qed.

Lemma post_save_failure_after_persisting_witness :
  let reject_linked := fun it : Item =>
    match item_collection it with
    | Some _ => Some (Exn STACValidationError "missing link" None)
    | None => None
    end in
  let run := build_catalog reject_linked Example.valid_collection
               Example.no_traceback Example.make_absolute_href
               Example.stac_io Example.root "sar-owi" None None
               Example.assets in
  snd run
  = Raise (Exn STACValidationError
             "Validation failed after saving STAC catalog for 'sar-owi': missing link"
             None) /\
  List.map fst (writes (fst run))
  = ["/work/catalog/items/a.json"; "/work/catalog/items/b.json";
     "/work/catalog/collection.json"] /\
  exists c, writes (fst run) = documents c.
Proof.
  intros reject_linked run.
  split; [vm_compute; reflexivity |].
  split; [vm_compute; reflexivity |].
  destruct (accepted_results reject_linked Example.root ∅
              (sorted (rglob_parquet Example.assets))) as [rs |] eqn:E;
    [| vm_compute in E; discriminate].
  assert (Hne : rs <> []) by (intros ->; vm_compute in E; discriminate).
  destruct (post_save_failure_after_persisting reject_linked
              Example.valid_collection Example.no_traceback
              Example.make_absolute_href Example.stac_io Example.root
              "sar-owi" None None Example.assets ∅ ∅ rs eq_refl eq_refl
              (accepted_results_sound _ _ _ _ _ E) Hne)
    as (c & _ & Hw & _).
  exists c. apply Hw. intros k _. reflexivity.
Defined.

(** X17.  A run over accepted files in which every call of
    [write_text] returns and the validation after saving passes
    performs, in this order: the creation of the items directory, the
    installation of the I/O adapter, one write per file in sorted
    order at the href that the layout gives the item under the
    resolved root href, each item carrying its link to the
    collection, and last the write of the collection at
    [collection.json] under that root href; it prints nothing and
    returns normally.  The root href is the one that
    [normalize_hrefs] resolves, absolute even when [root] is
    relative. *)
Theorem successful_run_trace
    (validate_item : Item -> option exn)
    (validate_collection : Collection -> option exn)
    (format_exc : exn -> list string)
    (make_absolute_href : string -> string) (stac_io : nat -> option exn)
    (root : Path) (collection_id : string)
    (item_props_src collection_props_src : option (result (gmap string json)))
    (tree : list (Path * file))
    (item_props collection_props : gmap string json)
    (rs : list (Item * (BBox * tsval * tsval * Z))) :
  load_props item_props_src = Ok item_props ->
  load_props collection_props_src = Ok collection_props ->
  Forall2 (accepted validate_item root item_props)
    (sorted (rglob_parquet tree)) rs ->
  rs <> [] ->
  writes_return stac_io (S (List.length rs)) ->
  let base := make_absolute_href (str_of_path root) in
  exists c,
    coll_items c
    = List.map (fun r => link_item make_absolute_href root collection_id
                           (fst r)) rs /\
    Forall (fun it => item_collection it = Some collection_id) (coll_items c) /\
    (post_save_failure validate_item validate_collection c = None ->
     build_catalog validate_item validate_collection format_exc
       make_absolute_href stac_io root collection_id item_props_src
       collection_props_src tree
     = (EvMkdir (path_str (root ++ ["items"])) :: EvSetDefaultStacIO ::
        List.map
          (fun r => EvWriteText
                      (posix_join (posix_dirname (posix_join base "collection.json"))
                         ("items/" +:+ item_id (fst r) +:+ ".json"))
                      (DocItem (link_item make_absolute_href root collection_id
                                  (fst r)))) rs
        ++ [EvWriteText (posix_join base "collection.json") (DocCollection c)],
        Ok tt)).
Proof.
  intros Hip Hcp Hrs Hne Hok base.
  destruct (run_accepted validate_item validate_collection format_exc
              make_absolute_href stac_io root
              collection_id item_props_src collection_props_src tree
              item_props collection_props rs Hip Hcp Hrs Hne)
    as (c & Hid & Hitems & Hhref & Hrun).
  assert (Hlen : List.length (coll_items c) = List.length rs)
    by (rewrite Hitems, length_map; reflexivity).
  exists c. split; [exact Hitems |].
  split.
  { rewrite Hitems. apply List.Forall_forall. intros it Hin.
    apply in_map_iff in Hin as (r & <- & _). reflexivity. }
  intros Hpost. rewrite <- Hlen in Hok.
  rewrite Hrun, (save_returns stac_io c Hok), Hpost. cbn [snd fst app].
  unfold documents, write_events.
  rewrite Hitems, Hhref, List.map_app, !List.map_map. reflexivity.
Qed.

Lemma successful_run_trace_witness :
  List.map (fun ev => match ev with
                      | EvWriteText href _ => href
                      | EvMkdir dir => "mkdir " +:+ dir
                      | EvSetDefaultStacIO => "set_default"
                      | EvPrint line => line
                      end) (fst Example.run)
  = ["mkdir catalog/items"; "set_default"; "/work/catalog/items/a.json";
     "/work/catalog/items/b.json"; "/work/catalog/collection.json"] /\
  exists rs c,
    Forall2 (accepted Example.valid_item Example.root ∅)
      (sorted (rglob_parquet Example.assets)) rs /\
    writes_return Example.stac_io (S (List.length rs)) /\
    coll_items c
    = List.map (fun r => link_item Example.make_absolute_href Example.root
                           "sar-owi" (fst r)) rs /\
    Forall (fun it => item_collection it = Some "sar-owi") (coll_items c).
Proof.
  split; [vm_compute; reflexivity |].
  destruct (accepted_results Example.valid_item Example.root ∅
              (sorted (rglob_parquet Example.assets))) as [rs |] eqn:E;
    [| vm_compute in E; discriminate].
  assert (Hne : rs <> []) by (intros ->; vm_compute in E; discriminate).
  pose proof (accepted_results_sound _ _ _ _ _ E) as Hrs.
  assert (Hok : writes_return Example.stac_io (S (List.length rs)))
    by (intros k _; reflexivity).
  destruct (successful_run_trace Example.valid_item Example.valid_collection
              Example.no_traceback Example.make_absolute_href Example.stac_io
              Example.root "sar-owi" None None
              Example.assets ∅ ∅ rs eq_refl eq_refl Hrs Hne Hok)
    as (c & Hitems & Hlinked & _).
  exists rs, c. split; [exact Hrs |]. split; [exact Hok |].
  split; assumption.
Defined.

(** X18.  No document is handed to the storage before every Parquet
    file found has been accepted: whatever the files, the validators
    and the storage do, a run either calls [write_text] for no
    document at all, or every file was accepted and its calls are, in
    order, a leading part of the documents of the collection built
    from them, one per file and then the collection; the calls stop
    short of the last document only when one of them raises. *)
Theorem no_partial_catalog
    (validate_item : Item -> option exn)
    (validate_collection : Collection -> option exn)
    (format_exc : exn -> list string)
    (make_absolute_href : string -> string) (stac_io : nat -> option exn)
    (root : Path) (collection_id : string)
    (item_props_src collection_props_src : option (result (gmap string json)))
    (tree : list (Path * file)) :
  let run := build_catalog validate_item validate_collection format_exc
               make_absolute_href stac_io root collection_id item_props_src
               collection_props_src tree in
  writes (fst run) = [] \/
  exists item_props rs c n,
    load_props item_props_src = Ok item_props /\
    Forall2 (accepted validate_item root item_props)
      (sorted (rglob_parquet tree)) rs /\
    coll_items c
    = List.map (fun r => link_item make_absolute_href root collection_id
                           (fst r)) rs /\
    (1 <= n <= S (List.length rs))%nat /\
    writes (fst run) = firstn n (documents c) /\
    (n = S (List.length rs) \/
     exists e, snd run = Raise e /\ stac_io (Nat.pred n) = Some e).
Proof.
  cbv zeta.
  destruct (load_props item_props_src) as [ip | e1] eqn:Hip;
    [| left; unfold build_catalog, io_bind, io_emit, io_lift;
       rewrite Hip; reflexivity].
  destruct (load_props collection_props_src) as [cp | e2] eqn:Hcp;
    [| left; unfold build_catalog, io_bind, io_emit, io_lift;
       rewrite Hip, Hcp; reflexivity].
  destruct (loop validate_item format_exc root ip
              (sorted (rglob_parquet tree)) init_state) as [tr [st | e]] eqn:Hloop.
  - destruct (loop_ok_inv _ _ _ _ _ _ _ _ Hloop) as (-> & rs & Hrs & ->).
    rewrite (build_catalog_after_loop validate_item validate_collection
               format_exc make_absolute_href stac_io root collection_id
               item_props_src collection_props_src tree ip cp _ Hip Hcp Hloop).
    destruct (overall_bbox (fold_left accumulate rs init_state)) as [bb |];
      [| left; reflexivity].
    destruct (make_collection make_absolute_href root collection_id cp
                (fold_left accumulate rs init_state) bb) as [c | e] eqn:Hc;
      [| left; reflexivity].
    right.
    destruct (make_collection_inv _ _ _ _ _ _ _ Hc) as (_ & Hitems & _).
    assert (Hitems' : coll_items c
              = List.map (fun r => link_item make_absolute_href root
                                     collection_id (fst r)) rs).
    { rewrite Hitems, acc_items. cbn [init_state items app].
      rewrite List.map_map. reflexivity. }
    assert (Hlen : List.length (coll_items c) = List.length rs)
      by (rewrite Hitems', length_map; reflexivity).
    destruct (save_prefix stac_io c) as (n & Hn & Htr & Hret & Hraise).
    exists ip, rs, c, n.
    split; [reflexivity |]. split; [exact Hrs |]. split; [exact Hitems' |].
    split; [lia |].
    destruct (snd (save stac_io c)) as [[] | e] eqn:Hsnd.
    + destruct (Hret eq_refl) as [-> _].
      split; [| left; lia].
      destruct (post_save_failure validate_item validate_collection c);
        cbn [fst]; rewrite !writes_app, Htr, writes_write_events;
        cbn [writes flat_map app]; rewrite ?app_nil_r; reflexivity.
    + destruct (Hraise e eq_refl) as [He _].
      split.
      * cbn [fst]. rewrite writes_app, Htr, writes_write_events. reflexivity.
      * right. exists e. split; [reflexivity | exact He].
  - left.
    rewrite (build_catalog_loop_raises validate_item validate_collection
               format_exc make_absolute_href stac_io root collection_id
               item_props_src collection_props_src tree ip cp tr e Hip Hcp Hloop).
    cbn [fst]. rewrite writes_app.
    pose proof (loop_writes validate_item format_exc root ip
                  (sorted (rglob_parquet tree)) init_state) as Hw.
    rewrite Hloop in Hw. exact Hw.
Qed.



(** X20.  The geometry of an item is the closed ring of the four
    corners of its bounding box, five positions ending where they
    start; when the box is not inverted, the bounds of that ring are
    the box itself. *)
Theorem item_geometry_is_bbox_rectangle
    (root : Path) (item_props : gmap string json) (pf : Path * file)
    (item : Item) (summary : BBox * tsval * tsval * Z) :
  item_of_file root item_props pf = Ok (item, summary) ->
  let b := item_bbox item in
  let ring := item_geometry item in
  ring = [ (maxx b, miny b); (maxx b, maxy b); (minx b, maxy b);
           (minx b, miny b); (maxx b, miny b) ] /\
  List.hd_error ring = List.last (List.map Some ring) None /\
  (bbox_ordered b ->
   is_min (minx b) (List.map fst ring) /\ is_max (maxx b) (List.map fst ring) /\
   is_min (miny b) (List.map snd ring) /\ is_max (maxy b) (List.map snd ring)).
Proof.
  intros H.
  destruct (item_of_file_summary root item_props (fst pf) (snd pf) (item, summary))
    as ((N1 & N2 & N3 & N4) & _ & _ & _ & Hbbox & _).
  { destruct pf. exact H. }
  destruct pf as [rel f].
  destruct (item_of_file_inv _ _ _ _ _ _ H) as (ss & es & _ & _ & _ & Hitem).
  cbn [fst snd] in Hbbox. cbv zeta.
  assert (Hring : item_geometry item = box (item_bbox item))
    by (rewrite Hitem; reflexivity).
  rewrite Hring. unfold box.
  split; [reflexivity |]. split; [reflexivity |].
  rewrite Hbbox. intros [Hx Hy]. cbn [List.map fst snd].
  pose proof (float_le_refl _ N1) as R1. pose proof (float_le_refl _ N2) as R2.
  pose proof (float_le_refl _ N3) as R3. pose proof (float_le_refl _ N4) as R4.
  repeat split; cbn [In]; try tauto;
    intros x Hin; repeat destruct Hin as [<- | Hin]; try assumption;
    destruct Hin.
Qed.

Lemma item_geometry_is_bbox_rectangle_witness :
  exists item summary,
    item_of_file Example.root ∅ (["a.parquet"], Example.a_parquet)
    = Ok (item, summary) /\
    item_geometry item
    = [ (of_Z (-9), of_Z 40); (of_Z (-9), of_Z 41); (of_Z (-10), of_Z 41);
        (of_Z (-10), of_Z 40); (of_Z (-9), of_Z 40) ].
Proof.
  destruct (item_of_file Example.root ∅ (["a.parquet"], Example.a_parquet))
    as [[item summary] |] eqn:E; [| vm_compute in E; discriminate].
  exists item, summary. split; [reflexivity |].
  rewrite (proj1 (item_geometry_is_bbox_rectangle _ _ _ _ _ E)).
  vm_compute in E. injection E as <- _. reflexivity.
Defined.

(** ** The layout *)

Lemma string_app_inj_r (a x y : string) : a +:+ x = a +:+ y -> x = y.
Proof.
  induction a as [| c a IH]; [exact (fun H => H) |].
  rewrite !string_app_cons. intros [= H]. exact (IH H).
Qed.

(** The layout sends distinct identifiers to distinct hrefs. *)
Lemma item_href_inj (base a b : string) :
  item_href base a = item_href base b -> a = b.
Proof.
  unfold item_href, posix_join.
  set (dir := posix_dirname _).
  assert (Hrel : forall t, String.prefix "/" ("items/" +:+ t) = false).
  { intros t. rewrite string_app_cons. cbn [String.prefix].
    destruct (ascii_dec "/" "i"); [discriminate | reflexivity]. }
  rewrite !Hrel.
  destruct (String.eqb dir "" || endswith dir "/"); intros H.
  - apply string_app_inj_r, string_app_inj_r in H.
    exact (string_app_inj_l _ _ _ H).
  - apply string_app_inj_r, string_app_inj_r, string_app_inj_r in H.
    exact (string_app_inj_l _ _ _ H).
Qed.

(** X21.  Under the layout [items/${id}.json] two items are saved at
    the same href exactly when they have the same identifier, so that
    items sharing an identifier share one document path. *)
Theorem item_href_determined_by_id
    (make_absolute_href : string -> string)
    (root : Path) (collection_id : string) (i1 i2 : Item) :
  item_self_href (link_item make_absolute_href root collection_id i1)
  = item_self_href (link_item make_absolute_href root collection_id i2)
  <-> item_id i1 = item_id i2.
Proof.
  cbn [link_item item_self_href]. split.
  - intros [= H]. exact (item_href_inj _ _ _ H).
  - intros ->. reflexivity.
Qed.

(** ** The shared table schema *)

Lemma make_collection_tables (make_absolute_href : string -> string)
    (root : Path) (collection_id : string)
    (collection_props : gmap string json) (st : loop_state) (bb : BBox)
    (c : Collection) :
  make_collection make_absolute_href root collection_id collection_props st bb
  = Ok c ->
  coll_tables c
  = [mkTable "owi" "Sentinel-1 Ocean Wind Field measurements" COLUMN_DEFS
       (total_rows st)].
Proof.
  unfold make_collection.
  destruct (py_min_list _) as [tmin |]; [| discriminate]. cbn [bind].
  destruct (py_max_list _) as [tmax |]; [| discriminate]. cbn [bind].
  intros [= <-]. reflexivity.
Qed.

(** X22.  Every item built and the table of every collection built
    carry the same fourteen column definitions, whose names are
    pairwise distinct; the primary geometry of an item names one of
    these columns, the one of type [binary]. *)
Theorem items_and_collection_share_schema :
  (forall root item_props pf item summary,
     item_of_file root item_props pf = Ok (item, summary) ->
     item_columns item = COLUMN_DEFS /\
     In (mkColumn (item_primary_geometry item)
           "Point geometry of the observation in WGS84 encoded as WKB"
           "binary") (item_columns item)) /\
  (forall make_absolute_href root collection_id collection_props st bb c,
     make_collection make_absolute_href root collection_id collection_props
       st bb = Ok c ->
     List.map table_columns (coll_tables c) = [COLUMN_DEFS] /\
     Forall (fun it => exists it0,
                         it = link_item make_absolute_href root collection_id
                                it0 /\
                         item_columns it = item_columns it0)
       (coll_items c)) /\
  List.length COLUMN_DEFS = 14%nat /\
  List.NoDup (List.map col_name COLUMN_DEFS).
Proof.
  split; [| split; [| split]].
  - intros root item_props [rel f] item summary H.
    destruct (item_of_file_inv _ _ _ _ _ _ H) as (ss & es & _ & _ & _ & ->).
    cbn [item_columns item_primary_geometry]. split; [reflexivity |].
    unfold COLUMN_DEFS. cbn [In]. do 13 right. left. reflexivity.
  - intros make_absolute_href root collection_id collection_props st bb c H.
    rewrite (make_collection_tables _ _ _ _ _ _ _ H).
    split; [reflexivity |].
    destruct (make_collection_inv _ _ _ _ _ _ _ H) as (_ & -> & _).
    apply List.Forall_forall. intros it Hin.
    apply in_map_iff in Hin as (it0 & <- & _).
    exists it0. split; reflexivity.
  - reflexivity.
  - unfold COLUMN_DEFS. cbn [List.map col_name].
    repeat (constructor; [cbn [In]; intuition discriminate |]).
    constructor.
Qed.

(** ** Files that are not Parquet files *)

Lemma rglob_parquet_app (a b : list (Path * file)) :
  rglob_parquet (a ++ b) = rglob_parquet a ++ rglob_parquet b.
Proof. unfold rglob_parquet. apply List.filter_app. Qed.

(** X23.  Files whose name does not end in [.parquet] play no part:
    with distinct paths, a tree that holds such files besides those of
    [tree], in any scan order, gives the very run of [tree]; in
    particular such a file is never read, readable or not. *)
Theorem other_files_are_ignored
    (validate_item : Item -> option exn)
    (validate_collection : Collection -> option exn)
    (format_exc : exn -> list string)
    (make_absolute_href : string -> string) (stac_io : nat -> option exn)
    (root : Path) (collection_id : string)
    (item_props_src collection_props_src : option (result (gmap string json)))
    (tree extra tree' : list (Path * file)) :
  rglob_parquet extra = [] ->
  List.NoDup (List.map fst tree') ->
  Permutation tree' (tree ++ extra) ->
  build_catalog validate_item validate_collection format_exc
    make_absolute_href stac_io root collection_id item_props_src
    collection_props_src tree'
  = build_catalog validate_item validate_collection format_exc
      make_absolute_href stac_io root collection_id item_props_src
      collection_props_src tree.
Proof.
  intros Hextra Hnd Hp. unfold build_catalog.
  rewrite (sorted_rglob_stable tree' (tree ++ extra) Hnd Hp).
  rewrite rglob_parquet_app, Hextra, app_nil_r. reflexivity.
Qed.

Lemma other_files_are_ignored_witness :
  let tree' := (["README.txt"], Unreadable) :: Example.assets in
  (rglob_parquet Example.other_assets = [] /\
   List.NoDup (List.map fst tree')) /\
  build_catalog Example.valid_item Example.valid_collection
    Example.no_traceback Example.make_absolute_href Example.stac_io
    Example.root "sar-owi" None None tree'
  = Example.run.
Proof.
  intros tree'.
  assert (H1 : rglob_parquet Example.other_assets = []) by reflexivity.
  assert (H2 : List.NoDup (List.map fst tree')).
  { repeat constructor; cbn; intuition discriminate. }
  split; [split; assumption |].
  apply (other_files_are_ignored _ _ _ _ _ _ _ _ _ Example.assets
           Example.other_assets tree' H1 H2).
  change tree' with ([(["README.txt"], Unreadable)] ++ Example.assets).
  apply Permutation_app_comm.
Defined.
